(** * PyOnSSET: levelised cost of electricity tables

    A shallow embedding of [pyonsset/tables.py] and of the constants of
    [pyonsset/constants.py] it uses.

    Conventions of the embedding.
    - Python floats are idealised as real numbers ([R]); the decimal literals
      of the source are the corresponding exact rationals.
    - Python 3 semantics: [/] is true division, and [math.ceil] returns an
      integer.
    - A Python exception is a [Raise] in the [result] monad.  Dividing by a
      variable goes through [truediv], which raises [ZeroDivisionError];
      [math.sqrt] of a variable goes through [math_sqrt], which raises
      [ValueError] on a negative argument.  Divisions by the non-zero
      literals and constants of the source (5.0, 8760, 2, 10, sqrt(2), ...)
      cannot raise and are written with the plain division of [R].
    - The last division of [calc_lcoe] is a division of numpy scalars, which
      does not raise: it yields an infinity or a NaN.  [float64] adds these
      three values to the reals. *)

From Stdlib Require Import Reals Lra Lia ZArith List String Bool Sorted
  Ascii.
Import ListNotations.

Local Open Scope R_scope.

(** ** Exceptions and the error monad *)

Inductive exn : Type :=
| ZeroDivisionError
| ValueError
| IndexError
| KeyError
| TypeError.

Inductive result (A : Type) : Type :=
| Ok (a : A)
| Raise (e : exn).

Arguments Ok {A} a.
Arguments Raise {A} e.

Definition bind {A B : Type} (m : result A) (k : A -> result B) : result B :=
  match m with
  | Ok a => k a
  | Raise e => Raise e
  end.

Notation "x <- m ;; k" := (bind m (fun x => k))
  (at level 61, m at next level, right associativity).

(** ** Floating-point values that a numpy division can produce *)

(** The finite values are idealised as real numbers: the rounding, overflow
    and absorption of binary64 arithmetic are not modelled, and the
    infinities and NaN arise only from a division by zero. *)
Inductive float64 : Type :=
| Fin (r : R)
| PInf
| NInf
| NaN.

(** [a / b] on Python numbers. *)
Definition truediv (x y : R) : result R :=
  if Req_dec_T y 0 then Raise ZeroDivisionError else Ok (x / y).

(** [math.sqrt]. *)
Definition math_sqrt (x : R) : result R :=
  if Rlt_dec x 0 then Raise ValueError else Ok (sqrt x).

(** [a / b] on numpy float64 scalars: a warning, never an exception. *)
Definition np_truediv (x y : R) : float64 :=
  if Req_dec_T y 0 then
    if Req_dec_T x 0 then NaN
    else if Rlt_dec 0 x then PInf else NInf
  else Fin (x / y).

(** [round(x)] of Python 3: to the nearest integer, ties to the even one. *)
Definition round_half_even (x : R) : Z :=
  let f := Zfloor x in
  if Rlt_dec (x - IZR f) (1 / 2) then f
  else if Rlt_dec (1 / 2) (x - IZR f) then (f + 1)%Z
  else if Z.even f then f else (f + 1)%Z.

(** [round(x, ndigits)]. *)
Definition round_ndigits (x : R) (ndigits : nat) : R :=
  IZR (round_half_even (x * 10 ^ ndigits)) / 10 ^ ndigits.

(** ** constants.py *)

Definition ELEC_DISTANCES : list Z :=
  map (fun x => (5 * Z.of_nat x)%Z) (seq 1 10).
Definition NUM_PEOPLE_PER_HH : R := 5.
Definition LHV_DIESEL : R := 99445485 / 10000000.
Definition HOURS_PER_YEAR : R := 8760.

Definition SPE_COUNTRY : string := "Country".
Definition GRID : string := "grid".
Definition MG_HYDRO : string := "mg_hydro".
Definition MG_PV_LOW : string := "mg_pv1750".
Definition MG_PV_HIGH : string := "mg_pv2250".
Definition MG_WIND_LOW : string := "mg_wind0.2".
Definition MG_WIND_MID : string := "mg_wind0.3".
Definition MG_WIND_HIGH : string := "mg_wind0.4".
Definition MG_DIESEL : string := "mg_diesel".
Definition SA_DIESEL : string := "sa_diesel".
Definition SA_PV_LOW : string := "sa_pv1750".
Definition SA_PV_HIGH : string := "sa_pv2250".

(** ** calc_lcoe *)

(** The keyword arguments of one call of [calc_lcoe]. *)
Record lcoe_args : Type := {
  people : Z;
  scenario : R;
  om_of_td_lines : R;
  distribution_losses : R;
  connection_cost_per_hh : R;
  base_to_peak_load_ratio : R;
  system_life : Z;
  mv_line_length : R;
  om_costs : R;
  capital_cost : R;
  capacity_factor : R;
  efficiency : R;
  diesel_price : R;
  additional_mv_line_length : R;
  grid_price : R;
  grid : bool;
  diesel : bool;
  standalone : bool
}.

(** The local constants of [calc_lcoe]. *)
Definition grid_cell_area : R := 100.
Definition mv_line_cost : R := 9000.
Definition lv_line_cost : R := 5000.
Definition discount_rate : R := 8 / 100.
Definition mv_line_capacity : R := 50.
Definition lv_line_capacity : R := 10.
Definition lv_line_max_length : R := 30.
Definition hv_line_cost : R := 53000.
Definition mv_line_max_length : R := 50.
Definition hv_lv_transformer_cost : R := 5000.
Definition mv_increase_rate : R := 1 / 10.

(** The local variables of lines 340-359 that the rest of the function
    reads.  [households] is the recurring expression
    [people / NUM_PEOPLE_PER_HH], with [people] already multiplied by
    [grid_cell_area]. *)
Record sizing : Type := {
  households : R;
  peak_load : R;
  no_mv_lines : Z;
  no_lv_lines : Z;
  actual_lv_lines : Z;
  total_lv_lines_length : R;
  total_length_of_lines : R;
  hv_lines_total_length : R;
  num_transformers : Z;
  generation_per_year : R
}.

(** Lines 326-359. *)
Definition calc_sizing (a : lcoe_args) : result sizing :=
  let people := IZR (people a * 100) in
  let consumption := people / NUM_PEOPLE_PER_HH * scenario a in
  let average_load :=
    consumption * (1 + distribution_losses a) / HOURS_PER_YEAR in
  peak_load <- truediv average_load (base_to_peak_load_ratio a) ;;
  let no_mv_lines := Zceil (peak_load / mv_line_capacity) in
  let no_lv_lines := Zceil (peak_load / lv_line_capacity) in
  lv_networks_lim_capacity <- truediv (IZR no_lv_lines) (IZR no_mv_lines) ;;
  area_per_mv <- truediv grid_cell_area (IZR no_mv_lines) ;;
  let lv_networks_lim_length :=
    (area_per_mv / (lv_line_max_length / sqrt 2)) ^ 2 in
  let actual_lv_lines :=
    Zceil (Rmin (people / NUM_PEOPLE_PER_HH)
                (Rmax lv_networks_lim_capacity lv_networks_lim_length)) in
  hh_per_lv_network <-
    truediv (people / NUM_PEOPLE_PER_HH)
            (IZR (actual_lv_lines * no_mv_lines)) ;;
  area_per_hh <- truediv grid_cell_area (people / NUM_PEOPLE_PER_HH) ;;
  root_area_per_hh <- math_sqrt area_per_hh ;;
  let lv_unit_length := root_area_per_hh * sqrt 2 / 2 in
  let lv_lines_length_per_lv_network :=
    1333 / 1000 * hh_per_lv_network * lv_unit_length in
  let total_lv_lines_length :=
    IZR (no_mv_lines * actual_lv_lines) * lv_lines_length_per_lv_network in
  area_per_mv' <- truediv grid_cell_area (IZR no_mv_lines) ;;
  area_per_lv <- truediv grid_cell_area (IZR no_lv_lines) ;;
  root_area_per_lv <- math_sqrt area_per_lv ;;
  line_reach <- truediv area_per_mv' (2 * root_area_per_lv) ;;
  let total_length_of_lines :=
    Rmin line_reach mv_line_max_length * IZR no_mv_lines in
  hv_ratio <-
    truediv (sqrt grid_cell_area) (2 * Rmin line_reach mv_line_max_length) ;;
  let additional_hv_lines :=
    Rmax 0 (round_ndigits (hv_ratio / 10) 3 - 1) in
  let hv_lines_total_length :=
    (sqrt grid_cell_area / 2) * additional_hv_lines * sqrt grid_cell_area in
  let num_transformers :=
    Zceil (additional_hv_lines + IZR no_mv_lines
           + IZR (no_mv_lines * actual_lv_lines)) in
  let generation_per_year := average_load * HOURS_PER_YEAR in
  Ok {| households := people / NUM_PEOPLE_PER_HH;
        peak_load := peak_load;
        no_mv_lines := no_mv_lines;
        no_lv_lines := no_lv_lines;
        actual_lv_lines := actual_lv_lines;
        total_lv_lines_length := total_lv_lines_length;
        total_length_of_lines := total_length_of_lines;
        hv_lines_total_length := hv_lines_total_length;
        num_transformers := num_transformers;
        generation_per_year := generation_per_year |}.

(** Lines 361-384: [(total_investment_cost, total_om_cost)]. *)
Definition calc_investment (a : lcoe_args) (s : sizing) : result (R * R) :=
  if grid a then
    let td_investment_cost :=
      hv_lines_total_length s * hv_line_cost
      + total_length_of_lines s * mv_line_cost
      + total_lv_lines_length s * lv_line_cost
      + IZR (num_transformers s) * hv_lv_transformer_cost
      + households s * connection_cost_per_hh a
      + additional_mv_line_length a
        * (mv_line_cost
           * Rpower (1 + mv_increase_rate)
                    (additional_mv_line_length a / 5 - 1)) in
    let td_om_cost := td_investment_cost * om_of_td_lines a in
    Ok (td_investment_cost, td_om_cost)
  else
    let total_lv_lines_length :=
      total_lv_lines_length s * (if standalone a then 0 else 75 / 100) in
    let mv_total_line_cost := mv_line_cost * mv_line_length a in
    let lv_total_line_cost := lv_line_cost * total_lv_lines_length in
    installed_capacity <- truediv (peak_load s) (capacity_factor a) ;;
    let capital_investment := installed_capacity * capital_cost a in
    let td_investment_cost :=
      mv_total_line_cost + lv_total_line_cost
      + households s * connection_cost_per_hh a in
    let td_om_cost := td_investment_cost * om_of_td_lines a in
    Ok (td_investment_cost + capital_investment,
        td_om_cost + capital_cost a * om_costs a * installed_capacity).

(** Lines 386-392. *)
Definition calc_fuel_cost (a : lcoe_args) : result R :=
  if diesel a then truediv (diesel_price a) (efficiency a)
  else if grid a then Ok (grid_price a)
  else Ok 0.

(** numpy arrays of floats, and the operations lines 394-408 use. *)
Definition ndarray : Type := list R.

Definition np_arange (n : Z) : list nat := seq 0 (Z.to_nat n).

Definition np_full (n : Z) (v : R) : result ndarray :=
  if (n <? 0)%Z then Raise ValueError else Ok (repeat v (Z.to_nat n)).

(** [arr[0] = v]. *)
Definition set_first (arr : ndarray) (v : R) : result ndarray :=
  match arr with
  | [] => Raise IndexError
  | _ :: tl => Ok (v :: tl)
  end.

Fixpoint np_zip (f : R -> R -> R) (xs ys : ndarray) : ndarray :=
  match xs, ys with
  | x :: xs', y :: ys' => f x y :: np_zip f xs' ys'
  | _, _ => []
  end.

Definition np_sum (xs : ndarray) : R := fold_right Rplus 0 xs.

(** Lines 394-408. *)
Definition calc_rollup (total_investment_cost total_om_cost fuel_cost
                        generation_per_year : R) (system_life : Z)
  : result float64 :=
  let year := np_arange (system_life + 1) in
  ones <- np_full (system_life + 1) 1 ;;
  el_gen <- set_first (map (Rmult generation_per_year) ones) 0 ;;
  let discount_factor := map (fun y => (1 + discount_rate) ^ y) year in
  zeros <- np_full (system_life + 1) 0 ;;
  it <- set_first zeros total_investment_cost ;;
  ones' <- np_full (system_life + 1) 1 ;;
  mt <- set_first (map (Rmult total_om_cost) ones') 0 ;;
  ft <- set_first (map (fun g => g * fuel_cost) el_gen) 0 ;;
  let discounted_costs :=
    np_zip Rdiv (np_zip Rplus (np_zip Rplus it mt) ft) discount_factor in
  let discounted_generation := np_zip Rdiv el_gen discount_factor in
  Ok (np_truediv (np_sum discounted_costs) (np_sum discounted_generation)).

Definition calc_lcoe (a : lcoe_args) : result float64 :=
  s <- calc_sizing a ;;
  costs <- calc_investment a s ;;
  fuel_cost <- calc_fuel_cost a ;;
  calc_rollup (fst costs) (snd costs) fuel_cost (generation_per_year s)
              (system_life a).

(** ** get_lcoes *)

(** One row of the specs file, restricted to the columns [make_tables]
    selects. *)
Record country_specs : Type := {
  spe_country : string;
  spe_grid_price : R;
  spe_grid_losses : R;
  spe_base_to_peak : R;
  spe_diesel_price_low : R
}.

(** The evaluator runs in the error monad extended with a log of the calls
    of [calc_lcoe] made so far, in call order. *)
Definition traced (A : Type) : Type :=
  list lcoe_args -> list lcoe_args * result A.

Definition tret {A : Type} (a : A) : traced A := fun log => (log, Ok a).

Definition tbind {A B : Type} (m : traced A) (k : A -> traced B)
  : traced B :=
  fun log =>
    match m log with
    | (log', Ok a) => k a log'
    | (log', Raise e) => (log', Raise e)
    end.

Notation "x <~ m ;; k" := (tbind m (fun x => k))
  (at level 61, m at next level, right associativity).

(** A call of [calc_lcoe] from the evaluator. *)
Definition call_calc_lcoe (a : lcoe_args) : traced float64 :=
  fun log => (log ++ [a], calc_lcoe a).

(** A list comprehension [[f x for x in l]]. *)
Fixpoint comprehension {A B : Type} (f : A -> traced B) (l : list A)
  : traced (list B) :=
  match l with
  | [] => tret []
  | x :: l' => y <~ f x ;; ys <~ comprehension f l' ;; tret (y :: ys)
  end.

Definition run {A : Type} (m : traced A) : result A := snd (m []).
Definition calls {A : Type} (m : traced A) : list lcoe_args := fst (m []).

(** The values of the dictionary [get_lcoes] returns. *)
Inductive lcoe_value : Type :=
| Seq (l : list float64)
| Scalar (x : float64).

Definition dict : Type := list (string * lcoe_value).

(** [d[k] = v]. *)
Fixpoint dict_set (d : dict) (k : string) (v : lcoe_value) : dict :=
  match d with
  | [] => [(k, v)]
  | (k', v') :: d' =>
      if String.eqb k' k then (k, v) :: d' else (k', v') :: dict_set d' k v
  end.

Fixpoint dict_get (d : dict) (k : string) : option lcoe_value :=
  match d with
  | [] => None
  | (k', v) :: d' => if String.eqb k' k then Some v else dict_get d' k
  end.

(** The grid call of [get_lcoes] for one distance. *)
Definition grid_call (people : Z) (scenario om_of_td_lines
                      transmission_losses base_to_peak_load_ratio
                      grid_price : R) (additional_mv_line_length : Z)
  : lcoe_args :=
  {| people := people;
     scenario := scenario;
     om_of_td_lines := om_of_td_lines;
     distribution_losses := transmission_losses;
     connection_cost_per_hh := 125;
     base_to_peak_load_ratio := base_to_peak_load_ratio;
     system_life := 30;
     mv_line_length := 0;
     om_costs := 0;
     capital_cost := 0;
     capacity_factor := 1;
     efficiency := 1;
     diesel_price := 0;
     additional_mv_line_length := IZR additional_mv_line_length;
     grid_price := grid_price;
     grid := true;
     diesel := false;
     standalone := false |}.

(** An off-grid call of [get_lcoes]: the keyword arguments that vary between
    the ten calls; [additional_mv_line_length] and [grid_price] keep their
    defaults and [grid] is [False]. *)
Definition tech_call (people : Z) (scenario om_of_td_lines capacity_factor
                      distribution_losses capital_cost om_costs
                      base_to_peak_load_ratio : R) (system_life : Z)
                     (mv_line_length efficiency diesel_price : R)
                     (diesel standalone : bool) : lcoe_args :=
  {| people := people;
     scenario := scenario;
     om_of_td_lines := om_of_td_lines;
     distribution_losses := distribution_losses;
     connection_cost_per_hh := 100;
     base_to_peak_load_ratio := base_to_peak_load_ratio;
     system_life := system_life;
     mv_line_length := mv_line_length;
     om_costs := om_costs;
     capital_cost := capital_cost;
     capacity_factor := capacity_factor;
     efficiency := efficiency;
     diesel_price := diesel_price;
     additional_mv_line_length := 0;
     grid_price := 0;
     grid := false;
     diesel := diesel;
     standalone := standalone |}.

Definition get_lcoes (country_specs : country_specs) (people : Z)
                     (scenario : R) (calc_cap_only : bool) : traced dict :=
  let transmission_losses := spe_grid_losses country_specs in
  let base_to_peak_load_ratio := spe_base_to_peak country_specs in
  let grid_price := spe_grid_price country_specs in
  let diesel_price := spe_diesel_price_low country_specs / LHV_DIESEL in
  let om_of_td_lines := 3 / 100 in
  let om_of_td_lines := if calc_cap_only then 0 else om_of_td_lines in
  let grid_price := if calc_cap_only then 0 else grid_price in
  let diesel_price := if calc_cap_only then 0 else diesel_price in
  let lcoes : dict := [] in
  grid_values <~
    comprehension
      (fun additional_mv_line_length =>
         call_calc_lcoe
           (grid_call people scenario om_of_td_lines transmission_losses
                      base_to_peak_load_ratio grid_price
                      additional_mv_line_length))
      ELEC_DISTANCES ;;
  let lcoes := dict_set lcoes GRID (Seq grid_values) in
  (* mg_hydro *)
  let om_costs := if calc_cap_only then 0 else 2 / 100 in
  v <~ call_calc_lcoe
         (tech_call people scenario om_of_td_lines (5 / 10) (5 / 100) 5000
                    om_costs 1 30 5 1 0 false false) ;;
  let lcoes := dict_set lcoes MG_HYDRO (Scalar v) in
  (* mg_pv1750 *)
  let irradiation := 1750 in
  let om_costs := if calc_cap_only then 0 else 2 / 100 in
  v <~ call_calc_lcoe
         (tech_call people scenario om_of_td_lines
                    (irradiation / HOURS_PER_YEAR) (5 / 100) 4300 om_costs
                    (9 / 10) 20 0 1 0 false false) ;;
  let lcoes := dict_set lcoes MG_PV_LOW (Scalar v) in
  (* mg_pv2250 *)
  let irradiation := 2250 in
  let om_costs := if calc_cap_only then 0 else 2 / 100 in
  v <~ call_calc_lcoe
         (tech_call people scenario om_of_td_lines
                    (irradiation / HOURS_PER_YEAR) (5 / 100) 4300 om_costs
                    (9 / 10) 20 0 1 0 false false) ;;
  let lcoes := dict_set lcoes MG_PV_HIGH (Scalar v) in
  (* mg_wind0.2 *)
  let om_costs := if calc_cap_only then 0 else 2 / 100 in
  v <~ call_calc_lcoe
         (tech_call people scenario om_of_td_lines (2 / 10) (5 / 100) 3000
                    om_costs (75 / 100) 20 0 1 0 false false) ;;
  let lcoes := dict_set lcoes MG_WIND_LOW (Scalar v) in
  (* mg_wind0.3 *)
  let om_costs := if calc_cap_only then 0 else 2 / 100 in
  v <~ call_calc_lcoe
         (tech_call people scenario om_of_td_lines (3 / 10) (5 / 100) 3000
                    om_costs (75 / 100) 20 0 1 0 false false) ;;
  let lcoes := dict_set lcoes MG_WIND_MID (Scalar v) in
  (* mg_wind0.4 *)
  let om_costs := if calc_cap_only then 0 else 2 / 100 in
  v <~ call_calc_lcoe
         (tech_call people scenario om_of_td_lines (4 / 10) (5 / 100) 3000
                    om_costs (75 / 100) 20 0 1 0 false false) ;;
  let lcoes := dict_set lcoes MG_WIND_HIGH (Scalar v) in
  (* mg_diesel *)
  let om_costs := if calc_cap_only then 0 else 1 / 10 in
  v <~ call_calc_lcoe
         (tech_call people scenario om_of_td_lines (7 / 10) (5 / 100) 721
                    om_costs (5 / 10) 15 0 (33 / 100) diesel_price
                    true false) ;;
  let lcoes := dict_set lcoes MG_DIESEL (Scalar v) in
  (* sa_diesel *)
  let om_costs := if calc_cap_only then 0 else 1 / 10 in
  v <~ call_calc_lcoe
         (tech_call people scenario 0 (7 / 10) 0 721 om_costs (5 / 10) 15 0
                    (33 / 100) diesel_price true true) ;;
  let lcoes := dict_set lcoes SA_DIESEL (Scalar v) in
  (* sa_pv1750 *)
  let irradiation := 1750 in
  let om_costs := if calc_cap_only then 0 else 2 / 100 in
  v <~ call_calc_lcoe
         (tech_call people scenario 0 (irradiation / HOURS_PER_YEAR) 0 4300
                    om_costs (9 / 10) 20 0 1 0 false true) ;;
  let lcoes := dict_set lcoes SA_PV_LOW (Scalar v) in
  (* sa_pv2250 *)
  let irradiation := 2250 in
  let om_costs := if calc_cap_only then 0 else 2 / 100 in
  v <~ call_calc_lcoe
         (tech_call people scenario 0 (irradiation / HOURS_PER_YEAR) 0 4300
                    om_costs (9 / 10) 20 0 1 0 false true) ;;
  let lcoes := dict_set lcoes SA_PV_HIGH (Scalar v) in
  tret lcoes.

(** ** make_tables *)

(** Arithmetic and comparison of floats, for the values read back from the
    panels. *)
Definition float_add (x y : float64) : float64 :=
  match x, y with
  | Fin a, Fin b => Fin (a + b)
  | NaN, _ | _, NaN => NaN
  | PInf, NInf | NInf, PInf => NaN
  | PInf, _ | _, PInf => PInf
  | NInf, _ | _, NInf => NInf
  end.

(** [x / 2]. *)
Definition float_half (x : float64) : float64 :=
  match x with
  | Fin a => Fin (a / 2)
  | other => other
  end.

(** [x < y]. *)
Definition float_lt (x y : float64) : bool :=
  match x, y with
  | Fin a, Fin b => if Rlt_dec a b then true else false
  | NaN, _ | _, NaN => false
  | NInf, NInf => false
  | NInf, _ => true
  | _, NInf => false
  | PInf, _ => false
  | Fin _, PInf => true
  end.

(** The builtin [min(x, y, ...)]: the first argument, replaced by each later
    one that compares strictly below the current minimum. *)
Definition py_min (x : float64) (rest : list float64) : float64 :=
  fold_left (fun m y => if float_lt y m then y else m) rest x.

(** A [pd.Panel] indexed by country (items), by a key of the major axis and
    by the number of people (minor axis); read as [p[country][people][k]]. *)
Definition panel (K : Type) : Type := string -> Z -> K -> float64.

(** [pd.Panel(np.zeros(...))]. *)
Definition panel_zeros {K : Type} : panel K := fun _ _ _ => Fin 0.

(** [p[country][people][k] = v]. *)
Definition panel_set {K : Type} (eqb : K -> K -> bool) (p : panel K)
                     (country : string) (people : Z) (k : K) (v : float64)
  : panel K :=
  fun country' people' k' =>
    if (String.eqb country' country && Z.eqb people' people && eqb k' k)%bool
    then v else p country' people' k'.

(** [p[country][people] = values]: the values fill the column along the
    major axis [keys], position by position. *)
Definition panel_set_column {K : Type} (eqb : K -> K -> bool) (p : panel K)
                            (country : string) (people : Z) (keys : list K)
                            (values : list float64) : result (panel K) :=
  if Nat.eqb (List.length keys) (List.length values) then
    Ok (fold_left (fun q kv => panel_set eqb q country people (fst kv) (snd kv))
                  (combine keys values) p)
  else Raise ValueError.

(** [lcoes[k]], used where a sequence is expected. *)
Definition dict_seq (d : dict) (k : string) : result (list float64) :=
  match dict_get d k with
  | Some (Seq l) => Ok l
  | Some (Scalar _) => Raise TypeError
  | None => Raise KeyError
  end.

(** [lcoes[k]], used where a number is expected. *)
Definition dict_scalar (d : dict) (k : string) : result float64 :=
  match dict_get d k with
  | Some (Scalar x) => Ok x
  | Some (Seq _) => Raise TypeError
  | None => Raise KeyError
  end.

Definition lift {A : Type} (m : result A) : traced A := fun log => (log, m).

(** [for x in l: s = body(s, x)]. *)
Fixpoint for_each {A S : Type} (l : list A) (body : S -> A -> traced S)
                  (s : S) : traced S :=
  match l with
  | [] => tret s
  | x :: l' => s' <~ body s x ;; for_each l' body s'
  end.

Definition people_arr : list Z :=
  map (fun x => (10 * Z.of_nat x)%Z) (seq 1 400).

Definition techs : list string :=
  [MG_HYDRO; MG_PV_LOW; MG_PV_HIGH; MG_WIND_LOW; MG_WIND_MID;
   MG_WIND_HIGH; MG_DIESEL; SA_DIESEL; SA_PV_LOW; SA_PV_HIGH].

(** The four panels of the main results. *)
Record panels : Type := {
  grid_lcoes : panel Z;
  grid_cap : panel Z;
  tech_lcoes : panel string;
  tech_cap : panel string
}.

(** [t[country][people][k] = lcoes[k]]. *)
Definition store_tech (lcoes : dict) (t : panel string) (country : string)
                      (people : Z) (k : string) : traced (panel string) :=
  v <~ lift (dict_scalar lcoes k) ;;
  tret (panel_set String.eqb t country people k v).

(** The body of the two nested loops of lines 49-79. *)
Definition fill_cell (scenario : R) (country_specs : country_specs)
                     (p : panels) (people : Z) : traced panels :=
  let country_name := spe_country country_specs in
  (* the full LCOE values *)
  lcoes <~ get_lcoes country_specs people scenario false ;;
  g <~ lift (dict_seq lcoes GRID) ;;
  gl <~ lift (panel_set_column Z.eqb (grid_lcoes p) country_name people
                               ELEC_DISTANCES g) ;;
  tl <~ store_tech lcoes (tech_lcoes p) country_name people MG_HYDRO ;;
  tl <~ store_tech lcoes tl country_name people MG_PV_LOW ;;
  tl <~ store_tech lcoes tl country_name people MG_PV_HIGH ;;
  tl <~ store_tech lcoes tl country_name people MG_WIND_LOW ;;
  tl <~ store_tech lcoes tl country_name people MG_WIND_MID ;;
  tl <~ store_tech lcoes tl country_name people MG_WIND_HIGH ;;
  tl <~ store_tech lcoes tl country_name people MG_DIESEL ;;
  tl <~ store_tech lcoes tl country_name people SA_DIESEL ;;
  tl <~ store_tech lcoes tl country_name people SA_PV_LOW ;;
  tl <~ store_tech lcoes tl country_name people SA_PV_HIGH ;;
  (* the capital costs only *)
  lcoes <~ get_lcoes country_specs people scenario true ;;
  g <~ lift (dict_seq lcoes GRID) ;;
  gc <~ lift (panel_set_column Z.eqb (grid_cap p) country_name people
                               ELEC_DISTANCES g) ;;
  tc <~ store_tech lcoes (tech_cap p) country_name people MG_HYDRO ;;
  tc <~ store_tech lcoes tc country_name people MG_PV_LOW ;;
  tc <~ store_tech lcoes tc country_name people MG_PV_HIGH ;;
  tc <~ store_tech lcoes tc country_name people MG_WIND_LOW ;;
  tc <~ store_tech lcoes tc country_name people MG_WIND_MID ;;
  tc <~ store_tech lcoes tc country_name people MG_WIND_HIGH ;;
  tc <~ store_tech lcoes tc country_name people MG_DIESEL ;;
  tc <~ store_tech lcoes tc country_name people SA_DIESEL ;;
  tc <~ store_tech lcoes tc country_name people SA_PV_LOW ;;
  tc <~ store_tech lcoes tc country_name people SA_PV_HIGH ;;
  tret {| grid_lcoes := gl; grid_cap := gc;
          tech_lcoes := tl; tech_cap := tc |}.

(** Lines 39-79. *)
Definition fill_panels (scenario : R) (specs : list country_specs)
  : traced panels :=
  for_each specs
    (fun p country_specs =>
       for_each people_arr (fill_cell scenario country_specs) p)
    {| grid_lcoes := panel_zeros; grid_cap := panel_zeros;
       tech_lcoes := panel_zeros; tech_cap := panel_zeros |}.

(** The data frame [num_people_for_grid], read as
    [df[country][additional_mv_line_length]]. *)
Definition dataframe : Type := string -> Z -> R.

(** The very high default value of line 91. *)
Definition sentinel : R := 1000000000.

Definition df_set (df : dataframe) (country : string) (d : Z) (v : R)
  : dataframe :=
  fun country' d' =>
    if (String.eqb country' country && Z.eqb d' d)%bool then v
    else df country' d'.

(** Lines 99-103. *)
Definition min_lcoe_techs (tech_lcoes : panel string) (country : string)
                          (people : Z) : float64 :=
  let lcoes := tech_lcoes country people in
  py_min (lcoes MG_DIESEL)
         [lcoes MG_WIND_MID;
          float_half (float_add (lcoes SA_PV_LOW) (lcoes SA_PV_HIGH));
          lcoes MG_HYDRO].

(** The innermost loop of lines 98-107, with its [break]. *)
Fixpoint scan_people (p : panels) (country : string)
                     (additional_mv_line_length : Z) (people_arr : list Z)
                     (df : dataframe) : dataframe :=
  match people_arr with
  | [] => df
  | people :: rest =>
      if float_lt (grid_lcoes p country people additional_mv_line_length)
                  (min_lcoe_techs (tech_lcoes p) country people)
      then df_set df country additional_mv_line_length (IZR people)
      else scan_people p country additional_mv_line_length rest df
  end.

(** Lines 91-107. *)
Definition resolve_grid (p : panels) (countries : list string) : dataframe :=
  fold_left
    (fun df country =>
       fold_left
         (fun df additional_mv_line_length =>
            scan_people p country additional_mv_line_length people_arr df)
         ELEC_DISTANCES df)
    countries (fun _ _ => sentinel).

Definition make_tables (scenario : R) (specs : list country_specs)
  : traced (panels * dataframe) :=
  p <~ fill_panels scenario specs ;;
  tret (p, resolve_grid p (map spe_country specs)).

(** ** The specification's wording of the cash-flow roll-up

    Year 0 bears the full investment cost and no generation, O&M or fuel;
    every later year bears the same generation, the same O&M cost and a fuel
    cost proportional to the generation.  Each year is divided by
    [(1 + discount_rate) ^ year], and the result is the ratio of the two
    sums over the [system_life + 1] years. *)

Definition dcf_cost (investment om fuel_price generation : R) (year : nat)
  : R :=
  match year with
  | O => investment
  | S _ => om + fuel_price * generation
  end.

Definition dcf_generation (generation : R) (year : nat) : R :=
  match year with
  | O => 0
  | S _ => generation
  end.

Definition dcf_ratio (investment om fuel_price generation : R)
                     (system_life : Z) : R :=
  sum_f_R0 (fun y => dcf_cost investment om fuel_price generation y
                     / (1 + 8 / 100) ^ y) (Z.to_nat system_life)
  / sum_f_R0 (fun y => dcf_generation generation y / (1 + 8 / 100) ^ y)
             (Z.to_nat system_life).

(** ** The specification's wording of the evaluator

    One table of constant records keyed by technology identifier, and one
    full-cost computation whose O&M and price inputs the caller supplies;
    capital-only mode supplies zeros. *)

Record tech_constants : Type := {
  tc_capacity_factor : R;
  tc_distribution_losses : R;
  tc_capital_cost : R;
  tc_om_ratio : R;
  tc_base_to_peak : R;
  tc_system_life : Z;
  tc_mv_line_length : R;
  tc_efficiency : R;
  tc_diesel : bool;
  tc_standalone : bool
}.

Definition tech_table : list (string * tech_constants) :=
  [ (MG_HYDRO, Build_tech_constants (5 / 10) (5 / 100) 5000 (2 / 100) 1 30 5
                                    1 false false);
    (MG_PV_LOW, Build_tech_constants (1750 / HOURS_PER_YEAR) (5 / 100) 4300
                                     (2 / 100) (9 / 10) 20 0 1 false false);
    (MG_PV_HIGH, Build_tech_constants (2250 / HOURS_PER_YEAR) (5 / 100) 4300
                                      (2 / 100) (9 / 10) 20 0 1 false false);
    (MG_WIND_LOW, Build_tech_constants (2 / 10) (5 / 100) 3000 (2 / 100)
                                       (75 / 100) 20 0 1 false false);
    (MG_WIND_MID, Build_tech_constants (3 / 10) (5 / 100) 3000 (2 / 100)
                                       (75 / 100) 20 0 1 false false);
    (MG_WIND_HIGH, Build_tech_constants (4 / 10) (5 / 100) 3000 (2 / 100)
                                        (75 / 100) 20 0 1 false false);
    (MG_DIESEL, Build_tech_constants (7 / 10) (5 / 100) 721 (1 / 10) (5 / 10)
                                     15 0 (33 / 100) true false);
    (SA_DIESEL, Build_tech_constants (7 / 10) 0 721 (1 / 10) (5 / 10) 15 0
                                     (33 / 100) true true);
    (SA_PV_LOW, Build_tech_constants (1750 / HOURS_PER_YEAR) 0 4300 (2 / 100)
                                     (9 / 10) 20 0 1 false true);
    (SA_PV_HIGH, Build_tech_constants (2250 / HOURS_PER_YEAR) 0 4300
                                      (2 / 100) (9 / 10) 20 0 1 false true) ].

(** The O&M and price inputs of the full-cost computation. *)
Record cost_inputs : Type := {
  ci_om_of_td_lines : R;
  ci_tech_om_ratio : tech_constants -> R;
  ci_grid_price : R;
  ci_diesel_price : R
}.

Definition full_cost_inputs (country_specs : country_specs) : cost_inputs :=
  {| ci_om_of_td_lines := 3 / 100;
     ci_tech_om_ratio := tc_om_ratio;
     ci_grid_price := spe_grid_price country_specs;
     ci_diesel_price := spe_diesel_price_low country_specs / LHV_DIESEL |}.

Definition zeroed_cost_inputs : cost_inputs :=
  {| ci_om_of_td_lines := 0;
     ci_tech_om_ratio := fun _ => 0;
     ci_grid_price := 0;
     ci_diesel_price := 0 |}.

Definition portfolio_tech_call (ci : cost_inputs) (people : Z) (scenario : R)
                               (c : tech_constants) : lcoe_args :=
  tech_call people scenario
            (if tc_standalone c then 0 else ci_om_of_td_lines ci)
            (tc_capacity_factor c) (tc_distribution_losses c)
            (tc_capital_cost c) (ci_tech_om_ratio ci c) (tc_base_to_peak c)
            (tc_system_life c) (tc_mv_line_length c) (tc_efficiency c)
            (if tc_diesel c then ci_diesel_price ci else 0)
            (tc_diesel c) (tc_standalone c).

Definition portfolio (ci : cost_inputs) (country_specs : country_specs)
                     (people : Z) (scenario : R) : traced dict :=
  grid_values <~
    comprehension
      (fun d =>
         call_calc_lcoe
           (grid_call people scenario (ci_om_of_td_lines ci)
                      (spe_grid_losses country_specs)
                      (spe_base_to_peak country_specs) (ci_grid_price ci) d))
      ELEC_DISTANCES ;;
  tech_values <~
    comprehension
      (fun kc =>
         v <~ call_calc_lcoe
                (portfolio_tech_call ci people scenario (snd kc)) ;;
         tret (fst kc, Scalar v))
      tech_table ;;
  tret ((GRID, Seq grid_values) :: tech_values).

(** ** Definitions used by the statements and proofs *)

(** The arguments that decide the load: with these ranges the sizing of
    lines 326-359 divides by nothing that is zero and takes no square root
    of a negative number. *)
Definition valid_load (a : lcoe_args) : Prop :=
  (0 < people a)%Z /\ 0 < scenario a /\ -1 < distribution_losses a
  /\ 0 < base_to_peak_load_ratio a.

(** What the proofs use of a sizing computed from a valid load. *)
Record sizing_ok (a : lcoe_args) (s : sizing) : Prop := {
  so_households : households s = IZR (people a * 100) / NUM_PEOPLE_PER_HH;
  so_generation :
    generation_per_year s
    = households s * scenario a * (1 + distribution_losses a);
  so_peak :
    peak_load s
    = generation_per_year s / HOURS_PER_YEAR / base_to_peak_load_ratio a;
  so_households_pos : 0 < households s;
  so_generation_pos : 0 < generation_per_year s;
  so_peak_pos : 0 < peak_load s;
  so_lv_length_pos : 0 < total_lv_lines_length s;
  so_mv_length_pos : 0 <= total_length_of_lines s;
  so_hv_length_pos : 0 <= hv_lines_total_length s;
  so_transformers_pos : (0 <= num_transformers s)%Z
}.

(** The sum of the inverse discount factors of the [m] years from year
    [k]. *)
Definition annuity_from (k m : nat) : R :=
  np_sum (map (fun y => / (1 + discount_rate) ^ y) (seq k m)).

(** The same sum over the years [1..m] of the system life. *)
Definition annuity (m : nat) : R := annuity_from 1 m.

(** [td_investment_cost] in the two branches of lines 362-384, on the path
    without exception. *)
Definition td_investment_of (a : lcoe_args) (s : sizing) : R :=
  if grid a then
    hv_lines_total_length s * hv_line_cost
    + total_length_of_lines s * mv_line_cost
    + total_lv_lines_length s * lv_line_cost
    + IZR (num_transformers s) * hv_lv_transformer_cost
    + households s * connection_cost_per_hh a
    + additional_mv_line_length a
      * (mv_line_cost
         * Rpower (1 + mv_increase_rate)
                  (additional_mv_line_length a / 5 - 1))
  else
    mv_line_cost * mv_line_length a
    + lv_line_cost
      * (total_lv_lines_length s * (if standalone a then 0 else 75 / 100))
    + households s * connection_cost_per_hh a.

(** [total_investment_cost]. *)
Definition investment_of (a : lcoe_args) (s : sizing) : R :=
  if grid a then td_investment_of a s
  else td_investment_of a s
       + peak_load s / capacity_factor a * capital_cost a.

(** [total_om_cost]. *)
Definition om_of (a : lcoe_args) (s : sizing) : R :=
  if grid a then td_investment_of a s * om_of_td_lines a
  else td_investment_of a s * om_of_td_lines a
       + capital_cost a * om_costs a * (peak_load s / capacity_factor a).

(** [fuel_cost]. *)
Definition fuel_of (a : lcoe_args) : R :=
  if diesel a then diesel_price a / efficiency a
  else if grid a then grid_price a
  else 0.

(** The arguments with which a call raises nothing and divides by a
    positive discounted generation. *)
Definition valid_args (a : lcoe_args) : Prop :=
  valid_load a
  /\ (grid a = false -> capacity_factor a <> 0)
  /\ (diesel a = true -> efficiency a <> 0)
  /\ (1 <= system_life a)%Z.

(** The number a call returns, when it returns one. *)
Definition lcoe_val (a : lcoe_args) : R :=
  match calc_lcoe a with
  | Ok (Fin v) => v
  | _ => 0
  end.

(** The ranges of the constants of a technology record. *)
Definition good_constants (c : tech_constants) : Prop :=
  0 < tc_capacity_factor c <= 1
  /\ 0 <= tc_distribution_losses c < 1
  /\ 0 <= tc_capital_cost c
  /\ 0 <= tc_om_ratio c
  /\ 0 < tc_base_to_peak c <= 1
  /\ (1 <= tc_system_life c)%Z
  /\ 0 <= tc_mv_line_length c
  /\ 0 < tc_efficiency c.

(** The calls the evaluator makes when no call raises. *)
Definition portfolio_calls (ci : cost_inputs) (cs : country_specs) (p : Z)
                           (s : R) : list lcoe_args :=
  map (grid_call p s (ci_om_of_td_lines ci) (spe_grid_losses cs)
                 (spe_base_to_peak cs) (ci_grid_price ci)) ELEC_DISTANCES
  ++ map (fun kc => portfolio_tech_call ci p s (snd kc)) tech_table.

(** The dictionary of the evaluator when no call raises. *)
Definition portfolio_dict (ci : cost_inputs) (cs : country_specs) (p : Z)
                          (s : R) : dict :=
  (GRID,
   Seq (map (fun d =>
               Fin (lcoe_val
                      (grid_call p s (ci_om_of_td_lines ci)
                                 (spe_grid_losses cs) (spe_base_to_peak cs)
                                 (ci_grid_price ci) d)))
            ELEC_DISTANCES))
  :: map (fun kc =>
            (fst kc,
             Scalar (Fin (lcoe_val (portfolio_tech_call ci p s (snd kc))))))
         tech_table.

(** A country row, a number of people and a scenario for which every call
    of the evaluator has a valid load. *)
Definition valid_cell (cs : country_specs) (p : Z) (s : R) : Prop :=
  (0 < p)%Z /\ 0 < s /\ -1 < spe_grid_losses cs /\ 0 < spe_base_to_peak cs.

(** The incremental cost of line 368-369 for the additional distance [d]. *)
Definition extension_cost (d : R) : R :=
  d * (mv_line_cost * Rpower (1 + mv_increase_rate) (d / 5 - 1)).

(** The call of the stand-alone diesel technology for 10 people and a
    scenario of 1000 kWh per household and year, with the given efficiency
    and diesel price per kWh. *)
Definition sa_diesel_call (efficiency diesel_price : R) : lcoe_args :=
  tech_call 10 1000 0 (7 / 10) 0 721 (1 / 10) (5 / 10) 15 0 efficiency
            diesel_price true true.

(** A mini-grid wind call for 10 people with the given capacity factor. *)
Definition mg_wind_call (capacity_factor : R) : lcoe_args :=
  tech_call 10 1000 (3 / 100) capacity_factor (5 / 100) 3000 (2 / 100)
            (75 / 100) 20 0 1 0 false false.

(** A sizing record with round numbers, to instantiate statements that hold
    for every sizing. *)
Definition sample_sizing : sizing :=
  {| households := 200; peak_load := 50; no_mv_lines := 1; no_lv_lines := 5;
     actual_lv_lines := 5; total_lv_lines_length := 100;
     total_length_of_lines := 10; hv_lines_total_length := 0;
     num_transformers := 6; generation_per_year := 200000 |}.

(** The stand-alone PV call (irradiation 1750) for 10 people. *)
Definition sa_pv_call : lcoe_args :=
  tech_call 10 1000 0 (1750 / HOURS_PER_YEAR) 0 4300 (2 / 100) (9 / 10) 20 0
            1 0 false true.

(** The O&M and price inputs of the two modes of [get_lcoes]. *)
Definition mode_inputs (cs : country_specs) (calc_cap_only : bool)
  : cost_inputs :=
  if calc_cap_only then zeroed_cost_inputs else full_cost_inputs cs.

(** The country of the concrete fixture of the specification. *)
Definition fixture_country : country_specs :=
  {| spe_country := "Fixture";
     spe_grid_price := 15 / 100;
     spe_grid_losses := 8 / 100;
     spe_base_to_peak := 8 / 10;
     spe_diesel_price_low := 1 |}.

(** A country whose diesel price is negative; the other fields are those of
    the fixture. *)
Definition negative_diesel_country : country_specs :=
  {| spe_country := "NegativeDiesel";
     spe_grid_price := 15 / 100;
     spe_grid_losses := 8 / 100;
     spe_base_to_peak := 8 / 10;
     spe_diesel_price_low := -10 |}.

(** The constants of the stand-alone diesel technology. *)
Definition sa_diesel_constants : tech_constants :=
  Build_tech_constants (7 / 10) 0 721 (1 / 10) (5 / 10) 15 0 (33 / 100)
                       true true.

(** The test of line 105. *)
Definition viable (p : panels) (country : string) (d people : Z) : bool :=
  float_lt (grid_lcoes p country people d)
           (min_lcoe_techs (tech_lcoes p) country people).

(** The value of the cell [(country, d)] after its scan, from its value
    before. *)
Definition cell_after (p : panels) (country : string) (d : Z) (old : R)
  : R :=
  match find (viable p country d) people_arr with
  | Some people => IZR people
  | None => old
  end.

(** Panels in which the grid is never strictly cheaper: every entry is 0. *)
Definition zero_panels : panels :=
  {| grid_lcoes := panel_zeros; grid_cap := panel_zeros;
     tech_lcoes := panel_zeros; tech_cap := panel_zeros |}.

(** ** Definitions used by the further properties *)

(** A mini-grid wind call for 10 people with the given system life. *)
Definition mg_wind_life_call (system_life : Z) : lcoe_args :=
  tech_call 10 1000 (3 / 100) (3 / 10) (5 / 100) 3000 (2 / 100) (75 / 100)
            system_life 0 1 0 false false.

(** [line_reach] of line 353, from the line counts of a sizing. *)
Definition line_reach_of (s : sizing) : R :=
  grid_cell_area / IZR (no_mv_lines s)
  / (2 * sqrt (grid_cell_area / IZR (no_lv_lines s))).

(** [additional_hv_lines] of lines 355-356, from the line counts of a
    sizing. *)
Definition additional_hv_lines_of (s : sizing) : R :=
  Rmax 0 (round_ndigits
            (sqrt grid_cell_area
             / (2 * Rmin (line_reach_of s) mv_line_max_length) / 10) 3
          - 1).

(** How the fields of a sizing computed from a valid load are related. *)
Record sizing_detail (a : lcoe_args) (s : sizing) : Prop := {
  sd_households : households s = IZR (people a * 100) / NUM_PEOPLE_PER_HH;
  sd_households_pos : 0 < households s;
  sd_peak_pos : 0 < peak_load s;
  sd_mv : no_mv_lines s = Zceil (peak_load s / mv_line_capacity);
  sd_lv : no_lv_lines s = Zceil (peak_load s / lv_line_capacity);
  sd_mv_lv : (1 <= no_mv_lines s <= no_lv_lines s)%Z;
  sd_actual : (1 <= actual_lv_lines s <= Zceil (households s))%Z;
  sd_lv_length :
    total_lv_lines_length s
    = 1333 / 1000 * households s
      * (sqrt (grid_cell_area / households s) * sqrt 2 / 2);
  sd_reach_pos : 0 < line_reach_of s;
  sd_mv_length :
    total_length_of_lines s
    = Rmin (line_reach_of s) mv_line_max_length * IZR (no_mv_lines s);
  sd_hv_length :
    hv_lines_total_length s
    = sqrt grid_cell_area / 2 * additional_hv_lines_of s
      * sqrt grid_cell_area;
  sd_transformers :
    num_transformers s
    = Zceil (additional_hv_lines_of s + IZR (no_mv_lines s)
             + IZR (no_mv_lines s * actual_lv_lines s))
}.

(** The capital recovery factor at the discount rate of 8% over [n] years:
    the annual payment that repays one unit of investment. *)
Definition capital_recovery_factor (n : nat) : R :=
  (8 / 100) / (1 - / (1 + 8 / 100) ^ n).

(** A call that returns a value. *)
Definition returns (a : lcoe_args) : Prop := exists v, calc_lcoe a = Ok v.

(** The value [get_lcoes] computes for the grid at one distance. *)
Definition grid_value (cs : country_specs) (s : R) (cap : bool)
                      (people d : Z) : float64 :=
  Fin (lcoe_val
         (grid_call people s (ci_om_of_td_lines (mode_inputs cs cap))
                    (spe_grid_losses cs) (spe_base_to_peak cs)
                    (ci_grid_price (mode_inputs cs cap)) d)).

(** The value [get_lcoes] computes for one off-grid technology. *)
Definition tech_value (cs : country_specs) (s : R) (cap : bool)
                      (people : Z) (t : string) : float64 :=
  match dict_get (portfolio_dict (mode_inputs cs cap) cs people s) t with
  | Some (Scalar v) => v
  | _ => Fin 0
  end.

(** [P'] is [P] with the cells of one country written, in the four panels,
    for the numbers of people that [written] selects. *)
Definition cells_written (P P' : panels) (cs : country_specs) (s : R)
                         (written : Z -> bool) : Prop :=
  forall (c : string) (p : Z),
    (forall d,
       grid_lcoes P' c p d
       = if (String.eqb c (spe_country cs) && written p
             && existsb (Z.eqb d) ELEC_DISTANCES)%bool
         then grid_value cs s false p d else grid_lcoes P c p d)
    /\ (forall d,
          grid_cap P' c p d
          = if (String.eqb c (spe_country cs) && written p
                && existsb (Z.eqb d) ELEC_DISTANCES)%bool
            then grid_value cs s true p d else grid_cap P c p d)
    /\ (forall t,
          tech_lcoes P' c p t
          = if (String.eqb c (spe_country cs) && written p
                && existsb (String.eqb t) techs)%bool
            then tech_value cs s false p t else tech_lcoes P c p t)
    /\ (forall t,
          tech_cap P' c p t
          = if (String.eqb c (spe_country cs) && written p
                && existsb (String.eqb t) techs)%bool
            then tech_value cs s true p t else tech_cap P c p t).

(** The calls of the two modes for one country and one number of people. *)
Definition cell_calls (cs : country_specs) (s : R) (people : Z)
  : list lcoe_args :=
  portfolio_calls (mode_inputs cs false) cs people s
  ++ portfolio_calls (mode_inputs cs true) cs people s.

(** A country row whose grid losses and base-to-peak ratio let every call
    return. *)
Definition valid_country (cs : country_specs) : Prop :=
  -1 < spe_grid_losses cs /\ 0 < spe_base_to_peak cs.

(** The cells of country [c] are the same in [P] and [P']. *)
Definition country_untouched (P P' : panels) (c : string) : Prop :=
  forall p,
    (forall d, grid_lcoes P' c p d = grid_lcoes P c p d)
    /\ (forall d, grid_cap P' c p d = grid_cap P c p d)
    /\ (forall t, tech_lcoes P' c p t = tech_lcoes P c p t)
    /\ (forall t, tech_cap P' c p t = tech_cap P c p t).

(** The calls of the sweep over the countries [specs]. *)
Definition sweep_calls (s : R) (specs : list country_specs)
  : list lcoe_args :=
  flat_map (fun cs => flat_map (cell_calls cs s) people_arr) specs.

(** The cells of the country [cs] in [P'] are those of [P] with the sampled
    numbers of people written. *)
Definition country_written (P P' : panels) (cs : country_specs) (s : R)
  : Prop :=
  forall p,
    (forall d,
       grid_lcoes P' (spe_country cs) p d
       = if (existsb (Z.eqb p) people_arr
             && existsb (Z.eqb d) ELEC_DISTANCES)%bool
         then grid_value cs s false p d
         else grid_lcoes P (spe_country cs) p d)
    /\ (forall d,
          grid_cap P' (spe_country cs) p d
          = if (existsb (Z.eqb p) people_arr
                && existsb (Z.eqb d) ELEC_DISTANCES)%bool
            then grid_value cs s true p d
            else grid_cap P (spe_country cs) p d)
    /\ (forall t,
          tech_lcoes P' (spe_country cs) p t
          = if (existsb (Z.eqb p) people_arr
                && existsb (String.eqb t) techs)%bool
            then tech_value cs s false p t
            else tech_lcoes P (spe_country cs) p t)
    /\ (forall t,
          tech_cap P' (spe_country cs) p t
          = if (existsb (Z.eqb p) people_arr
                && existsb (String.eqb t) techs)%bool
            then tech_value cs s true p t
            else tech_cap P (spe_country cs) p t).

(** Panels in which the grid becomes viable within the sampled range: the
    grid LCOE is the distance, and every technology costs a tenth of the
    number of people, so that the grid at distance [d] is strictly below the
    minimum from [10 * d + 10] people on. *)
Definition threshold_panels : panels :=
  {| grid_lcoes := fun _ _ d => Fin (IZR d);
     grid_cap := panel_zeros;
     tech_lcoes := fun _ people _ => Fin (IZR people / 10);
     tech_cap := panel_zeros |}.

(** The same panels, except for the capital-cost panels and the five
    technologies the resolver does not read, which cost nothing here. *)
Definition threshold_panels_other : panels :=
  {| grid_lcoes := fun _ _ d => Fin (IZR d);
     grid_cap := fun _ _ _ => Fin 1;
     tech_lcoes :=
       fun _ people t =>
         if existsb (String.eqb t)
                    [MG_DIESEL; MG_WIND_MID; SA_PV_LOW; SA_PV_HIGH; MG_HYDRO]
         then Fin (IZR people / 10) else Fin 0;
     tech_cap := fun _ _ _ => Fin 1 |}.

(** The ranges of the constants of the ten off-grid technologies. *)
Definition bounded_constants (c : tech_constants) : Prop :=
  19 / 100 <= tc_capacity_factor c <= 1
  /\ 0 <= tc_distribution_losses c <= 5 / 100
  /\ 0 <= tc_capital_cost c <= 5000
  /\ 0 <= tc_om_ratio c <= 1 / 10
  /\ 1 / 2 <= tc_base_to_peak c <= 1
  /\ (1 <= tc_system_life c <= 30)%Z
  /\ 0 <= tc_mv_line_length c <= 5
  /\ 33 / 100 <= tc_efficiency c.

(** A cell within the ranges: a sampled number of people, a scenario
    between 1 and 100000 kWh per household and year, a base-to-peak ratio in
    [0.01, 1], grid losses in [0, 1) and prices in [0, 1000]. *)
Definition bounded_cell (cs : country_specs) (p : Z) (s : R) : Prop :=
  In p people_arr /\ 1 <= s <= 100000
  /\ 1 / 100 <= spe_base_to_peak cs <= 1
  /\ 0 <= spe_grid_losses cs < 1
  /\ 0 <= spe_grid_price cs <= 1000
  /\ 0 <= spe_diesel_price_low cs <= 1000.

(** The margin between the grid values of two distances. *)
Definition grid_margin : R := 1 / 5000000.

(** The margin between a mini-grid and the stand-alone system with the same
    generator. *)
Definition standalone_margin : R := 1 / 200000.

(** ** The output paths of constants.py

    [os.path.join] is the POSIX one.  The argument of the path functions is
    the text [str(x)] of the scenario, which is also what
    ['{}'.format(x)] inserts for a number or a string. *)

Local Open Scope string_scope.

(** [b.startswith(sep)]. *)
Definition starts_with_sep (s : string) : bool :=
  match s with
  | String c _ => Ascii.eqb c "/"
  | EmptyString => false
  end.

(** [path.endswith(sep)]. *)
Fixpoint ends_with_sep (s : string) : bool :=
  match s with
  | EmptyString => false
  | String c EmptyString => Ascii.eqb c "/"
  | String _ s' => ends_with_sep s'
  end.

(** One step of [os.path.join]: a component that starts with the separator
    restarts the path. *)
Definition path_join (path b : string) : string :=
  if starts_with_sep b then b
  else if (String.eqb path "" || ends_with_sep path)%bool then path ++ b
  else path ++ "/" ++ b.

(** [os.path.join(a, *p)]. *)
Definition os_path_join (a : string) (p : list string) : string :=
  fold_left path_join p a.

(** Lines 4-12 of constants.py. *)
Definition FF_TABLES : string := "db".
Definition FF_LCOES : string := os_path_join FF_TABLES ["lcoes"].
Definition FF_SPECS : string := os_path_join FF_TABLES ["specs.xlsx"].
Definition FF_SETTLEMENTS : string :=
  os_path_join FF_TABLES ["settlements.csv"].
Definition FF_GRID_LCOES (x : string) : string :=
  os_path_join FF_LCOES [x; "grid_lcoes_" ++ x ++ ".csv"].
Definition FF_GRID_CAP (x : string) : string :=
  os_path_join FF_LCOES [x; "grid_cap_" ++ x ++ ".csv"].
Definition FF_TECH_LCOES (x : string) : string :=
  os_path_join FF_LCOES [x; "tech_lcoes_" ++ x ++ ".csv"].
Definition FF_TECH_CAP (x : string) : string :=
  os_path_join FF_LCOES [x; "tech_cap_" ++ x ++ ".csv"].
Definition FF_NUM_PEOPLE (x : string) : string :=
  os_path_join FF_LCOES [x; "num_people_" ++ x ++ ".csv"].

(** Line 25 of make_tables. *)
Definition output_dir (scenario : string) : string :=
  os_path_join FF_LCOES [scenario].

(** A scenario text that is not empty and neither starts nor ends with the
    separator, as the text of a number is. *)
Definition plain (x : string) : Prop :=
  x <> "" /\ starts_with_sep x = false /\ ends_with_sep x = false.

Local Close Scope string_scope.

(** ** Basic facts about the primitive operations *)

Lemma truediv_ok (x y : R) : y <> 0 -> truediv x y = Ok (x / y).
Proof.
  intros Hy. unfold truediv. destruct (Req_dec_T y 0); [contradiction | reflexivity].
Qed.

Lemma truediv_zero (x : R) : truediv x 0 = Raise ZeroDivisionError.
Proof.
  unfold truediv. destruct (Req_dec_T 0 0) as [_ | H]; [reflexivity | now elim H].
Qed.

Lemma math_sqrt_ok (x : R) : 0 <= x -> math_sqrt x = Ok (sqrt x).
Proof.
  intros Hx. unfold math_sqrt. destruct (Rlt_dec x 0); [lra | reflexivity].
Qed.

Lemma np_truediv_fin (x y : R) : y <> 0 -> np_truediv x y = Fin (x / y).
Proof.
  intros Hy. unfold np_truediv.
  destruct (Req_dec_T y 0); [contradiction | reflexivity].
Qed.

Lemma Zceil_pos (x : R) : 0 < x -> (1 <= Zceil x)%Z.
Proof.
  intros Hx. destruct (Zceil_bound x) as [_ Hub].
  assert (0 < IZR (Zceil x)) by lra.
  apply lt_IZR in H. lia.
Qed.

Lemma IZR_ge_1 (z : Z) : (1 <= z)%Z -> 1 <= IZR z.
Proof. intros H. now apply IZR_le in H. Qed.

(** ** The sizing of lines 326-359 raises nothing on a valid load *)

Lemma bind_ok {A B : Type} (a : A) (k : A -> result B) : bind (Ok a) k = k a.
Proof. reflexivity. Qed.

Ltac ok_truediv :=
  match goal with
  | |- context [truediv ?x ?y] =>
      rewrite (truediv_ok x y); [rewrite bind_ok; cbv beta | ]
  end.

Ltac ok_sqrt :=
  match goal with
  | |- context [math_sqrt ?x] =>
      rewrite (math_sqrt_ok x); [rewrite bind_ok; cbv beta | ]
  end.

Lemma calc_sizing_ok (a : lcoe_args) :
  valid_load a -> exists s, calc_sizing a = Ok s /\ sizing_ok a s.
Proof.
  intros (Hp & Hs & Hd & Hb).
  assert (Hppl : 0 < IZR (people a * 100)).
  { apply IZR_lt. lia. }
  unfold calc_sizing. cbv zeta.
  set (ppl := IZR (people a * 100)) in *.
  set (hh := ppl / NUM_PEOPLE_PER_HH).
  assert (Hhh : 0 < hh).
  { unfold hh, NUM_PEOPLE_PER_HH. lra. }
  set (avg := hh * scenario a * (1 + distribution_losses a) / HOURS_PER_YEAR).
  assert (Havg : 0 < avg).
  { unfold avg, HOURS_PER_YEAR. apply Rdiv_lt_0_compat; [ | lra].
    apply Rmult_lt_0_compat; [ | lra]. apply Rmult_lt_0_compat; assumption. }
  ok_truediv; [ | lra].
  set (peak := avg / base_to_peak_load_ratio a).
  assert (Hpeak : 0 < peak).
  { unfold peak. apply Rdiv_lt_0_compat; assumption. }
  set (nmv := Zceil (peak / mv_line_capacity)).
  assert (Hnmv : (1 <= nmv)%Z).
  { apply Zceil_pos. unfold mv_line_capacity. lra. }
  set (nlv := Zceil (peak / lv_line_capacity)).
  assert (Hnlv : (1 <= nlv)%Z).
  { apply Zceil_pos. unfold lv_line_capacity. lra. }
  pose proof (IZR_ge_1 _ Hnmv) as Hnmv'.
  pose proof (IZR_ge_1 _ Hnlv) as Hnlv'.
  ok_truediv; [ | lra].
  set (cap := IZR nlv / IZR nmv).
  assert (Hcap : 0 < cap).
  { unfold cap. apply Rdiv_lt_0_compat; lra. }
  ok_truediv; [ | lra].
  set (apm := grid_cell_area / IZR nmv).
  assert (Hapm : 0 < apm).
  { unfold apm, grid_cell_area. apply Rdiv_lt_0_compat; lra. }
  set (len := (apm / (lv_line_max_length / sqrt 2)) ^ 2).
  set (act := Zceil (Rmin hh (Rmax cap len))).
  assert (Hact : (1 <= act)%Z).
  { apply Zceil_pos. apply Rmin_glb_lt; [assumption | ].
    pose proof (Rmax_l cap len). lra. }
  pose proof (IZR_ge_1 _ Hact) as Hact'.
  assert (Hprod : 0 < IZR (act * nmv)).
  { apply IZR_lt. lia. }
  assert (Hprod' : 0 < IZR (nmv * act)).
  { apply IZR_lt. lia. }
  ok_truediv; [ | lra].
  ok_truediv; [ | lra].
  assert (Haph : 0 < grid_cell_area / hh).
  { unfold grid_cell_area. apply Rdiv_lt_0_compat; lra. }
  ok_sqrt; [ | lra].
  rewrite bind_ok; cbv beta.
  assert (Hapl : 0 < grid_cell_area / IZR nlv).
  { unfold grid_cell_area. apply Rdiv_lt_0_compat; lra. }
  ok_truediv; [ | lra].
  ok_sqrt; [ | lra].
  pose proof (sqrt_lt_R0 _ Hapl) as Hrl.
  pose proof (sqrt_lt_R0 _ Haph) as Hrh.
  ok_truediv; [ | lra].
  set (line_reach := apm / (2 * sqrt (grid_cell_area / IZR nlv))).
  assert (Hreach : 0 < line_reach).
  { unfold line_reach. apply Rdiv_lt_0_compat; lra. }
  assert (Hmin : 0 < Rmin line_reach mv_line_max_length).
  { apply Rmin_glb_lt; [assumption | unfold mv_line_max_length; lra]. }
  ok_truediv; [ | lra].
  set (hv := Rmax 0 (round_ndigits
                       (sqrt grid_cell_area
                        / (2 * Rmin line_reach mv_line_max_length) / 10) 3
                     - 1)).
  assert (Hhv : 0 <= hv) by apply Rmax_l.
  assert (Hs2 : 0 < sqrt 2) by (apply sqrt_lt_R0; lra).
  assert (Hs100 : 0 <= sqrt grid_cell_area) by apply sqrt_pos.
  eexists. split; [reflexivity | ].
  constructor; cbn [households generation_per_year peak_load
                    total_lv_lines_length total_length_of_lines
                    hv_lines_total_length num_transformers].
  - reflexivity.
  - unfold avg, HOURS_PER_YEAR. field.
  - unfold peak, HOURS_PER_YEAR. field. lra.
  - assumption.
  - unfold HOURS_PER_YEAR. lra.
  - assumption.
  - apply Rmult_lt_0_compat; [assumption | ].
    apply Rmult_lt_0_compat.
    + apply Rmult_lt_0_compat; [lra | ]. apply Rdiv_lt_0_compat; lra.
    + apply Rdiv_lt_0_compat; [apply Rmult_lt_0_compat; assumption | lra].
  - apply Rmult_le_pos; lra.
  - apply Rmult_le_pos; [ | assumption].
    apply Rmult_le_pos; [lra | assumption].
  - apply le_IZR. destruct (Zceil_bound (hv + IZR nmv + IZR (nmv * act))) as [_ Hub].
    lra.
Qed.

(** ** The roll-up of lines 394-408 *)

Lemma discount_pow_pos (y : nat) : 0 < (1 + discount_rate) ^ y.
Proof. apply pow_lt. unfold discount_rate. lra. Qed.

Lemma np_sum_cons (x : R) (l : ndarray) : np_sum (x :: l) = x + np_sum l.
Proof. reflexivity. Qed.

Lemma annuity_from_S (k m : nat) :
  annuity_from k (S m) = / (1 + discount_rate) ^ k + annuity_from (S k) m.
Proof. reflexivity. Qed.

Lemma annuity_from_nonneg (k m : nat) : 0 <= annuity_from k m.
Proof.
  revert k. induction m as [ | m IH]; intros k.
  - unfold annuity_from. simpl. lra.
  - rewrite annuity_from_S.
    pose proof (Rinv_0_lt_compat _ (discount_pow_pos k)).
    specialize (IH (S k)). lra.
Qed.

Lemma annuity_pos (m : nat) : (1 <= m)%nat -> 0 < annuity m.
Proof.
  intros Hm. destruct m as [ | m]; [lia | ].
  unfold annuity. rewrite annuity_from_S.
  pose proof (Rinv_0_lt_compat _ (discount_pow_pos 1)) as H1.
  pose proof (annuity_from_nonneg 2 m) as H2. lra.
Qed.

Lemma rollup_tail_costs (om fuel gen : R) (m k : nat) :
  np_sum
    (np_zip Rdiv
       (np_zip Rplus
          (np_zip Rplus (repeat 0 m) (map (Rmult om) (repeat 1 m)))
          (map (fun g => g * fuel) (map (Rmult gen) (repeat 1 m))))
       (map (fun y => (1 + discount_rate) ^ y) (seq k m)))
  = (om + gen * fuel) * annuity_from k m.
Proof.
  revert k. induction m as [ | m IH]; intros k.
  - unfold annuity_from. simpl. lra.
  - rewrite annuity_from_S.
    cbn [repeat map seq np_zip]. rewrite np_sum_cons, IH.
    pose proof (discount_pow_pos k). field. lra.
Qed.

Lemma rollup_tail_generation (gen : R) (m k : nat) :
  np_sum
    (np_zip Rdiv (map (Rmult gen) (repeat 1 m))
       (map (fun y => (1 + discount_rate) ^ y) (seq k m)))
  = gen * annuity_from k m.
Proof.
  revert k. induction m as [ | m IH]; intros k.
  - unfold annuity_from. simpl. lra.
  - rewrite annuity_from_S.
    cbn [repeat map seq np_zip]. rewrite np_sum_cons, IH.
    pose proof (discount_pow_pos k). field. lra.
Qed.

Lemma calc_rollup_eq (inv om fuel gen : R) (L : Z) :
  (0 <= L)%Z ->
  calc_rollup inv om fuel gen L
  = Ok (np_truediv (inv + (om + gen * fuel) * annuity (Z.to_nat L))
                   (gen * annuity (Z.to_nat L))).
Proof.
  intros HL. unfold calc_rollup, np_full, np_arange.
  replace (L + 1 <? 0)%Z with false by (symmetry; apply Z.ltb_ge; lia).
  replace (Z.to_nat (L + 1)) with (S (Z.to_nat L)) by lia.
  cbn [repeat map set_first bind seq np_zip np_sum fold_right].
  rewrite rollup_tail_costs, rollup_tail_generation.
  unfold annuity. f_equal. f_equal.
  - simpl. field.
  - simpl. field.
Qed.

Lemma np_sum_app (l l' : ndarray) : np_sum (l ++ l') = np_sum l + np_sum l'.
Proof.
  unfold np_sum. induction l as [ | x l IH]; simpl; [lra | rewrite IH; lra].
Qed.

Lemma sum_f_R0_seq (f : nat -> R) (m : nat) :
  sum_f_R0 f m = np_sum (map f (seq 0 (S m))).
Proof.
  induction m as [ | m IH].
  - simpl. lra.
  - rewrite seq_S, map_app, np_sum_app, <- IH. simpl. lra.
Qed.

Lemma dcf_cost_tail (inv om fuel gen : R) (m k : nat) :
  np_sum (map (fun y => dcf_cost inv om fuel gen y / (1 + 8 / 100) ^ y)
              (seq (S k) m))
  = (om + gen * fuel) * annuity_from (S k) m.
Proof.
  revert k. induction m as [ | m IH]; intros k.
  - unfold annuity_from. simpl. lra.
  - rewrite annuity_from_S. cbn [seq map]. rewrite np_sum_cons, IH.
    pose proof (discount_pow_pos (S k)) as Hq. unfold discount_rate in *.
    cbn [dcf_cost]. field. lra.
Qed.

Lemma dcf_generation_tail (gen : R) (m k : nat) :
  np_sum (map (fun y => dcf_generation gen y / (1 + 8 / 100) ^ y)
              (seq (S k) m))
  = gen * annuity_from (S k) m.
Proof.
  revert k. induction m as [ | m IH]; intros k.
  - unfold annuity_from. simpl. lra.
  - rewrite annuity_from_S. cbn [seq map]. rewrite np_sum_cons, IH.
    pose proof (discount_pow_pos (S k)) as Hq. unfold discount_rate in *.
    cbn [dcf_generation]. field. lra.
Qed.

Lemma dcf_ratio_eq (inv om fuel gen : R) (L : Z) :
  dcf_ratio inv om fuel gen L
  = (inv + (om + gen * fuel) * annuity (Z.to_nat L))
    / (gen * annuity (Z.to_nat L)).
Proof.
  unfold dcf_ratio. rewrite !sum_f_R0_seq.
  cbn [seq map]. rewrite !np_sum_cons.
  rewrite dcf_cost_tail, dcf_generation_tail.
  unfold annuity. cbn [dcf_cost dcf_generation]. f_equal; simpl; field.
Qed.

Lemma calc_rollup_dcf (inv om fuel gen : R) (L : Z) :
  (1 <= L)%Z -> 0 < gen ->
  calc_rollup inv om fuel gen L = Ok (Fin (dcf_ratio inv om fuel gen L)).
Proof.
  intros HL Hgen. rewrite calc_rollup_eq by lia.
  assert (HA : 0 < annuity (Z.to_nat L)) by (apply annuity_pos; lia).
  rewrite np_truediv_fin, dcf_ratio_eq; [reflexivity | ].
  apply Rgt_not_eq. apply Rmult_lt_0_compat; assumption.
Qed.

(** ** The cost components and the value of a call *)

Lemma calc_investment_ok (a : lcoe_args) (s : sizing) :
  (grid a = false -> capacity_factor a <> 0) ->
  calc_investment a s = Ok (investment_of a s, om_of a s).
Proof.
  intros Hcf. unfold calc_investment, investment_of, om_of, td_investment_of.
  destruct (grid a); [reflexivity | ].
  rewrite truediv_ok by auto. reflexivity.
Qed.

Lemma calc_investment_zero_capacity (a : lcoe_args) (s : sizing) :
  grid a = false -> capacity_factor a = 0 ->
  calc_investment a s = Raise ZeroDivisionError.
Proof.
  intros Hg Hcf. unfold calc_investment. rewrite Hg, Hcf, truediv_zero.
  reflexivity.
Qed.

Lemma calc_fuel_cost_ok (a : lcoe_args) :
  (diesel a = true -> efficiency a <> 0) ->
  calc_fuel_cost a = Ok (fuel_of a).
Proof.
  intros He. unfold calc_fuel_cost, fuel_of.
  destruct (diesel a); [ | destruct (grid a); reflexivity].
  apply truediv_ok. auto.
Qed.

Lemma calc_sizing_ext (a a' : lcoe_args) :
  people a = people a' -> scenario a = scenario a' ->
  distribution_losses a = distribution_losses a' ->
  base_to_peak_load_ratio a = base_to_peak_load_ratio a' ->
  calc_sizing a = calc_sizing a'.
Proof.
  intros Hp Hs Hd Hb. unfold calc_sizing. rewrite Hp, Hs, Hd, Hb. reflexivity.
Qed.

Lemma calc_lcoe_ok (a : lcoe_args) :
  valid_args a ->
  exists s,
    calc_sizing a = Ok s /\ sizing_ok a s
    /\ calc_lcoe a
       = Ok (Fin (dcf_ratio (investment_of a s) (om_of a s) (fuel_of a)
                            (generation_per_year s) (system_life a))).
Proof.
  intros (Hload & Hcf & Heff & Hlife).
  destruct (calc_sizing_ok a Hload) as (s & Hs & Hok).
  exists s. split; [assumption | split; [assumption | ]].
  unfold calc_lcoe. rewrite Hs, bind_ok.
  rewrite (calc_investment_ok a s Hcf), bind_ok.
  rewrite (calc_fuel_cost_ok a Heff), bind_ok.
  cbn [fst snd]. apply calc_rollup_dcf; [assumption | ].
  apply (so_generation_pos a s Hok).
Qed.

Lemma lcoe_val_ok (a : lcoe_args) :
  valid_args a -> calc_lcoe a = Ok (Fin (lcoe_val a)).
Proof.
  intros Hv. destruct (calc_lcoe_ok a Hv) as (s & _ & _ & H).
  unfold lcoe_val. rewrite H. reflexivity.
Qed.

Lemma lcoe_val_dcf (a : lcoe_args) (s : sizing) :
  valid_args a -> calc_sizing a = Ok s ->
  lcoe_val a
  = dcf_ratio (investment_of a s) (om_of a s) (fuel_of a)
              (generation_per_year s) (system_life a).
Proof.
  intros Hv Hs. destruct (calc_lcoe_ok a Hv) as (s' & Hs' & _ & H).
  rewrite Hs in Hs'. injection Hs' as <-.
  unfold lcoe_val. rewrite H. reflexivity.
Qed.

Lemma dcf_ratio_mono (inv om fuel inv' om' fuel' gen : R) (L : Z) :
  (1 <= L)%Z -> 0 < gen -> inv <= inv' -> om <= om' -> fuel <= fuel' ->
  dcf_ratio inv om fuel gen L <= dcf_ratio inv' om' fuel' gen L.
Proof.
  intros HL Hgen Hinv Hom Hfuel. rewrite !dcf_ratio_eq.
  assert (HA : 0 < annuity (Z.to_nat L)) by (apply annuity_pos; lia).
  set (A := annuity (Z.to_nat L)) in *.
  assert (HD : 0 < gen * A) by (apply Rmult_lt_0_compat; assumption).
  unfold Rdiv. apply Rmult_le_compat_r.
  - left. apply Rinv_0_lt_compat. assumption.
  - apply Rplus_le_compat; [assumption | ].
    apply Rmult_le_compat_r; [lra | ].
    apply Rplus_le_compat; [assumption | ].
    apply Rmult_le_compat_l; lra.
Qed.

Lemma dcf_ratio_nonneg (inv om fuel gen : R) (L : Z) :
  (1 <= L)%Z -> 0 < gen -> 0 <= inv -> 0 <= om -> 0 <= fuel ->
  0 <= dcf_ratio inv om fuel gen L.
Proof.
  intros HL Hgen Hinv Hom Hfuel. rewrite dcf_ratio_eq.
  assert (HA : 0 < annuity (Z.to_nat L)) by (apply annuity_pos; lia).
  set (A := annuity (Z.to_nat L)) in *.
  assert (HD : 0 < gen * A) by (apply Rmult_lt_0_compat; assumption).
  apply Rmult_le_pos; [ | left; apply Rinv_0_lt_compat; assumption].
  apply Rplus_le_le_0_compat; [assumption | ].
  apply Rmult_le_pos; [ | lra].
  apply Rplus_le_le_0_compat; [assumption | ].
  apply Rmult_le_pos; lra.
Qed.

(** ** The evaluator is the full-cost computation at the inputs of its mode *)

Ltac step_call :=
  match goal with
  | |- context [calc_lcoe ?a] => destruct (calc_lcoe a); [ | reflexivity]
  end.

Lemma get_lcoes_portfolio_full (cs : country_specs) (p : Z) (s : R)
                               (log : list lcoe_args) :
  get_lcoes cs p s false log = portfolio (full_cost_inputs cs) cs p s log.
Proof.
  unfold get_lcoes, portfolio, tbind.
  cbn [ci_om_of_td_lines ci_grid_price full_cost_inputs].
  destruct (comprehension _ ELEC_DISTANCES log) as [log' [gv | e]];
    [ | reflexivity].
  unfold tech_table, portfolio_tech_call, call_calc_lcoe, tret.
  cbn [comprehension tbind fst snd tc_standalone tc_diesel tc_capacity_factor
       tc_distribution_losses tc_capital_cost tc_om_ratio tc_base_to_peak
       tc_system_life tc_mv_line_length tc_efficiency ci_om_of_td_lines
       ci_tech_om_ratio ci_diesel_price full_cost_inputs].
  unfold tbind, tret.
  repeat step_call.
  reflexivity.
Qed.

Lemma get_lcoes_portfolio_cap (cs : country_specs) (p : Z) (s : R)
                              (log : list lcoe_args) :
  get_lcoes cs p s true log = portfolio zeroed_cost_inputs cs p s log.
Proof.
  unfold get_lcoes, portfolio, tbind.
  cbn [ci_om_of_td_lines ci_grid_price zeroed_cost_inputs].
  destruct (comprehension _ ELEC_DISTANCES log) as [log' [gv | e]];
    [ | reflexivity].
  unfold tech_table, portfolio_tech_call, call_calc_lcoe, tret.
  cbn [comprehension tbind fst snd tc_standalone tc_diesel tc_capacity_factor
       tc_distribution_losses tc_capital_cost tc_om_ratio tc_base_to_peak
       tc_system_life tc_mv_line_length tc_efficiency ci_om_of_td_lines
       ci_tech_om_ratio ci_diesel_price zeroed_cost_inputs].
  unfold tbind, tret.
  repeat step_call.
  reflexivity.
Qed.

(** ** The calls and the dictionary of the evaluator *)

Lemma tech_table_good :
  Forall (fun kc => good_constants (snd kc)) tech_table.
Proof.
  unfold tech_table.
  repeat (apply Forall_cons; [ | ]); try apply Forall_nil;
    unfold good_constants, HOURS_PER_YEAR; cbn; repeat split; try lra; lia.
Qed.

Lemma call_calc_lcoe_ok (a : lcoe_args) (log : list lcoe_args) :
  valid_args a ->
  call_calc_lcoe a log = (log ++ [a], Ok (Fin (lcoe_val a))).
Proof.
  intros Hv. unfold call_calc_lcoe. rewrite (lcoe_val_ok a Hv). reflexivity.
Qed.

Lemma comprehension_ok {A B : Type} (f : A -> traced B) (g : A -> lcoe_args)
                       (h : A -> B) (l : list A) :
  (forall x, In x l -> forall log, f x log = (log ++ [g x], Ok (h x))) ->
  forall log, comprehension f l log = (log ++ map g l, Ok (map h l)).
Proof.
  induction l as [ | x l IH]; intros Hf log.
  - cbn. rewrite app_nil_r. reflexivity.
  - cbn [comprehension map]. unfold tbind at 1.
    rewrite (Hf x (or_introl eq_refl)).
    unfold tbind at 1. rewrite IH by (intros y Hy; apply Hf; right; exact Hy).
    unfold tret. rewrite <- app_assoc. reflexivity.
Qed.

Lemma grid_call_valid (p : Z) (s om tl b2p gp : R) (d : Z) :
  (0 < p)%Z -> 0 < s -> -1 < tl -> 0 < b2p ->
  valid_args (grid_call p s om tl b2p gp d).
Proof.
  intros Hp Hs Htl Hb. unfold valid_args, valid_load. cbn.
  repeat split; try assumption; try discriminate; lia.
Qed.

Lemma portfolio_tech_call_valid (ci : cost_inputs) (p : Z) (s : R)
                                (c : tech_constants) :
  (0 < p)%Z -> 0 < s -> good_constants c ->
  valid_args (portfolio_tech_call ci p s c).
Proof.
  intros Hp Hs (Hcf & Hdl & _ & _ & Hb & Hl & _ & He).
  unfold valid_args, valid_load. cbn.
  repeat split; try assumption; try lra; intros _; lra.
Qed.

Lemma portfolio_ok (ci : cost_inputs) (cs : country_specs) (p : Z) (s : R)
                   (log : list lcoe_args) :
  valid_cell cs p s ->
  portfolio ci cs p s log
  = (log ++ portfolio_calls ci cs p s, Ok (portfolio_dict ci cs p s)).
Proof.
  intros (Hp & Hs & Htl & Hb). unfold portfolio, portfolio_calls.
  unfold tbind at 1.
  rewrite (comprehension_ok _
             (grid_call p s (ci_om_of_td_lines ci) (spe_grid_losses cs)
                        (spe_base_to_peak cs) (ci_grid_price ci))
             (fun d => Fin (lcoe_val
                              (grid_call p s (ci_om_of_td_lines ci)
                                 (spe_grid_losses cs) (spe_base_to_peak cs)
                                 (ci_grid_price ci) d)))).
  2:{ intros d _ log0. apply call_calc_lcoe_ok.
      apply grid_call_valid; assumption. }
  unfold tbind at 1.
  rewrite (comprehension_ok _
             (fun kc => portfolio_tech_call ci p s (snd kc))
             (fun kc => (fst kc,
                         Scalar (Fin (lcoe_val
                                        (portfolio_tech_call ci p s
                                                             (snd kc))))))).
  2:{ intros kc Hin log0. unfold tbind.
      rewrite call_calc_lcoe_ok; [reflexivity | ].
      apply portfolio_tech_call_valid; try assumption.
      pose proof tech_table_good as Hgood.
      rewrite Forall_forall in Hgood. apply Hgood. exact Hin. }
  unfold tret, portfolio_dict. rewrite app_assoc. reflexivity.
Qed.

(** ** Monotonicity and sign of the value of a call *)

Lemma Rpower_pos (x y : R) : 0 < Rpower x y.
Proof. unfold Rpower. apply exp_pos. Qed.

Lemma extension_cost_nonneg (d : R) : 0 <= d -> 0 <= extension_cost d.
Proof.
  intros Hd. unfold extension_cost, mv_line_cost.
  pose proof (Rpower_pos (1 + mv_increase_rate) (d / 5 - 1)).
  apply Rmult_le_pos; [assumption | ]. apply Rmult_le_pos; lra.
Qed.

Lemma extension_cost_mono (d d' : R) :
  0 <= d <= d' -> extension_cost d <= extension_cost d'.
Proof.
  intros [Hd Hdd']. unfold extension_cost, mv_line_cost.
  pose proof (Rpower_pos (1 + mv_increase_rate) (d / 5 - 1)) as Hpos.
  assert (Hpow : Rpower (1 + mv_increase_rate) (d / 5 - 1)
                 <= Rpower (1 + mv_increase_rate) (d' / 5 - 1)).
  { apply Rle_Rpower; [unfold mv_increase_rate; lra | lra]. }
  apply Rmult_le_compat; lra.
Qed.

Lemma td_investment_nonneg (a : lcoe_args) (s : sizing) :
  sizing_ok a s ->
  0 <= connection_cost_per_hh a -> 0 <= mv_line_length a ->
  0 <= additional_mv_line_length a ->
  0 <= td_investment_of a s.
Proof.
  intros Hok Hc Hm Hd.
  pose proof (so_households_pos a s Hok) as Hhh.
  pose proof (so_lv_length_pos a s Hok) as Hlv.
  pose proof (so_mv_length_pos a s Hok) as Hmv.
  pose proof (so_hv_length_pos a s Hok) as Hhv.
  pose proof (IZR_le _ _ (so_transformers_pos a s Hok)) as Htr.
  assert (Hconn : 0 <= households s * connection_cost_per_hh a).
  { apply Rmult_le_pos; lra. }
  unfold td_investment_of, hv_line_cost, mv_line_cost, lv_line_cost,
    hv_lv_transformer_cost.
  destruct (grid a).
  - pose proof (extension_cost_nonneg _ Hd) as Hext.
    unfold extension_cost, mv_line_cost in Hext. lra.
  - destruct (standalone a); lra.
Qed.

Lemma lcoe_val_mono (a a' : lcoe_args) :
  valid_args a -> valid_args a' ->
  people a = people a' -> scenario a = scenario a' ->
  distribution_losses a = distribution_losses a' ->
  base_to_peak_load_ratio a = base_to_peak_load_ratio a' ->
  system_life a = system_life a' ->
  (forall s, sizing_ok a s ->
             investment_of a s <= investment_of a' s
             /\ om_of a s <= om_of a' s) ->
  fuel_of a <= fuel_of a' ->
  lcoe_val a <= lcoe_val a'.
Proof.
  intros Hv Hv' Hp Hs Hd Hb Hl Hcost Hfuel.
  destruct (calc_lcoe_ok a Hv) as (s & Hsz & Hok & _).
  assert (Hsz' : calc_sizing a' = Ok s).
  { rewrite <- Hsz. symmetry. apply calc_sizing_ext; assumption. }
  rewrite (lcoe_val_dcf a s Hv Hsz), (lcoe_val_dcf a' s Hv' Hsz').
  destruct (Hcost s Hok) as [Hinv Hom].
  destruct (calc_sizing_ok a' (proj1 Hv')) as (s' & Hs' & Hok').
  rewrite Hsz' in Hs'. injection Hs' as <-.
  rewrite (so_generation a' s Hok'), <- Hl.
  rewrite <- (so_generation a' s Hok').
  apply dcf_ratio_mono; try assumption.
  - apply (proj2 (proj2 (proj2 Hv))).
  - apply (so_generation_pos a s Hok).
Qed.

Lemma lcoe_val_nonneg (a : lcoe_args) :
  valid_args a ->
  0 <= connection_cost_per_hh a -> 0 <= mv_line_length a ->
  0 <= additional_mv_line_length a -> 0 <= capital_cost a ->
  0 <= om_of_td_lines a -> 0 <= om_costs a ->
  (grid a = false -> 0 < capacity_factor a) ->
  0 <= fuel_of a ->
  0 <= lcoe_val a.
Proof.
  intros Hv Hc Hm Hd Hk Homtd Hom Hcf Hfuel.
  destruct (calc_lcoe_ok a Hv) as (s & Hsz & Hok & _).
  rewrite (lcoe_val_dcf a s Hv Hsz).
  pose proof (td_investment_nonneg a s Hok Hc Hm Hd) as Htd.
  pose proof (so_peak_pos a s Hok) as Hpk.
  apply dcf_ratio_nonneg.
  - apply (proj2 (proj2 (proj2 Hv))).
  - apply (so_generation_pos a s Hok).
  - unfold investment_of. destruct (grid a) eqn:Hg; [assumption | ].
    specialize (Hcf eq_refl).
    apply Rplus_le_le_0_compat; [assumption | ].
    apply Rmult_le_pos; [ | assumption].
    left. apply Rdiv_lt_0_compat; assumption.
  - unfold om_of. destruct (grid a) eqn:Hg.
    + apply Rmult_le_pos; assumption.
    + specialize (Hcf eq_refl).
      apply Rplus_le_le_0_compat; [apply Rmult_le_pos; assumption | ].
      apply Rmult_le_pos; [apply Rmult_le_pos; assumption | ].
      left. apply Rdiv_lt_0_compat; assumption.
  - assumption.
Qed.

(** ** The cost model: claims C1, C8, C9 and C10 *)

(** C1, as stated, fails: the listed ranges leave the efficiency free, and a
    diesel call with efficiency 0 raises instead of returning. *)
Lemma calc_lcoe_zero_efficiency_raises :
  let a := sa_diesel_call 0 1 in
  (0 < people a)%Z /\ 0 < scenario a /\ (1 <= system_life a)%Z
  /\ 0 < base_to_peak_load_ratio a <= 1 /\ 0 < capacity_factor a <= 1
  /\ calc_lcoe a = Raise ZeroDivisionError.
Proof.
  cbn zeta. unfold sa_diesel_call. cbn [people scenario system_life
    base_to_peak_load_ratio capacity_factor tech_call].
  repeat split; try lra; try lia.
  set (a := tech_call _ _ _ _ _ _ _ _ _ _ _ _ _ _).
  assert (Hload : valid_load a).
  { unfold valid_load, a. cbn. repeat split; try lra; lia. }
  destruct (calc_sizing_ok a Hload) as (s & Hs & _).
  unfold calc_lcoe. rewrite Hs, bind_ok.
  rewrite calc_investment_ok, bind_ok by (intros _; unfold a; cbn; lra).
  unfold calc_fuel_cost, a. cbn [diesel efficiency diesel_price tech_call].
  rewrite truediv_zero. reflexivity.
Qed.

(** C1, amended: for every input with people > 0, scenario > 0,
    distribution losses > -1, system_life >= 1, base-to-peak ratio and
    capacity factor in (0,1] and, for a diesel call, an efficiency other
    than 0, [calc_lcoe] returns exactly the discounted-cash-flow ratio
    [dcf_ratio] of the investment, O&M and fuel costs and of the annual
    generation that it computes. *)
Theorem calc_lcoe_discounted_cash_flow (a : lcoe_args) :
  (0 < people a)%Z -> 0 < scenario a -> (1 <= system_life a)%Z ->
  0 < base_to_peak_load_ratio a <= 1 -> 0 < capacity_factor a <= 1 ->
  -1 < distribution_losses a ->
  (diesel a = true -> efficiency a <> 0) ->
  exists s investment om fuel_price,
    calc_sizing a = Ok s
    /\ calc_investment a s = Ok (investment, om)
    /\ calc_fuel_cost a = Ok fuel_price
    /\ calc_lcoe a
       = Ok (Fin (dcf_ratio investment om fuel_price (generation_per_year s)
                            (system_life a))).
Proof.
  intros Hp Hs Hl Hb Hcf Hd He.
  assert (Hv : valid_args a).
  { unfold valid_args, valid_load. repeat split; try assumption; lra. }
  destruct (calc_lcoe_ok a Hv) as (s & Hsz & _ & H).
  exists s, (investment_of a s), (om_of a s), (fuel_of a).
  repeat split; try assumption.
  - apply calc_investment_ok. intros _. lra.
  - apply calc_fuel_cost_ok. assumption.
Qed.

Lemma calc_lcoe_discounted_cash_flow_witness :
  exists s investment om fuel_price,
    calc_sizing (sa_diesel_call (33 / 100) 1) = Ok s
    /\ calc_investment (sa_diesel_call (33 / 100) 1) s = Ok (investment, om)
    /\ calc_fuel_cost (sa_diesel_call (33 / 100) 1) = Ok fuel_price
    /\ calc_lcoe (sa_diesel_call (33 / 100) 1)
       = Ok (Fin (dcf_ratio investment om fuel_price (generation_per_year s)
                            (system_life (sa_diesel_call (33 / 100) 1)))).
Proof.
  apply (calc_lcoe_discounted_cash_flow (sa_diesel_call (33 / 100) 1));
    unfold sa_diesel_call; cbn; try lra; try lia.
Defined.

(** C8: in grid mode the investment cost is the sum of the HV, MV and LV
    construction costs, the transformer cost and the per-household
    connection cost, plus the additional distance [d] times the per-km MV
    line cost times [(1 + 0.1) ** (d / 5 - 1)]; at the distance [5 * (k + 1)]
    this factor is [(1 + 0.1) ^ k], one compounding of 10% per step of 5. *)
Theorem grid_investment_includes_extension (a : lcoe_args) (s : sizing) :
  grid a = true ->
  let d := additional_mv_line_length a in
  let construction :=
    hv_lines_total_length s * 53000 + total_length_of_lines s * 9000
    + total_lv_lines_length s * 5000 + IZR (num_transformers s) * 5000
    + households s * connection_cost_per_hh a in
  let investment :=
    construction + d * (9000 * Rpower (1 + 1 / 10) (d / 5 - 1)) in
  calc_investment a s = Ok (investment, investment * om_of_td_lines a)
  /\ forall k : nat,
       d = 5 * INR (S k) ->
       Rpower (1 + 1 / 10) (d / 5 - 1) = (1 + 1 / 10) ^ k.
Proof.
  intros Hg d construction investment. split.
  - unfold calc_investment. rewrite Hg. reflexivity.
  - intros k Hd. rewrite Hd.
    replace (5 * INR (S k) / 5 - 1) with (INR k) by (rewrite S_INR; field).
    apply Rpower_pow. lra.
Qed.

Lemma grid_investment_includes_extension_witness :
  let a := grid_call 10 1000 (3 / 100) (8 / 100) (8 / 10) (15 / 100) 5 in
  let investment :=
    0 * 53000 + 10 * 9000 + 100 * 5000 + 6 * 5000 + 200 * 125
    + 5 * (9000 * Rpower (1 + 1 / 10) (5 / 5 - 1)) in
  calc_investment a sample_sizing = Ok (investment, investment * (3 / 100))
  /\ forall k : nat,
       5 = 5 * INR (S k) -> Rpower (1 + 1 / 10) (5 / 5 - 1) = (1 + 1 / 10) ^ k.
Proof.
  exact (grid_investment_includes_extension
           (grid_call 10 1000 (3 / 100) (8 / 100) (8 / 10) (15 / 100) 5)
           sample_sizing eq_refl).
Defined.

(** C9, as stated, fails for a stand-alone technology: the LV line cost is
    not charged on the unreduced LV line length; the investment differs from
    that sum. *)
Lemma standalone_lv_length_is_dropped :
  exists s investment om,
    standalone sa_pv_call = true
    /\ calc_sizing sa_pv_call = Ok s
    /\ calc_investment sa_pv_call s = Ok (investment, om)
    /\ investment
       <> 9000 * mv_line_length sa_pv_call
          + 5000 * total_lv_lines_length s
          + households s * connection_cost_per_hh sa_pv_call
          + peak_load s / capacity_factor sa_pv_call
            * capital_cost sa_pv_call.
Proof.
  assert (Hload : valid_load sa_pv_call).
  { unfold valid_load, sa_pv_call. cbn. repeat split; try lra; lia. }
  destruct (calc_sizing_ok _ Hload) as (s & Hs & Hok).
  exists s, (investment_of sa_pv_call s), (om_of sa_pv_call s).
  split; [reflexivity | split; [assumption | split]].
  - apply calc_investment_ok. intros _.
    unfold sa_pv_call, HOURS_PER_YEAR. cbn. lra.
  - pose proof (so_lv_length_pos _ _ Hok) as Hlv.
    unfold investment_of, td_investment_of, sa_pv_call, mv_line_cost,
      lv_line_cost in *.
    cbn [grid standalone mv_line_length connection_cost_per_hh
         capacity_factor capital_cost tech_call] in *.
    lra.
Qed.

(** C9, amended: in non-grid mode the investment cost is the per-km MV cost
    times [mv_line_length], plus the LV line cost charged on 75% of the
    total LV line length for a mini-grid and on none of it for a stand-alone
    technology (the length is multiplied by 0), plus the per-household
    connection cost, plus the peak load divided by the capacity factor times
    the capital cost per installed kW. *)
Theorem offgrid_investment (a : lcoe_args) (s : sizing) :
  grid a = false -> capacity_factor a <> 0 ->
  exists om,
    calc_investment a s
    = Ok (9000 * mv_line_length a
          + 5000 * (total_lv_lines_length s
                    * (if standalone a then 0 else 75 / 100))
          + households s * connection_cost_per_hh a
          + peak_load s / capacity_factor a * capital_cost a,
          om).
Proof.
  intros Hg Hcf. unfold calc_investment. rewrite Hg.
  rewrite truediv_ok by assumption. rewrite bind_ok.
  eexists. reflexivity.
Qed.

Lemma offgrid_investment_witness :
  exists om,
    calc_investment (mg_wind_call (3 / 10)) sample_sizing
    = Ok (9000 * 0 + 5000 * (100 * (75 / 100)) + 200 * 100
          + 50 / (3 / 10) * 3000, om).
Proof.
  apply (offgrid_investment (mg_wind_call (3 / 10)) sample_sizing eq_refl).
  unfold mg_wind_call. cbn. lra.
Defined.

(** C10, as stated, fails: a negative capacity factor is outside the valid
    range, and the call returns a number. *)
Lemma negative_capacity_factor_returns :
  capacity_factor (mg_wind_call (- (1 / 2))) <= 0
  /\ exists v, calc_lcoe (mg_wind_call (- (1 / 2))) = Ok (Fin v).
Proof.
  split; [unfold mg_wind_call; cbn; lra | ].
  eexists. apply lcoe_val_ok.
  unfold valid_args, valid_load, mg_wind_call. cbn.
  repeat split; try lra; try lia; intros _; lra.
Qed.

Lemma Zceil_zero : Zceil 0 = 0%Z.
Proof. apply Zceil_eq. simpl. lra. Qed.

Lemma calc_sizing_no_people (a : lcoe_args) :
  people a = 0%Z -> calc_sizing a = Raise ZeroDivisionError.
Proof.
  intros Hp. unfold calc_sizing. rewrite Hp. cbv zeta.
  replace (IZR (0 * 100) / NUM_PEOPLE_PER_HH * scenario a
           * (1 + distribution_losses a) / HOURS_PER_YEAR)
    with 0 by (unfold NUM_PEOPLE_PER_HH, HOURS_PER_YEAR; simpl; field).
  unfold truediv at 1.
  destruct (Req_dec_T (base_to_peak_load_ratio a) 0); [reflexivity | ].
  rewrite bind_ok.
  replace (0 / base_to_peak_load_ratio a / mv_line_capacity) with 0
    by (unfold mv_line_capacity; field; assumption).
  rewrite Zceil_zero, truediv_zero. reflexivity.
Qed.

(** The exceptions the sizing can raise: a division by zero or the square
    root of a negative number. *)
Lemma bind_raise_kind {A B : Type} (m : result A) (k : A -> result B)
                      (e : exn) :
  (forall e', m = Raise e' -> e' = ZeroDivisionError \/ e' = ValueError) ->
  (forall x e', k x = Raise e' -> e' = ZeroDivisionError \/ e' = ValueError) ->
  bind m k = Raise e -> e = ZeroDivisionError \/ e = ValueError.
Proof.
  intros Hm Hk. destruct m as [x | e']; cbn [bind].
  - apply Hk.
  - intros [= <-]. apply Hm. reflexivity.
Qed.

Lemma truediv_raise_kind (x y : R) (e : exn) :
  truediv x y = Raise e -> e = ZeroDivisionError \/ e = ValueError.
Proof.
  unfold truediv. destruct (Req_dec_T y 0); [ | discriminate].
  intros [= <-]. left. reflexivity.
Qed.

Lemma math_sqrt_raise_kind (x : R) (e : exn) :
  math_sqrt x = Raise e -> e = ZeroDivisionError \/ e = ValueError.
Proof.
  unfold math_sqrt. destruct (Rlt_dec x 0); [ | discriminate].
  intros [= <-]. right. reflexivity.
Qed.

Lemma calc_sizing_raise_kind (a : lcoe_args) (e : exn) :
  calc_sizing a = Raise e -> e = ZeroDivisionError \/ e = ValueError.
Proof.
  unfold calc_sizing. cbv zeta.
  repeat (apply bind_raise_kind;
          [intros ?;
           first [apply truediv_raise_kind | apply math_sqrt_raise_kind]
          | intros ? ?]).
  discriminate.
Qed.

(** C10, amended: with zero people, or in non-grid mode with a capacity
    factor of 0, the call raises an exception instead of returning a value.
    The exception is ZeroDivisionError when the number of people is 0, and
    also when the load is valid (people, scenario and base-to-peak ratio
    positive, losses above -1) and the capacity factor is 0; otherwise it
    is ZeroDivisionError or the ValueError of the square root of a negative
    number.  The function has no validation of ranges. *)
Theorem calc_lcoe_division_by_zero (a : lcoe_args) :
  people a = 0%Z \/ (grid a = false /\ capacity_factor a = 0) ->
  (calc_lcoe a = Raise ZeroDivisionError \/ calc_lcoe a = Raise ValueError)
  /\ (people a = 0%Z \/ valid_load a ->
      calc_lcoe a = Raise ZeroDivisionError).
Proof.
  intros H.
  assert (Hzero : people a = 0%Z -> calc_lcoe a = Raise ZeroDivisionError).
  { intros Hp. unfold calc_lcoe. rewrite (calc_sizing_no_people a Hp).
    reflexivity. }
  split.
  - destruct H as [Hp | [Hg Hcf]]; [left; apply Hzero; exact Hp | ].
    unfold calc_lcoe. destruct (calc_sizing a) as [s | e] eqn:Hs.
    + rewrite bind_ok, (calc_investment_zero_capacity a s Hg Hcf).
      left. reflexivity.
    + cbn [bind].
      destruct (calc_sizing_raise_kind a e Hs) as [-> | ->];
        [left | right]; reflexivity.
  - intros [Hp | Hload]; [apply Hzero; exact Hp | ].
    destruct H as [Hp | [Hg Hcf]]; [apply Hzero; exact Hp | ].
    destruct (calc_sizing_ok a Hload) as (s & Hs & _).
    unfold calc_lcoe.
    rewrite Hs, bind_ok, (calc_investment_zero_capacity a s Hg Hcf).
    reflexivity.
Qed.

Lemma calc_lcoe_division_by_zero_witness :
  calc_lcoe (mg_wind_call 0) = Raise ZeroDivisionError.
Proof.
  apply (calc_lcoe_division_by_zero (mg_wind_call 0)).
  - right. split; reflexivity.
  - right. unfold valid_load, mg_wind_call. cbn. repeat split; try lra; lia.
Defined.

(** ** The evaluator: claims C5 and C6 *)

Lemma get_lcoes_portfolio (cs : country_specs) (p : Z) (s : R) (cap : bool)
                          (log : list lcoe_args) :
  get_lcoes cs p s cap log = portfolio (mode_inputs cs cap) cs p s log.
Proof.
  destruct cap; [apply get_lcoes_portfolio_cap | apply get_lcoes_portfolio_full].
Qed.

Lemma get_lcoes_ok (cs : country_specs) (p : Z) (s : R) (cap : bool) :
  valid_cell cs p s ->
  calls (get_lcoes cs p s cap) = portfolio_calls (mode_inputs cs cap) cs p s
  /\ run (get_lcoes cs p s cap)
     = Ok (portfolio_dict (mode_inputs cs cap) cs p s).
Proof.
  intros Hv. unfold calls, run.
  rewrite get_lcoes_portfolio, (portfolio_ok _ cs p s [] Hv).
  split; reflexivity.
Qed.

Lemma fixture_valid : valid_cell fixture_country 1000 1000.
Proof. unfold valid_cell, fixture_country. cbn. repeat split; try lra; lia. Qed.

Lemma tech_table_keys : map fst tech_table = techs.
Proof. reflexivity. Qed.

(** C5: the capital-only evaluation is the full-cost computation
    [portfolio], the single formula that makes the 10 grid calls and the
    off-grid calls from its O&M and price inputs, applied to the same
    country, people and scenario with the O&M ratio of T&D lines, the
    technology O&M ratios, the grid price and the diesel price set to zero;
    the full evaluation is the same computation with the inputs of the
    country. *)
Theorem capital_only_is_zeroed_full_cost (cs : country_specs) (p : Z)
                                         (s : R) :
  (forall log,
     get_lcoes cs p s true log = portfolio zeroed_cost_inputs cs p s log)
  /\ (forall log,
        get_lcoes cs p s false log
        = portfolio (full_cost_inputs cs) cs p s log)
  /\ ci_om_of_td_lines zeroed_cost_inputs = 0
  /\ (forall c, ci_tech_om_ratio zeroed_cost_inputs c = 0)
  /\ ci_grid_price zeroed_cost_inputs = 0
  /\ ci_diesel_price zeroed_cost_inputs = 0.
Proof.
  split; [ | split].
  - intros log. apply get_lcoes_portfolio_cap.
  - intros log. apply get_lcoes_portfolio_full.
  - repeat split; reflexivity.
Qed.

(** C6, as stated, fails: the evaluator makes 10 off-grid calls, not 9. *)
Lemma get_lcoes_makes_ten_offgrid_calls :
  List.length (filter (fun a => negb (grid a))
                      (calls (get_lcoes fixture_country 1000 1000 false)))
  = 10%nat
  /\ List.length (filter (fun a => negb (grid a))
                         (calls (get_lcoes fixture_country 1000 1000 false)))
     <> 9%nat.
Proof.
  destruct (get_lcoes_ok fixture_country 1000 1000 false fixture_valid)
    as [Hcalls _].
  rewrite Hcalls. split; [reflexivity | discriminate].
Qed.

(** C6, amended: for one country row and one number of people, when no call
    raises, the evaluator calls [calc_lcoe] exactly once per grid distance,
    10 calls in the order of [ELEC_DISTANCES], then exactly once per
    off-grid technology, 10 calls, each with the constants of that
    technology's record in [tech_table]; the dictionary returned has the
    sequence of the 10 grid results under the key [GRID] and one number
    under the key of each off-grid technology. *)
Theorem get_lcoes_calls_and_mapping (cs : country_specs) (p : Z) (s : R)
                                    (cap : bool) :
  (0 < p)%Z -> 0 < s -> -1 < spe_grid_losses cs -> 0 < spe_base_to_peak cs ->
  let ci := mode_inputs cs cap in
  let grid_calls :=
    map (grid_call p s (ci_om_of_td_lines ci) (spe_grid_losses cs)
                   (spe_base_to_peak cs) (ci_grid_price ci))
        ELEC_DISTANCES in
  let tech_calls :=
    map (fun kc => portfolio_tech_call ci p s (snd kc)) tech_table in
  calls (get_lcoes cs p s cap) = grid_calls ++ tech_calls
  /\ List.length grid_calls = 10%nat
  /\ List.length tech_calls = 10%nat
  /\ Forall (fun a => grid a = true) grid_calls
  /\ Forall (fun a => grid a = false) tech_calls
  /\ exists grid_values tech_values,
       map calc_lcoe grid_calls = map Ok grid_values
       /\ map calc_lcoe tech_calls = map Ok tech_values
       /\ run (get_lcoes cs p s cap)
          = Ok ((GRID, Seq grid_values)
                :: combine techs (map Scalar tech_values)).
Proof.
  intros Hp Hs Htl Hb ci grid_calls tech_calls.
  assert (Hv : valid_cell cs p s) by (repeat split; assumption).
  destruct (get_lcoes_ok cs p s cap Hv) as [Hcalls Hrun].
  split; [exact Hcalls | ].
  split; [reflexivity | split; [reflexivity | ]].
  split; [ | split].
  - unfold grid_calls. apply Forall_map. apply Forall_forall.
    intros d _. reflexivity.
  - unfold tech_calls. apply Forall_map. apply Forall_forall.
    intros kc _. reflexivity.
  - exists (map (fun a => Fin (lcoe_val a)) grid_calls),
           (map (fun a => Fin (lcoe_val a)) tech_calls).
    split; [ | split].
    + rewrite map_map. apply map_ext_in. intros a Ha.
      apply lcoe_val_ok. unfold grid_calls in Ha.
      apply in_map_iff in Ha. destruct Ha as (d & <- & _).
      apply grid_call_valid; assumption.
    + rewrite map_map. apply map_ext_in. intros a Ha.
      apply lcoe_val_ok. unfold tech_calls in Ha.
      apply in_map_iff in Ha. destruct Ha as (kc & <- & Hin).
      apply portfolio_tech_call_valid; try assumption.
      pose proof tech_table_good as Hgood.
      rewrite Forall_forall in Hgood. apply Hgood. exact Hin.
    + rewrite Hrun. unfold portfolio_dict, grid_calls, tech_calls.
      rewrite !map_map. reflexivity.
Qed.

Lemma get_lcoes_calls_and_mapping_witness :
  exists grid_calls tech_calls,
    calls (get_lcoes fixture_country 1000 1000 false)
    = grid_calls ++ tech_calls
    /\ List.length grid_calls = 10%nat /\ List.length tech_calls = 10%nat.
Proof.
  destruct (get_lcoes_calls_and_mapping fixture_country 1000 1000 false)
    as (Hcalls & Hg & Ht & _).
  - lia.
  - lra.
  - unfold fixture_country; cbn; lra.
  - unfold fixture_country; cbn; lra.
  - eexists. eexists. split; [exact Hcalls | split; [exact Hg | exact Ht]].
Defined.

(** ** Comparisons between calls: claims C3 and C4 *)

Lemma people_arr_range (p : Z) : In p people_arr -> (10 <= p <= 4000)%Z.
Proof.
  unfold people_arr. intros Hin. apply in_map_iff in Hin.
  destruct Hin as (x & <- & Hx). apply in_seq in Hx. lia.
Qed.

Lemma ELEC_DISTANCES_range (d : Z) : In d ELEC_DISTANCES -> (5 <= d <= 50)%Z.
Proof.
  unfold ELEC_DISTANCES. intros Hin. apply in_map_iff in Hin.
  destruct Hin as (x & <- & Hx). apply in_seq in Hx. lia.
Qed.

Lemma ELEC_DISTANCES_sorted : StronglySorted Z.le ELEC_DISTANCES.
Proof.
  unfold ELEC_DISTANCES. cbn [seq map].
  repeat (apply SSorted_cons; [ | repeat (apply Forall_cons; [lia | ]);
                                   apply Forall_nil]).
  apply SSorted_nil.
Qed.

Lemma StronglySorted_map_mono {A B : Type} (RA : A -> A -> Prop)
      (RB : B -> B -> Prop) (f : A -> B) (l : list A) :
  (forall x y, In x l -> In y l -> RA x y -> RB (f x) (f y)) ->
  StronglySorted RA l -> StronglySorted RB (map f l).
Proof.
  intros Hf Hs. induction Hs as [ | x l Hs IH Hall]; cbn [map].
  - apply SSorted_nil.
  - apply SSorted_cons.
    + apply IH. intros y z Hy Hz. apply Hf; right; assumption.
    + apply Forall_map. rewrite Forall_forall in *.
      intros y Hy. apply Hf; [left; reflexivity | right; exact Hy | ].
      apply Hall. exact Hy.
Qed.

Lemma Forall2_map_le {A : Type} (f g : A -> R) (l : list A) :
  (forall x, In x l -> f x <= g x) -> Forall2 Rle (map f l) (map g l).
Proof.
  induction l as [ | x l IH]; intros H; cbn [map].
  - apply Forall2_nil.
  - apply Forall2_cons; [apply H; left; reflexivity | ].
    apply IH. intros y Hy. apply H. right. exact Hy.
Qed.

Lemma dict_get_grid (ci : cost_inputs) (cs : country_specs) (p : Z) (s : R) :
  dict_get (portfolio_dict ci cs p s) GRID
  = Some (Seq (map Fin
                 (map (fun d =>
                         lcoe_val
                           (grid_call p s (ci_om_of_td_lines ci)
                                      (spe_grid_losses cs)
                                      (spe_base_to_peak cs)
                                      (ci_grid_price ci) d))
                      ELEC_DISTANCES))).
Proof. rewrite map_map. reflexivity. Qed.

Lemma dict_get_tech (t : string) :
  In t techs ->
  exists c,
    In (t, c) tech_table
    /\ forall ci cs p s,
         dict_get (portfolio_dict ci cs p s) t
         = Some (Scalar (Fin (lcoe_val (portfolio_tech_call ci p s c)))).
Proof.
  unfold techs. intros Hin.
  repeat (destruct Hin as [<- | Hin];
          [eexists; split; [ | intros; reflexivity];
           unfold tech_table; cbn [In snd];
           repeat (first [left; reflexivity | right]) | ]).
  destruct Hin.
Qed.

(** The grid call at one distance: capital-only against full cost. *)
Lemma grid_cap_le_full (cs : country_specs) (p : Z) (s : R) (d : Z) :
  valid_cell cs p s -> 0 <= spe_grid_price cs -> (0 <= d)%Z ->
  lcoe_val (grid_call p s 0 (spe_grid_losses cs) (spe_base_to_peak cs) 0 d)
  <= lcoe_val (grid_call p s (3 / 100) (spe_grid_losses cs)
                         (spe_base_to_peak cs) (spe_grid_price cs) d).
Proof.
  intros (Hp & Hs & Htl & Hb) Hgp Hd.
  apply lcoe_val_mono; try reflexivity;
    try (apply grid_call_valid; assumption).
  - intros sz Hok.
    assert (Htd : 0 <= td_investment_of
                         (grid_call p s 0 (spe_grid_losses cs)
                                    (spe_base_to_peak cs) 0 d) sz).
    { apply td_investment_nonneg; try assumption; cbn; try lra.
      apply IZR_le. assumption. }
    unfold investment_of, om_of, td_investment_of in *.
    cbn [grid grid_call om_of_td_lines additional_mv_line_length
         connection_cost_per_hh] in *.
    lra.
  - unfold fuel_of. cbn. assumption.
Qed.

(** An off-grid call: capital-only against full cost. *)
Lemma tech_cap_le_full (cs : country_specs) (p : Z) (s : R)
                       (c : tech_constants) :
  (0 < p)%Z -> 0 < s -> good_constants c -> 0 <= spe_diesel_price_low cs ->
  lcoe_val (portfolio_tech_call zeroed_cost_inputs p s c)
  <= lcoe_val (portfolio_tech_call (full_cost_inputs cs) p s c).
Proof.
  intros Hp Hs Hgood Hdp.
  pose proof Hgood as (Hcf & Hdl & Hk & Hom & Hb & Hl & Hm & He).
  apply lcoe_val_mono; try reflexivity;
    try (apply portfolio_tech_call_valid; assumption).
  - intros sz Hok.
    assert (Htd : 0 <= td_investment_of
                         (portfolio_tech_call zeroed_cost_inputs p s c) sz).
    { apply td_investment_nonneg; try assumption; cbn; lra. }
    pose proof (so_peak_pos _ _ Hok) as Hpk.
    assert (Hinst : 0 <= peak_load sz / tc_capacity_factor c).
    { left. apply Rdiv_lt_0_compat; lra. }
    assert (Hterm : 0 <= tc_capital_cost c * tc_om_ratio c
                         * (peak_load sz / tc_capacity_factor c)).
    { apply Rmult_le_pos; [apply Rmult_le_pos; assumption | assumption]. }
    unfold investment_of, om_of, td_investment_of in *.
    cbn [grid standalone mv_line_length connection_cost_per_hh
         capacity_factor capital_cost om_of_td_lines om_costs
         portfolio_tech_call tech_call zeroed_cost_inputs full_cost_inputs
         ci_om_of_td_lines ci_tech_om_ratio] in *.
    split; [lra | ].
    destruct (tc_standalone c); lra.
  - unfold fuel_of.
    cbn [diesel grid diesel_price efficiency portfolio_tech_call tech_call
         zeroed_cost_inputs full_cost_inputs ci_diesel_price].
    destruct (tc_diesel c); [ | lra].
    unfold Rdiv at 1 2. apply Rmult_le_compat_r.
    + left. apply Rinv_0_lt_compat. assumption.
    + unfold LHV_DIESEL. apply Rmult_le_pos; [assumption | lra].
Qed.

(** The grid call at two distances. *)
Lemma grid_mono_distance (p : Z) (s om tl b2p gp : R) (d d' : Z) :
  (0 < p)%Z -> 0 < s -> -1 < tl -> 0 < b2p -> 0 <= om ->
  (0 <= d <= d')%Z ->
  lcoe_val (grid_call p s om tl b2p gp d)
  <= lcoe_val (grid_call p s om tl b2p gp d').
Proof.
  intros Hp Hs Htl Hb Hom [Hd Hdd'].
  apply lcoe_val_mono; try reflexivity;
    try (apply grid_call_valid; assumption).
  intros sz Hok.
  assert (Htd : 0 <= td_investment_of (grid_call p s om tl b2p gp d) sz).
  { apply td_investment_nonneg; try assumption; cbn; try lra.
    apply IZR_le. assumption. }
  assert (Hext : extension_cost (IZR d) <= extension_cost (IZR d')).
  { apply extension_cost_mono. split; apply IZR_le; assumption. }
  unfold investment_of, om_of, td_investment_of, extension_cost in *.
  cbn [grid grid_call om_of_td_lines additional_mv_line_length
       connection_cost_per_hh] in *.
  split; [lra | ]. apply Rmult_le_compat_r; [assumption | lra].
Qed.

(** The stand-alone diesel LCOE in closed form: it does not depend on the
    number of people. *)
Lemma sa_diesel_value (ci : cost_inputs) (p : Z) (s : R) :
  (0 < p)%Z -> 0 < s ->
  lcoe_val (portfolio_tech_call ci p s sa_diesel_constants)
  = (100 / s + 721 / (7 / 10 * (5 / 10) * 8760)) / annuity 15
    + (721 * ci_tech_om_ratio ci sa_diesel_constants
       / (7 / 10 * (5 / 10) * 8760)
       + ci_diesel_price ci / (33 / 100)).
Proof.
  intros Hp Hs.
  set (a := portfolio_tech_call ci p s sa_diesel_constants).
  assert (Hv : valid_args a).
  { apply portfolio_tech_call_valid; try assumption.
    unfold good_constants, sa_diesel_constants. cbn.
    repeat split; try lra; lia. }
  destruct (calc_lcoe_ok a Hv) as (sz & Hsz & Hok & _).
  rewrite (lcoe_val_dcf a sz Hv Hsz), dcf_ratio_eq.
  pose proof (so_generation a sz Hok) as Hgen.
  pose proof (so_peak a sz Hok) as Hpeak.
  pose proof (so_generation_pos a sz Hok) as Hgpos.
  assert (HA : 0 < annuity 15) by (apply annuity_pos; lia).
  unfold investment_of, om_of, fuel_of, td_investment_of, a,
    sa_diesel_constants, HOURS_PER_YEAR, mv_line_cost, lv_line_cost in *.
  cbn [grid diesel standalone mv_line_length connection_cost_per_hh
       capacity_factor capital_cost om_of_td_lines om_costs diesel_price
       efficiency scenario distribution_losses base_to_peak_load_ratio
       system_life portfolio_tech_call tech_call
       tc_standalone tc_diesel tc_capacity_factor tc_distribution_losses
       tc_capital_cost tc_base_to_peak tc_system_life tc_mv_line_length
       tc_efficiency] in *.
  change (Z.to_nat 15) with 15%nat.
  set (A := annuity 15) in *.
  set (g := generation_per_year sz) in *.
  assert (Hhh : households sz = g / s) by (rewrite Hgen; field; lra).
  rewrite Hpeak, Hhh. field. lra.
Qed.

Lemma annuity_lower_bound (m : nat) :
  (1 <= m)%nat -> / (1 + 8 / 100) <= annuity m.
Proof.
  intros Hm. destruct m as [ | m]; [lia | ].
  unfold annuity. rewrite annuity_from_S.
  pose proof (annuity_from_nonneg 2 m). unfold discount_rate. simpl. 
  replace ((1 + 8 / 100) * 1) with (1 + 8 / 100) by lra. lra.
Qed.

Lemma negative_diesel_valid : valid_cell negative_diesel_country 10 1000.
Proof.
  unfold valid_cell, negative_diesel_country. cbn.
  repeat split; try lra; lia.
Qed.

Lemma dict_get_sa_diesel (ci : cost_inputs) (cs : country_specs) (p : Z)
                         (s : R) :
  dict_get (portfolio_dict ci cs p s) SA_DIESEL
  = Some (Scalar (Fin (lcoe_val
                         (portfolio_tech_call ci p s sa_diesel_constants)))).
Proof. reflexivity. Qed.

(** C3, as stated, fails: for a country with a negative diesel price the
    capital-only LCOE of stand-alone diesel exceeds the full LCOE. *)
Lemma capital_only_above_full_for_negative_price :
  exists d_cap d_full c f,
    run (get_lcoes negative_diesel_country 10 1000 true) = Ok d_cap
    /\ run (get_lcoes negative_diesel_country 10 1000 false) = Ok d_full
    /\ dict_get d_cap SA_DIESEL = Some (Scalar (Fin c))
    /\ dict_get d_full SA_DIESEL = Some (Scalar (Fin f))
    /\ f < c.
Proof.
  destruct (get_lcoes_ok _ _ _ true negative_diesel_valid) as [_ Hcap].
  destruct (get_lcoes_ok _ _ _ false negative_diesel_valid) as [_ Hfull].
  do 4 eexists.
  split; [exact Hcap | split; [exact Hfull | ]].
  split; [apply dict_get_sa_diesel | split; [apply dict_get_sa_diesel | ]].
  rewrite !sa_diesel_value by (lia || lra).
  unfold mode_inputs, zeroed_cost_inputs, full_cost_inputs,
    negative_diesel_country, sa_diesel_constants, LHV_DIESEL.
  cbn [ci_tech_om_ratio ci_diesel_price tc_om_ratio spe_diesel_price_low].
  lra.
Qed.

(** C7, as stated, fails: for the same country, whose base-to-peak ratio is
    positive and whose grid losses are in [0,1), the full LCOE of stand-alone
    diesel is negative. *)
Lemma negative_lcoe_for_negative_price :
  In 10%Z people_arr
  /\ 0 < spe_base_to_peak negative_diesel_country
  /\ 0 <= spe_grid_losses negative_diesel_country < 1
  /\ exists d v,
       run (get_lcoes negative_diesel_country 10 1000 false) = Ok d
       /\ dict_get d SA_DIESEL = Some (Scalar (Fin v))
       /\ v < 0.
Proof.
  split; [ | split; [ | split]].
  - unfold people_arr. apply in_map_iff. exists 1%nat.
    split; [reflexivity | apply in_seq; lia].
  - unfold negative_diesel_country; cbn; lra.
  - unfold negative_diesel_country; cbn; lra.
  - destruct (get_lcoes_ok _ _ _ false negative_diesel_valid) as [_ Hfull].
    do 2 eexists.
    split; [exact Hfull | split; [apply dict_get_sa_diesel | ]].
    rewrite sa_diesel_value by (lia || lra).
    unfold mode_inputs, full_cost_inputs, negative_diesel_country,
      sa_diesel_constants, LHV_DIESEL.
    cbn [ci_tech_om_ratio ci_diesel_price tc_om_ratio spe_diesel_price_low].
    pose proof (annuity_lower_bound 15 ltac:(lia)) as HA.
    assert (HA0 : 0 < annuity 15) by (apply annuity_pos; lia).
    set (A := annuity 15) in *.
    assert (Hinv : / A <= 1 + 8 / 100).
    { rewrite <- (Rinv_inv (1 + 8 / 100)).
      apply Rinv_le_contravar; [ | exact HA].
      apply Rinv_0_lt_compat. lra. }
    unfold Rdiv at 1.
    assert (Hk : (100 / 1000 + 721 / (7 / 10 * (5 / 10) * 8760)) * / A
                 <= (100 / 1000 + 721 / (7 / 10 * (5 / 10) * 8760))
                    * (1 + 8 / 100)).
    { apply Rmult_le_compat_l; [lra | exact Hinv]. }
    lra.
Qed.

Lemma in_people_arr_1000 : In 1000%Z people_arr.
Proof.
  unfold people_arr. apply in_map_iff. exists 100%nat.
  split; [reflexivity | apply in_seq; lia].
Qed.

Lemma grid_call_nonneg (p : Z) (s om tl b2p gp : R) (d : Z) :
  (0 < p)%Z -> 0 < s -> -1 < tl -> 0 < b2p -> 0 <= om -> 0 <= gp ->
  (0 <= d)%Z ->
  0 <= lcoe_val (grid_call p s om tl b2p gp d).
Proof.
  intros Hp Hs Htl Hb Hom Hgp Hd.
  apply lcoe_val_nonneg;
    [apply grid_call_valid; assumption | cbn .. ]; try lra.
  apply IZR_le. assumption.
Qed.

Lemma tech_call_nonneg (ci : cost_inputs) (p : Z) (s : R)
                       (c : tech_constants) :
  (0 < p)%Z -> 0 < s -> good_constants c ->
  0 <= ci_om_of_td_lines ci -> 0 <= ci_diesel_price ci ->
  0 <= ci_tech_om_ratio ci c ->
  0 <= lcoe_val (portfolio_tech_call ci p s c).
Proof.
  intros Hp Hs Hgood Hom Hdp Hr.
  pose proof Hgood as (Hcf & Hdl & Hk & _ & Hb & Hl & Hm & He).
  apply lcoe_val_nonneg;
    [apply portfolio_tech_call_valid; assumption | cbn .. ]; try lra.
  - destruct (tc_standalone c); lra.
  - unfold fuel_of. cbn. destruct (tc_diesel c); [ | lra].
    apply Rmult_le_pos; [assumption | ].
    left. apply Rinv_0_lt_compat. assumption.
Qed.

(** C3, amended: for every country with grid losses above -1, a positive
    base-to-peak ratio and non-negative grid and diesel prices, every
    positive number of people and every positive scenario, both modes
    return, and the capital-only LCOE is at most the full LCOE: at each of
    the 10 distances for the grid, and for each off-grid technology. *)
Theorem capital_only_le_full (cs : country_specs) (p : Z) (s : R) :
  (0 < p)%Z -> 0 < s ->
  -1 < spe_grid_losses cs -> 0 < spe_base_to_peak cs ->
  0 <= spe_grid_price cs -> 0 <= spe_diesel_price_low cs ->
  exists d_cap d_full,
    run (get_lcoes cs p s true) = Ok d_cap
    /\ run (get_lcoes cs p s false) = Ok d_full
    /\ (exists gc gf,
          dict_get d_cap GRID = Some (Seq (map Fin gc))
          /\ dict_get d_full GRID = Some (Seq (map Fin gf))
          /\ List.length gc = 10%nat
          /\ Forall2 Rle gc gf)
    /\ forall t, In t techs ->
         exists c f,
           dict_get d_cap t = Some (Scalar (Fin c))
           /\ dict_get d_full t = Some (Scalar (Fin f))
           /\ c <= f.
Proof.
  intros Hp Hs Htl Hb Hgp Hdp.
  assert (Hv : valid_cell cs p s) by (repeat split; assumption).
  destruct (get_lcoes_ok cs p s true Hv) as [_ Hcap].
  destruct (get_lcoes_ok cs p s false Hv) as [_ Hfull].
  do 2 eexists.
  split; [exact Hcap | split; [exact Hfull | split]].
  - do 2 eexists.
    split; [apply dict_get_grid | split; [apply dict_get_grid | split]].
    + reflexivity.
    + apply Forall2_map_le. intros d Hd.
      apply ELEC_DISTANCES_range in Hd.
      apply grid_cap_le_full; try assumption. lia.
  - intros t Ht. destruct (dict_get_tech t Ht) as (c & Hin & Hget).
    do 2 eexists. split; [apply Hget | split; [apply Hget | ]].
    apply tech_cap_le_full; try assumption.
    pose proof tech_table_good as Hgood.
    rewrite Forall_forall in Hgood. apply (Hgood (t, c)). exact Hin.
Qed.

Lemma capital_only_le_full_witness :
  exists d_cap d_full,
    run (get_lcoes fixture_country 1000 1000 true) = Ok d_cap
    /\ run (get_lcoes fixture_country 1000 1000 false) = Ok d_full
    /\ (exists gc gf,
          dict_get d_cap GRID = Some (Seq (map Fin gc))
          /\ dict_get d_full GRID = Some (Seq (map Fin gf))
          /\ List.length gc = 10%nat
          /\ Forall2 Rle gc gf)
    /\ forall t, In t techs ->
         exists c f,
           dict_get d_cap t = Some (Scalar (Fin c))
           /\ dict_get d_full t = Some (Scalar (Fin f))
           /\ c <= f.
Proof.
  apply (capital_only_le_full fixture_country 1000 1000);
    unfold fixture_country; cbn; try lra; lia.
Defined.

(** C4: for every country with grid losses in [0,1) and a base-to-peak
    ratio in (0,1], every sampled number of people and every positive
    scenario, in either mode, the evaluator returns, and the 10 grid LCOE
    values, in the order of the distances 5, 10, ..., 50, are
    non-decreasing; the incremental extension cost itself grows with the
    distance, and neither the sizing nor the fuel cost of a grid call
    depends on the distance. *)
Theorem grid_lcoe_nondecreasing_in_distance (cs : country_specs) (p : Z)
                                            (s : R) (cap : bool) :
  In p people_arr -> 0 < s ->
  0 <= spe_grid_losses cs < 1 -> 0 < spe_base_to_peak cs <= 1 ->
  (exists d vs,
     run (get_lcoes cs p s cap) = Ok d
     /\ dict_get d GRID = Some (Seq (map Fin vs))
     /\ List.length vs = List.length ELEC_DISTANCES
     /\ StronglySorted Rle vs)
  /\ (forall d1 d2 : R,
        0 <= d1 <= d2 ->
        d1 * (mv_line_cost * Rpower (1 + mv_increase_rate) (d1 / 5 - 1))
        <= d2 * (mv_line_cost * Rpower (1 + mv_increase_rate) (d2 / 5 - 1)))
  /\ forall (om gp : R) (d1 d2 : Z),
       let call := grid_call p s om (spe_grid_losses cs)
                             (spe_base_to_peak cs) gp in
       calc_sizing (call d1) = calc_sizing (call d2)
       /\ calc_fuel_cost (call d1) = calc_fuel_cost (call d2).
Proof.
  intros Hin Hs Htl Hb. apply people_arr_range in Hin.
  assert (Hv : valid_cell cs p s) by (repeat split; try lra; lia).
  destruct (get_lcoes_ok cs p s cap Hv) as [_ Hrun].
  split; [ | split;
             [intros d1 d2 Hd; apply (extension_cost_mono d1 d2 Hd)
             | intros om gp d1 d2 call; split; reflexivity]].
  do 2 eexists.
  split; [exact Hrun | split; [apply dict_get_grid | split]].
  - rewrite length_map. reflexivity.
  - apply (StronglySorted_map_mono Z.le); [ | apply ELEC_DISTANCES_sorted].
    intros d d' Hd Hd' Hle. apply ELEC_DISTANCES_range in Hd.
    apply grid_mono_distance; try lra; try lia.
    destruct cap; cbn; lra.
Qed.

Lemma grid_lcoe_nondecreasing_in_distance_witness :
  exists d vs,
    run (get_lcoes fixture_country 1000 1000 false) = Ok d
    /\ dict_get d GRID = Some (Seq (map Fin vs))
    /\ List.length vs = List.length ELEC_DISTANCES
    /\ StronglySorted Rle vs.
Proof.
  apply (grid_lcoe_nondecreasing_in_distance fixture_country 1000 1000 false).
  - apply in_people_arr_1000.
  - lra.
  - unfold fixture_country; cbn; lra.
  - unfold fixture_country; cbn; lra.
Defined.

(** ** The viability table: claim C2 *)

Section Resolver.

Variable p : panels.

Lemma scan_people_find (c : string) (d : Z) (l : list Z)
                       (df : dataframe) :
  scan_people p c d l df
  = match find (viable p c d) l with
    | Some people => df_set df c d (IZR people)
    | None => df
    end.
Proof.
  induction l as [ | x l IH]; cbn [scan_people find]; [reflexivity | ].
  unfold viable at 1. destruct (float_lt _ _); [reflexivity | exact IH].
Qed.

Lemma scan_cell (c : string) (d : Z) (df : dataframe)
                (c' : string) (d' : Z) :
  scan_people p c d people_arr df c' d'
  = if (String.eqb c' c && Z.eqb d' d)%bool
    then cell_after p c d (df c' d') else df c' d'.
Proof.
  rewrite scan_people_find. unfold cell_after.
  destruct (find (viable p c d) people_arr) as [x | ].
  - unfold df_set. destruct (String.eqb c' c && Z.eqb d' d)%bool; reflexivity.
  - destruct (String.eqb c' c && Z.eqb d' d)%bool; reflexivity.
Qed.

Lemma cell_after_idempotent (c : string) (d : Z) (old : R) :
  cell_after p c d (cell_after p c d old) = cell_after p c d old.
Proof.
  unfold cell_after. destruct (find _ _); reflexivity.
Qed.

Lemma distances_cell (c : string) (ds : list Z) (df : dataframe)
                     (c' : string) (d' : Z) :
  fold_left (fun df d => scan_people p c d people_arr df) ds df c' d'
  = if (String.eqb c' c && existsb (Z.eqb d') ds)%bool
    then cell_after p c d' (df c' d') else df c' d'.
Proof.
  revert df. induction ds as [ | d ds IH]; intros df; cbn [fold_left existsb].
  - rewrite andb_false_r. reflexivity.
  - rewrite IH, scan_cell.
    destruct (String.eqb c' c); cbn [andb]; [ | reflexivity].
    destruct (Z.eqb_spec d' d) as [-> | Hne]; cbn [orb].
    + destruct (existsb (Z.eqb d) ds);
        [apply cell_after_idempotent | reflexivity].
    + reflexivity.
Qed.

Lemma countries_cell (cl : list string) (df : dataframe)
                     (c' : string) (d' : Z) :
  fold_left
    (fun df country =>
       fold_left (fun df d => scan_people p country d people_arr df)
                 ELEC_DISTANCES df)
    cl df c' d'
  = if (existsb (String.eqb c') cl && existsb (Z.eqb d') ELEC_DISTANCES)%bool
    then cell_after p c' d' (df c' d') else df c' d'.
Proof.
  revert df. induction cl as [ | c cl IH]; intros df;
    cbn [fold_left existsb]; [reflexivity | ].
  rewrite IH, distances_cell.
  destruct (String.eqb_spec c' c) as [-> | Hne]; cbn [orb andb].
  - destruct (existsb (Z.eqb d') ELEC_DISTANCES).
    + rewrite andb_true_r.
      destruct (existsb (String.eqb c) cl);
        [apply cell_after_idempotent | reflexivity].
    + rewrite andb_false_r. reflexivity.
  - reflexivity.
Qed.

Lemma resolve_grid_cell (cl : list string) (c : string)
                        (d : Z) :
  In c cl -> In d ELEC_DISTANCES ->
  resolve_grid p cl c d = cell_after p c d sentinel.
Proof.
  intros Hc Hd. unfold resolve_grid. rewrite countries_cell.
  assert (H1 : existsb (String.eqb c) cl = true).
  { apply existsb_exists. exists c. split; [exact Hc | apply String.eqb_refl]. }
  assert (H2 : existsb (Z.eqb d) ELEC_DISTANCES = true).
  { apply existsb_exists. exists d. split; [exact Hd | apply Z.eqb_refl]. }
  rewrite H1, H2. reflexivity.
Qed.

End Resolver.

Lemma make_tables_dataframe (scenario : R) (specs : list country_specs)
                            (log log' : list lcoe_args) (p : panels)
                            (df : dataframe) :
  make_tables scenario specs log = (log', Ok (p, df)) ->
  df = resolve_grid p (map spe_country specs).
Proof.
  unfold make_tables, tbind, tret.
  destruct (fill_panels scenario specs log) as [l [q | e]].
  - intros [= _ <- <-]. reflexivity.
  - discriminate.
Qed.

Lemma seq_sorted (a n : nat) : StronglySorted lt (seq a n).
Proof.
  revert a. induction n as [ | n IH]; intros a; cbn [seq].
  - apply SSorted_nil.
  - apply SSorted_cons; [apply IH | ].
    apply Forall_forall. intros x Hx. apply in_seq in Hx. lia.
Qed.

Lemma people_arr_sorted : StronglySorted Z.lt people_arr.
Proof.
  unfold people_arr.
  apply (StronglySorted_map_mono lt); [ | apply seq_sorted].
  intros x y _ _ Hlt. lia.
Qed.

Lemma find_first_sorted (f : Z -> bool) (l : list Z) (x : Z) :
  StronglySorted Z.lt l -> find f l = Some x ->
  In x l /\ f x = true
  /\ forall y, In y l -> (y < x)%Z -> f y = false.
Proof.
  intros Hs. induction Hs as [ | z l Hs IH Hall]; cbn [find].
  - discriminate.
  - destruct (f z) eqn:Hfz.
    + intros [= <-]. split; [left; reflexivity | split; [exact Hfz | ]].
      intros y [-> | Hy] Hlt; [lia | ].
      rewrite Forall_forall in Hall. specialize (Hall y Hy). lia.
    + intros Hfind. destruct (IH Hfind) as (Hin & Hfx & Hmin).
      split; [right; exact Hin | split; [exact Hfx | ]].
      intros y [<- | Hy] Hlt; [exact Hfz | apply Hmin; assumption].
Qed.

Lemma py_min_step (a b : R) :
  (if float_lt (Fin b) (Fin a) then Fin b else Fin a) = Fin (Rmin a b).
Proof.
  cbn [float_lt]. unfold Rmin.
  destruct (Rlt_dec b a), (Rle_dec a b); try reflexivity; f_equal; lra.
Qed.

Lemma py_min_finite (a b c d : R) :
  py_min (Fin a) [Fin b; Fin c; Fin d] = Fin (Rmin (Rmin (Rmin a b) c) d).
Proof.
  unfold py_min. cbn [fold_left]. rewrite !py_min_step. reflexivity.
Qed.

Lemma find_sorted_first (f : Z -> bool) (l : list Z) (x : Z) :
  StronglySorted Z.lt l -> In x l -> f x = true ->
  (forall y, In y l -> (y < x)%Z -> f y = false) ->
  find f l = Some x.
Proof.
  intros Hs Hin Hfx Hmin. destruct (find f l) as [y | ] eqn:Hfind.
  - destruct (find_first_sorted f l y Hs Hfind) as (Hy & Hfy & Hminy).
    destruct (Z.lt_trichotomy y x) as [Hlt | [-> | Hgt]].
    + rewrite (Hmin y Hy Hlt) in Hfy. discriminate.
    + reflexivity.
    + rewrite (Hminy x Hin Hgt) in Hfx. discriminate.
  - rewrite (find_none _ _ Hfind x Hin) in Hfx. discriminate.
Qed.

Lemma viable_threshold_panels (c : string) (d people : Z) :
  viable threshold_panels c d people = (10 * d <? people)%Z.
Proof.
  unfold viable, min_lcoe_techs, threshold_panels.
  cbn [grid_lcoes tech_lcoes float_add float_half].
  rewrite py_min_finite.
  set (a := IZR people / 10).
  replace (Rmin (Rmin (Rmin a a) ((a + a) / 2)) a) with a.
  2:{ replace ((a + a) / 2) with a by lra.
      assert (Hmin : Rmin a a = a) by (apply Rmin_left; lra).
      rewrite !Hmin. reflexivity. }
  unfold float_lt, a.
  destruct (Rlt_dec (IZR d) (IZR people / 10)) as [Hlt | Hge];
    symmetry; [apply Z.ltb_lt | apply Z.ltb_ge].
  - apply lt_IZR. rewrite mult_IZR. lra.
  - apply le_IZR. rewrite mult_IZR. lra.
Qed.

Lemma in_people_arr_threshold (d : Z) :
  In d ELEC_DISTANCES -> In (10 * d + 10)%Z people_arr.
Proof.
  intros Hd. apply ELEC_DISTANCES_range in Hd.
  unfold people_arr. apply in_map_iff. exists (Z.to_nat (d + 1)).
  split; [lia | apply in_seq; lia].
Qed.

Lemma people_arr_multiple (people : Z) :
  In people people_arr -> exists k : Z, people = (10 * k)%Z.
Proof.
  unfold people_arr. intros Hin. apply in_map_iff in Hin.
  destruct Hin as (x & <- & _). exists (Z.of_nat x). reflexivity.
Qed.

(** The table of [threshold_panels]: the threshold at distance [d] is
    [10 * d + 10] people. *)
Lemma resolve_threshold_panels (countries : list string) (c : string)
                               (d : Z) :
  In c countries -> In d ELEC_DISTANCES ->
  resolve_grid threshold_panels countries c d = IZR (10 * d + 10).
Proof.
  intros Hc Hd. rewrite (resolve_grid_cell _ _ _ _ Hc Hd). unfold cell_after.
  rewrite (find_sorted_first _ _ (10 * d + 10)%Z people_arr_sorted).
  - reflexivity.
  - apply in_people_arr_threshold. exact Hd.
  - rewrite viable_threshold_panels. apply Z.ltb_lt. lia.
  - intros y Hy Hlt. rewrite viable_threshold_panels. apply Z.ltb_ge.
    destruct (people_arr_multiple y Hy) as [k ->]. lia.
Qed.

Lemma in_fixture : In "Fixture"%string ["Fixture"%string].
Proof. left. reflexivity. Qed.

Lemma in_ELEC_DISTANCES_5 : In 5%Z ELEC_DISTANCES.
Proof. unfold ELEC_DISTANCES. cbn [seq map]. left. reflexivity. Qed.

Lemma in_ELEC_DISTANCES_10 : In 10%Z ELEC_DISTANCES.
Proof. unfold ELEC_DISTANCES. cbn [seq map]. right. left. reflexivity. Qed.

(** C2: for every country of the run and each of the 10 distances, the
    cell of the viability table is decided by a scan of the 400 sampled
    numbers of people in ascending order.  The minimum [min_lcoe_techs] at a
    number of people is taken over mini-grid diesel, mini-grid wind with
    capacity factor 0.3, the arithmetic mean of the two stand-alone PV
    values, and mini-grid hydro.  Either no sample has a grid LCOE strictly
    below this minimum and the cell keeps the sentinel 1e9, or the cell is
    the first such sample: the test holds there and fails at every smaller
    sample. *)
Theorem grid_viability_first_density (p : panels) (countries : list string)
                                     (country : string) (d : Z) :
  In country countries -> In d ELEC_DISTANCES ->
  let below people :=
    float_lt (grid_lcoes p country people d)
             (min_lcoe_techs (tech_lcoes p) country people) in
  let cell := resolve_grid p countries country d in
  List.length people_arr = 400%nat
  /\ StronglySorted Z.lt people_arr
  /\ (forall people,
        min_lcoe_techs (tech_lcoes p) country people
        = py_min (tech_lcoes p country people MG_DIESEL)
                 [tech_lcoes p country people MG_WIND_MID;
                  float_half (float_add (tech_lcoes p country people SA_PV_LOW)
                                        (tech_lcoes p country people
                                                    SA_PV_HIGH));
                  tech_lcoes p country people MG_HYDRO])
  /\ (forall people dsl wnd pvl pvh hyd,
        tech_lcoes p country people MG_DIESEL = Fin dsl ->
        tech_lcoes p country people MG_WIND_MID = Fin wnd ->
        tech_lcoes p country people SA_PV_LOW = Fin pvl ->
        tech_lcoes p country people SA_PV_HIGH = Fin pvh ->
        tech_lcoes p country people MG_HYDRO = Fin hyd ->
        min_lcoe_techs (tech_lcoes p) country people
        = Fin (Rmin (Rmin (Rmin dsl wnd) ((pvl + pvh) / 2)) hyd))
  /\ ((cell = sentinel
       /\ forall people, In people people_arr -> below people = false)
      \/ exists people,
           In people people_arr
           /\ cell = IZR people
           /\ cell < sentinel
           /\ below people = true
           /\ forall people',
                In people' people_arr -> (people' < people)%Z ->
                below people' = false).
Proof.
  intros Hc Hd below cell.
  split; [reflexivity | split; [apply people_arr_sorted | ]].
  split; [intros people; reflexivity | split].
  - intros people dsl wnd pvl pvh hyd H1 H2 H3 H4 H5.
    unfold min_lcoe_techs. rewrite H1, H2, H3, H4, H5.
    cbn [float_add float_half]. apply py_min_finite.
  - unfold cell. rewrite (resolve_grid_cell p countries country d Hc Hd).
    unfold cell_after.
    destruct (find (viable p country d) people_arr) as [x | ] eqn:Hfind.
    + right. exists x.
      destruct (find_first_sorted _ _ _ people_arr_sorted Hfind)
        as (Hin & Hx & Hmin).
      split; [exact Hin | split; [reflexivity | split]].
      * apply people_arr_range in Hin. unfold sentinel.
        apply IZR_lt. lia.
      * split; [exact Hx | exact Hmin].
    + left. split; [reflexivity | ].
      intros people Hin. apply (find_none _ _ Hfind people Hin).
Qed.

Lemma grid_viability_first_density_witness :
  let c := "Fixture"%string in
  let below people :=
    float_lt (grid_lcoes threshold_panels c people 5%Z)
             (min_lcoe_techs (tech_lcoes threshold_panels) c people)
  in
  resolve_grid threshold_panels [c] c 5%Z = 60
  /\ below 60%Z = true
  /\ forall people, In people people_arr -> (people < 60)%Z ->
                    below people = false.
Proof.
  intros c below.
  assert (Hb : forall people, below people = (50 <? people)%Z).
  { intros people. apply (viable_threshold_panels c 5%Z people). }
  assert (H60 : In 60%Z people_arr).
  { apply (in_people_arr_threshold 5). apply in_ELEC_DISTANCES_5. }
  pose proof (grid_viability_first_density threshold_panels
                ["Fixture"%string] "Fixture"%string 5%Z
                in_fixture in_ELEC_DISTANCES_5) as H.
  cbv zeta in H.
  destruct H as (_ & _ & _ & _
                 & [[_ Hall] | (people & Hin & Hcell & _ & Htrue & Hmin)]).
  - specialize (Hall 60%Z H60). change (below 60%Z = false) in Hall.
    rewrite Hb in Hall. discriminate.
  - change (below people = true) in Htrue. rewrite Hb in Htrue.
    apply Z.ltb_lt in Htrue.
    assert (Hle : (people <= 60)%Z).
    { destruct (Z_le_gt_dec people 60) as [Hle | Hgt]; [exact Hle | ].
      specialize (Hmin 60%Z H60 ltac:(lia)).
      change (below 60%Z = false) in Hmin.
      rewrite Hb in Hmin. discriminate. }
    destruct (people_arr_multiple people Hin) as [k Hk].
    assert (Hp : people = 60%Z) by lia.
    rewrite Hp in Hcell, Hmin.
    split; [exact Hcell | split; [rewrite Hb; reflexivity | ]].
    intros people' Hin' Hlt. apply (Hmin people' Hin' Hlt).
Defined.

(** ** Edge cases of the cost model *)


Lemma math_sqrt_negative (x : R) : x < 0 -> math_sqrt x = Raise ValueError.
Proof.
  intros Hx. unfold math_sqrt. destruct (Rlt_dec x 0); [reflexivity | lra].
Qed.

Lemma calc_sizing_zero_load (a : lcoe_args) :
  IZR (people a * 100) / NUM_PEOPLE_PER_HH * scenario a
  * (1 + distribution_losses a) / HOURS_PER_YEAR = 0 ->
  calc_sizing a = Raise ZeroDivisionError.
Proof.
  intros Hz. unfold calc_sizing. cbv zeta. rewrite Hz.
  unfold truediv at 1.
  destruct (Req_dec_T (base_to_peak_load_ratio a) 0); [reflexivity | ].
  rewrite bind_ok.
  replace (0 / base_to_peak_load_ratio a / mv_line_capacity) with 0
    by (unfold mv_line_capacity; field; assumption).
  rewrite Zceil_zero, truediv_zero. reflexivity.
Qed.




Lemma Zceil_negative (x : R) : x <= -1 -> (Zceil x < 0)%Z.
Proof.
  intros Hx. destruct (Zceil_bound x) as [Hlo _].
  apply lt_IZR. lra.
Qed.

(** With a negative number of people and a capacity factor of 0 the
    exception is not a division by zero: the divisions of the sizing before
    line 350 succeed, and the square root of the negative area per household
    raises ValueError. *)
Lemma negative_people_zero_capacity_raises_value_error :
  calc_lcoe (tech_call (-1000) 1000 (3 / 100) 0 (5 / 100) 3000 (2 / 100)
                       (75 / 100) 20 0 1 0 false false)
  = Raise ValueError.
Proof.
  unfold calc_lcoe, calc_sizing, tech_call.
  cbn [people scenario distribution_losses base_to_peak_load_ratio].
  cbv zeta.
  unfold NUM_PEOPLE_PER_HH, HOURS_PER_YEAR, mv_line_capacity,
    lv_line_capacity, grid_cell_area.
  replace (IZR (-1000 * 100)) with (-100000) by (simpl; lra).
  rewrite truediv_ok by lra. rewrite bind_ok.
  set (peak := -100000 / 5 * 1000 * (1 + 5 / 100) / 8760 / (75 / 100)).
  assert (Hpeak : peak <= -3000) by (unfold peak; lra).
  assert (Hmv : (Zceil (peak / 50) < 0)%Z) by (apply Zceil_negative; lra).
  assert (Hlv : (Zceil (peak / 10) < 0)%Z) by (apply Zceil_negative; lra).
  assert (Hmv' : IZR (Zceil (peak / 50)) <> 0).
  { apply IZR_lt in Hmv. lra. }
  rewrite !(truediv_ok _ (IZR (Zceil (peak / 50)))) by assumption.
  rewrite !bind_ok.
  set (lim := Rmax _ _).
  assert (Hact : (Zceil (Rmin (-100000 / 5) lim) < 0)%Z).
  { apply Zceil_negative. pose proof (Rmin_l (-100000 / 5) lim). lra. }
  rewrite truediv_ok.
  2:{ apply not_0_IZR. nia. }
  rewrite bind_ok, truediv_ok by lra. rewrite bind_ok.
  rewrite math_sqrt_negative by lra. reflexivity.
Qed.

(** X2: a call with no demand (a scenario of 0 or distribution losses of -1)
    or with a base-to-peak ratio of 0 raises ZeroDivisionError, whatever the
    other arguments are. *)
Theorem calc_lcoe_zero_demand_raises (a : lcoe_args) :
  scenario a = 0 \/ distribution_losses a = -1
  \/ base_to_peak_load_ratio a = 0 ->
  calc_lcoe a = Raise ZeroDivisionError.
Proof.
  intros H. unfold calc_lcoe.
  assert (Hs : calc_sizing a = Raise ZeroDivisionError).
  { destruct H as [H | [H | H]].
    - apply calc_sizing_zero_load. rewrite H.
      unfold NUM_PEOPLE_PER_HH, HOURS_PER_YEAR. field.
    - apply calc_sizing_zero_load. rewrite H.
      unfold NUM_PEOPLE_PER_HH, HOURS_PER_YEAR. field.
    - unfold calc_sizing. cbv zeta. rewrite H, truediv_zero. reflexivity. }
  rewrite Hs. reflexivity.
Qed.

Lemma calc_lcoe_zero_demand_raises_witness :
  calc_lcoe (grid_call 10 0 (3 / 100) (8 / 100) (8 / 10) (15 / 100) 5)
  = Raise ZeroDivisionError.
Proof.
  apply (calc_lcoe_zero_demand_raises
           (grid_call 10 0 (3 / 100) (8 / 100) (8 / 10) (15 / 100) 5)).
  left. reflexivity.
Defined.

Lemma calc_rollup_negative_life (inv om fuel gen : R) (L : Z) :
  (L < 0)%Z ->
  calc_rollup inv om fuel gen L
  = Raise (if (L <? -1)%Z then ValueError else IndexError).
Proof.
  intros HL. unfold calc_rollup, np_full.
  destruct (L <? -1)%Z eqn:Hlt.
  - apply Z.ltb_lt in Hlt.
    replace (L + 1 <? 0)%Z with true by (symmetry; apply Z.ltb_lt; lia).
    reflexivity.
  - apply Z.ltb_ge in Hlt. assert (L = (-1)%Z) as -> by lia. reflexivity.
Qed.

(** X3: with arguments for which the sizing and the costs are computed, a
    system life below 0 raises: the arrays of the roll-up would have a
    negative length (ValueError) or, at a system life of -1, are empty and
    the assignment to their first element fails (IndexError). *)
Theorem calc_lcoe_negative_system_life_raises (a : lcoe_args) :
  valid_load a ->
  (grid a = false -> capacity_factor a <> 0) ->
  (diesel a = true -> efficiency a <> 0) ->
  (system_life a < 0)%Z ->
  calc_lcoe a
  = Raise (if (system_life a <? -1)%Z then ValueError else IndexError).
Proof.
  intros Hload Hcf Heff HL.
  destruct (calc_sizing_ok a Hload) as (s & Hs & _).
  unfold calc_lcoe. rewrite Hs, bind_ok.
  rewrite (calc_investment_ok a s Hcf), bind_ok.
  rewrite (calc_fuel_cost_ok a Heff), bind_ok.
  apply calc_rollup_negative_life. assumption.
Qed.

Lemma mg_wind_life_call_load (L : Z) : valid_load (mg_wind_life_call L).
Proof.
  unfold valid_load, mg_wind_life_call. cbn. repeat split; try lra; lia.
Qed.

Lemma calc_lcoe_negative_system_life_raises_witness :
  calc_lcoe (mg_wind_life_call (-1)) = Raise IndexError
  /\ calc_lcoe (mg_wind_life_call (-2)) = Raise ValueError.
Proof.
  split.
  - apply (calc_lcoe_negative_system_life_raises (mg_wind_life_call (-1)));
      [apply mg_wind_life_call_load | cbn; lra | discriminate | cbn; lia].
  - apply (calc_lcoe_negative_system_life_raises (mg_wind_life_call (-2)));
      [apply mg_wind_life_call_load | cbn; lra | discriminate | cbn; lia].
Defined.

(** X4: with a system life of 0 the call returns, but not a number: the
    discounted generation sums to 0 and the numpy division yields an
    infinity or NaN (plus infinity when the investment is positive). *)
Theorem calc_lcoe_zero_system_life_not_finite (a : lcoe_args) :
  valid_load a ->
  (grid a = false -> capacity_factor a <> 0) ->
  (diesel a = true -> efficiency a <> 0) ->
  system_life a = 0%Z ->
  exists s investment om x,
    calc_sizing a = Ok s
    /\ calc_investment a s = Ok (investment, om)
    /\ calc_lcoe a = Ok x
    /\ (forall r, x <> Fin r)
    /\ (0 < investment -> x = PInf).
Proof.
  intros Hload Hcf Heff HL.
  destruct (calc_sizing_ok a Hload) as (s & Hs & _).
  exists s, (investment_of a s), (om_of a s),
         (np_truediv (investment_of a s) 0).
  split; [exact Hs | split; [apply calc_investment_ok; exact Hcf | ]].
  split; [ | split].
  - unfold calc_lcoe. rewrite Hs, bind_ok.
    rewrite (calc_investment_ok a s Hcf), bind_ok.
    rewrite (calc_fuel_cost_ok a Heff), bind_ok.
    cbn [fst snd]. rewrite HL, calc_rollup_eq by lia.
    change (Z.to_nat 0) with 0%nat. unfold annuity, annuity_from.
    cbn [seq map np_sum fold_right]. rewrite !Rmult_0_r, Rplus_0_r.
    reflexivity.
  - intros r. unfold np_truediv.
    destruct (Req_dec_T 0 0) as [_ | Hne]; [ | now elim Hne].
    destruct (Req_dec_T _ 0); [discriminate | ].
    destruct (Rlt_dec 0 _); discriminate.
  - intros Hpos. unfold np_truediv.
    destruct (Req_dec_T 0 0) as [_ | Hne]; [ | now elim Hne].
    destruct (Req_dec_T _ 0); [lra | ].
    destruct (Rlt_dec 0 _); [reflexivity | contradiction].
Qed.

Lemma calc_lcoe_zero_system_life_not_finite_witness :
  exists x, calc_lcoe (mg_wind_life_call 0) = Ok x /\ forall r, x <> Fin r.
Proof.
  destruct (calc_lcoe_zero_system_life_not_finite (mg_wind_life_call 0))
    as (s & inv & om & x & _ & _ & Hx & Hnf & _).
  - apply mg_wind_life_call_load.
  - cbn. lra.
  - discriminate.
  - reflexivity.
  - exists x. split; assumption.
Defined.

(** ** The network sizing *)

Lemma Zceil_IZR (z : Z) : Zceil (IZR z) = z.
Proof. apply Zceil_eq. lra. Qed.

Lemma calc_sizing_detail (a : lcoe_args) :
  valid_load a -> exists s, calc_sizing a = Ok s /\ sizing_detail a s.
Proof.
  intros (Hp & Hs & Hd & Hb).
  assert (Hppl : 0 < IZR (people a * 100)).
  { apply IZR_lt. lia. }
  unfold calc_sizing. cbv zeta.
  set (ppl := IZR (people a * 100)) in *.
  set (hh := ppl / NUM_PEOPLE_PER_HH).
  assert (Hhh : 0 < hh).
  { unfold hh, NUM_PEOPLE_PER_HH. lra. }
  set (avg := hh * scenario a * (1 + distribution_losses a) / HOURS_PER_YEAR).
  assert (Havg : 0 < avg).
  { unfold avg, HOURS_PER_YEAR. apply Rdiv_lt_0_compat; [ | lra].
    apply Rmult_lt_0_compat; [ | lra]. apply Rmult_lt_0_compat; assumption. }
  ok_truediv; [ | lra].
  set (peak := avg / base_to_peak_load_ratio a).
  assert (Hpeak : 0 < peak).
  { unfold peak. apply Rdiv_lt_0_compat; assumption. }
  set (nmv := Zceil (peak / mv_line_capacity)).
  assert (Hnmv : (1 <= nmv)%Z).
  { apply Zceil_pos. unfold mv_line_capacity. lra. }
  set (nlv := Zceil (peak / lv_line_capacity)).
  assert (Hmvlv : (nmv <= nlv)%Z).
  { apply Zceil_le. unfold mv_line_capacity, lv_line_capacity. lra. }
  assert (Hnlv : (1 <= nlv)%Z) by lia.
  pose proof (IZR_ge_1 _ Hnmv) as Hnmv'.
  pose proof (IZR_ge_1 _ Hnlv) as Hnlv'.
  ok_truediv; [ | lra].
  set (cap := IZR nlv / IZR nmv).
  assert (Hcap : 0 < cap).
  { unfold cap. apply Rdiv_lt_0_compat; lra. }
  ok_truediv; [ | lra].
  set (apm := grid_cell_area / IZR nmv).
  assert (Hapm : 0 < apm).
  { unfold apm, grid_cell_area. apply Rdiv_lt_0_compat; lra. }
  set (len := (apm / (lv_line_max_length / sqrt 2)) ^ 2).
  set (act := Zceil (Rmin hh (Rmax cap len))).
  assert (Hact : (1 <= act)%Z).
  { apply Zceil_pos. apply Rmin_glb_lt; [assumption | ].
    pose proof (Rmax_l cap len). lra. }
  assert (Hact_hh : (act <= Zceil hh)%Z).
  { apply Zceil_le. apply Rmin_l. }
  assert (Hprod : 0 < IZR (act * nmv)).
  { apply IZR_lt. lia. }
  ok_truediv; [ | lra].
  ok_truediv; [ | lra].
  assert (Haph : 0 < grid_cell_area / hh).
  { unfold grid_cell_area. apply Rdiv_lt_0_compat; lra. }
  ok_sqrt; [ | lra].
  rewrite bind_ok; cbv beta.
  assert (Hapl : 0 < grid_cell_area / IZR nlv).
  { unfold grid_cell_area. apply Rdiv_lt_0_compat; lra. }
  ok_truediv; [ | lra].
  ok_sqrt; [ | lra].
  pose proof (sqrt_lt_R0 _ Hapl) as Hrl.
  ok_truediv; [ | lra].
  set (line_reach := apm / (2 * sqrt (grid_cell_area / IZR nlv))).
  assert (Hreach : 0 < line_reach).
  { unfold line_reach. apply Rdiv_lt_0_compat; lra. }
  assert (Hmin : 0 < Rmin line_reach mv_line_max_length).
  { apply Rmin_glb_lt; [assumption | unfold mv_line_max_length; lra]. }
  ok_truediv; [ | lra].
  set (hv := Rmax 0 (round_ndigits
                       (sqrt grid_cell_area
                        / (2 * Rmin line_reach mv_line_max_length) / 10) 3
                     - 1)).
  assert (Hhv : 0 <= hv) by apply Rmax_l.
  eexists. split; [reflexivity | ].
  constructor;
    unfold line_reach_of, additional_hv_lines_of;
    cbn [households peak_load no_mv_lines no_lv_lines actual_lv_lines
         total_lv_lines_length total_length_of_lines hv_lines_total_length
         num_transformers]; try reflexivity; try assumption; try lia.
  pose proof (IZR_ge_1 _ Hact) as Hact'.
  rewrite !mult_IZR. field. lra.
Qed.

(** X5: for a valid load the sizing returns, and the line counts it computes
    are consistent: at least one MV line and no more MV lines than LV lines;
    at least one LV network per MV line and no more than the number of
    households rounded up; an MV length of at most [mv_line_max_length] per
    MV line; and at least one transformer per MV line and per LV network. *)
Theorem calc_sizing_line_counts (a : lcoe_args) :
  (0 < people a)%Z -> 0 < scenario a -> -1 < distribution_losses a ->
  0 < base_to_peak_load_ratio a ->
  exists s,
    calc_sizing a = Ok s
    /\ no_mv_lines s = Zceil (peak_load s / mv_line_capacity)
    /\ no_lv_lines s = Zceil (peak_load s / lv_line_capacity)
    /\ (1 <= no_mv_lines s <= no_lv_lines s)%Z
    /\ (1 <= actual_lv_lines s <= Zceil (households s))%Z
    /\ 0 < total_length_of_lines s
           <= mv_line_max_length * IZR (no_mv_lines s)
    /\ (no_mv_lines s + no_mv_lines s * actual_lv_lines s
        <= num_transformers s)%Z.
Proof.
  intros Hp Hs Hd Hb.
  destruct (calc_sizing_detail a) as (s & Hsz & D);
    [repeat split; assumption | ].
  exists s. split; [exact Hsz | ].
  destruct D as [_ _ _ Hnmv Hnlv Hmvlv Hact _ Hreach Hlen _ Htr].
  pose proof (IZR_ge_1 _ (proj1 Hmvlv)) as Hmv.
  split; [assumption | split; [assumption | ]].
  split; [assumption | split; [assumption | split; [split | ]]].
  - rewrite Hlen. apply Rmult_lt_0_compat; [ | lra].
    apply Rmin_glb_lt; [assumption | unfold mv_line_max_length; lra].
  - rewrite Hlen. apply Rmult_le_compat_r; [lra | apply Rmin_r].
  - rewrite Htr.
    rewrite <- (Zceil_IZR (no_mv_lines s + no_mv_lines s * actual_lv_lines s)).
    apply Zceil_le. rewrite plus_IZR.
    pose proof (Rmax_l 0 (round_ndigits
                            (sqrt grid_cell_area
                             / (2 * Rmin (line_reach_of s) mv_line_max_length)
                             / 10) 3 - 1)) as Hhv.
    unfold additional_hv_lines_of. lra.
Qed.

Lemma calc_sizing_line_counts_witness :
  exists s,
    calc_sizing (mg_wind_call (3 / 10)) = Ok s
    /\ (1 <= no_mv_lines s <= no_lv_lines s)%Z.
Proof.
  destruct (calc_sizing_line_counts (mg_wind_call (3 / 10)))
    as (s & Hs & _ & _ & Hmv & _).
  - cbn. lia.
  - cbn. lra.
  - cbn. lra.
  - cbn. lra.
  - exists s. split; assumption.
Defined.

(** X6: for a valid load the total LV line length depends on the number of
    households only: the numbers of MV lines and of LV networks cancel, and
    the length is 1.333 times the households times the unit length
    sqrt(grid_cell_area / households) * sqrt(2) / 2; scenario, losses and
    base-to-peak ratio have no effect on it. *)
Theorem total_lv_lines_length_closed_form (a : lcoe_args) :
  (0 < people a)%Z -> 0 < scenario a -> -1 < distribution_losses a ->
  0 < base_to_peak_load_ratio a ->
  exists s,
    calc_sizing a = Ok s
    /\ households s = IZR (people a * 100) / NUM_PEOPLE_PER_HH
    /\ total_lv_lines_length s
       = 1333 / 1000 * households s
         * (sqrt (grid_cell_area / households s) * sqrt 2 / 2).
Proof.
  intros Hp Hs Hd Hb.
  destruct (calc_sizing_detail a) as (s & Hsz & D);
    [repeat split; assumption | ].
  exists s. destruct D as [Hhh _ _ _ _ _ _ Hlv _ _ _ _].
  repeat split; assumption.
Qed.

Lemma total_lv_lines_length_closed_form_witness :
  exists s,
    calc_sizing (mg_wind_call (3 / 10)) = Ok s
    /\ households s = IZR (10 * 100) / NUM_PEOPLE_PER_HH
    /\ total_lv_lines_length s
       = 1333 / 1000 * households s
         * (sqrt (grid_cell_area / households s) * sqrt 2 / 2).
Proof.
  apply (total_lv_lines_length_closed_form (mg_wind_call (3 / 10)));
    cbn; try lra; lia.
Defined.

Lemma round_half_even_le (y : R) (n : Z) :
  y <= IZR n -> (round_half_even y <= n)%Z.
Proof.
  intros Hy. unfold round_half_even.
  destruct (Zfloor_bound y) as [Hlo Hhi].
  assert (Hf : (Zfloor y <= n)%Z) by (apply le_IZR; lra).
  assert (Hup : 1 / 2 <= y - IZR (Zfloor y) -> (Zfloor y + 1 <= n)%Z).
  { intros Hfrac. assert (IZR (Zfloor y) < IZR n) by lra.
    apply lt_IZR in H. lia. }
  destruct (Rlt_dec (y - IZR (Zfloor y)) (1 / 2)); [exact Hf | ].
  destruct (Rlt_dec (1 / 2) (y - IZR (Zfloor y))); [apply Hup; lra | ].
  destruct (Z.even (Zfloor y)); [exact Hf | apply Hup; lra].
Qed.

Lemma round_ndigits_le_1 (x : R) : x <= 1 -> round_ndigits x 3 <= 1.
Proof.
  intros Hx. unfold round_ndigits.
  replace (10 ^ 3) with 1000 by (cbn [pow]; lra).
  assert (Hr : (round_half_even (x * 1000) <= 1000)%Z).
  { apply round_half_even_le. lra. }
  apply IZR_le in Hr. lra.
Qed.

Lemma sqrt_le_self (y : R) : 1 <= y -> sqrt y <= y.
Proof.
  intros Hy.
  assert (H1 : 1 <= sqrt y).
  { rewrite <- sqrt_1. apply sqrt_le_1_alt. exact Hy. }
  pose proof (sqrt_sqrt y ltac:(lra)) as Hsq. nra.
Qed.

(** X7: for a valid load that needs at most 100 MV lines (a peak load of at
    most 5000 kW), the sizing adds no HV line: the HV line length is 0 and
    the number of transformers is exactly one per MV line plus one per LV
    network. *)
Theorem no_hv_lines_up_to_100_mv_lines (a : lcoe_args) :
  (0 < people a)%Z -> 0 < scenario a -> -1 < distribution_losses a ->
  0 < base_to_peak_load_ratio a ->
  exists s,
    calc_sizing a = Ok s
    /\ no_mv_lines s = Zceil (peak_load s / mv_line_capacity)
    /\ ((no_mv_lines s <= 100)%Z ->
        hv_lines_total_length s = 0
        /\ num_transformers s
           = (no_mv_lines s + no_mv_lines s * actual_lv_lines s)%Z).
Proof.
  intros Hp Hs Hd Hb.
  destruct (calc_sizing_detail a) as (s & Hsz & D);
    [repeat split; assumption | ].
  exists s. split; [exact Hsz | ].
  destruct D as [_ _ _ Hnmv _ [Hmv Hmvlv] _ _ _ _ Hhvlen Htr].
  split; [assumption | ]. intros H100.
  pose proof (IZR_ge_1 _ Hmv) as HM.
  assert (HL : IZR (no_mv_lines s) <= IZR (no_lv_lines s))
    by (apply IZR_le; exact Hmvlv).
  assert (HM100 : IZR (no_mv_lines s) <= 100) by (apply IZR_le; exact H100).
  set (M := IZR (no_mv_lines s)) in *.
  set (L := IZR (no_lv_lines s)) in *.
  assert (Hy : 1 <= grid_cell_area / M).
  { unfold grid_cell_area. apply Rmult_le_reg_r with M; [lra | ].
    field_simplify; lra. }
  assert (HxL : 0 < grid_cell_area / L).
  { unfold grid_cell_area. apply Rdiv_lt_0_compat; lra. }
  assert (HLM : grid_cell_area / L <= grid_cell_area / M).
  { unfold grid_cell_area, Rdiv. apply Rmult_le_compat_l; [lra | ].
    apply Rinv_le_contravar; lra. }
  assert (Hr : sqrt (grid_cell_area / L) <= grid_cell_area / M).
  { apply Rle_trans with (sqrt (grid_cell_area / M)).
    - apply sqrt_le_1_alt. exact HLM.
    - apply sqrt_le_self. exact Hy. }
  pose proof (sqrt_lt_R0 _ HxL) as Hrpos.
  assert (Hreach : 1 / 2 <= line_reach_of s).
  { unfold line_reach_of. fold M L.
    apply Rmult_le_reg_r with (2 * sqrt (grid_cell_area / L)); [lra | ].
    field_simplify; lra. }
  assert (Hmin : 1 / 2 <= Rmin (line_reach_of s) mv_line_max_length).
  { apply Rmin_glb; [exact Hreach | unfold mv_line_max_length; lra]. }
  assert (Hs100 : sqrt grid_cell_area = 10).
  { unfold grid_cell_area. replace 100 with (10 * 10) by lra.
    apply sqrt_square. lra. }
  assert (Hhv : additional_hv_lines_of s = 0).
  { unfold additional_hv_lines_of. apply Rmax_left.
    set (m := Rmin (line_reach_of s) mv_line_max_length) in *.
    assert (Hx : sqrt grid_cell_area / (2 * m) / 10 <= 1).
    { rewrite Hs100. apply Rmult_le_reg_r with (2 * m); [lra | ].
      field_simplify; lra. }
    pose proof (round_ndigits_le_1 _ Hx). lra. }
  split.
  - rewrite Hhvlen, Hhv. ring.
  - rewrite Htr, Hhv, Rplus_0_l. unfold M.
    rewrite <- plus_IZR. apply Zceil_IZR.
Qed.

Lemma no_hv_lines_up_to_100_mv_lines_witness :
  exists s,
    calc_sizing (mg_wind_call (3 / 10)) = Ok s
    /\ no_mv_lines s = Zceil (peak_load s / mv_line_capacity).
Proof.
  destruct (no_hv_lines_up_to_100_mv_lines (mg_wind_call (3 / 10)))
    as (s & Hs & Hmv & _).
  - cbn. lia.
  - cbn. lra.
  - cbn. lra.
  - cbn. lra.
  - exists s. split; assumption.
Defined.

(** ** The LCOE in closed form *)

Lemma annuity_from_snoc (k m : nat) :
  annuity_from k (S m)
  = annuity_from k m + / (1 + discount_rate) ^ (k + m).
Proof.
  unfold annuity_from. rewrite seq_S, map_app, np_sum_app.
  cbn [map]. rewrite np_sum_cons. cbn [np_sum fold_right]. lra.
Qed.

Lemma annuity_closed_form (m : nat) :
  annuity m = (1 - / (1 + 8 / 100) ^ m) / (8 / 100).
Proof.
  unfold annuity. induction m as [ | m IH].
  - unfold annuity_from. cbn. field.
  - rewrite annuity_from_snoc, IH. unfold discount_rate.
    cbn [Nat.add pow].
    pose proof (discount_pow_pos m) as Hq. unfold discount_rate in Hq.
    field. lra.
Qed.

Lemma annuity_recovery (m : nat) :
  (1 <= m)%nat -> / annuity m = capital_recovery_factor m.
Proof.
  intros Hm. pose proof (annuity_pos m Hm) as HA.
  rewrite annuity_closed_form in *. unfold capital_recovery_factor.
  set (x := / (1 + 8 / 100) ^ m) in *.
  assert (Hn : 1 - x <> 0).
  { intros H0. rewrite H0 in HA. lra. }
  field. lra.
Qed.

(** X8: for valid arguments the value returned is the annuitised formula:
    the investment times the capital recovery factor over system_life years
    at 8%, plus the annual O&M cost, both per unit of annual generation,
    plus the fuel cost per unit of energy. *)
Theorem calc_lcoe_annuitised (a : lcoe_args) :
  (0 < people a)%Z -> 0 < scenario a -> -1 < distribution_losses a ->
  0 < base_to_peak_load_ratio a -> (1 <= system_life a)%Z ->
  (grid a = false -> capacity_factor a <> 0) ->
  (diesel a = true -> efficiency a <> 0) ->
  exists s investment om fuel_cost,
    calc_sizing a = Ok s
    /\ calc_investment a s = Ok (investment, om)
    /\ calc_fuel_cost a = Ok fuel_cost
    /\ calc_lcoe a
       = Ok (Fin (investment
                  * capital_recovery_factor (Z.to_nat (system_life a))
                  / generation_per_year s
                  + om / generation_per_year s
                  + fuel_cost)).
Proof.
  intros Hp Hs Hd Hb Hl Hcf He.
  assert (Hv : valid_args a) by (repeat split; assumption).
  destruct (calc_lcoe_ok a Hv) as (s & Hsz & Hok & H).
  exists s, (investment_of a s), (om_of a s), (fuel_of a).
  split; [exact Hsz | ].
  split; [apply calc_investment_ok; exact Hcf | ].
  split; [apply calc_fuel_cost_ok; exact He | ].
  rewrite H, dcf_ratio_eq. do 2 f_equal.
  pose proof (so_generation_pos a s Hok) as Hg.
  assert (Hm : (1 <= Z.to_nat (system_life a))%nat) by lia.
  pose proof (annuity_pos _ Hm) as HA.
  rewrite <- (annuity_recovery _ Hm). field. lra.
Qed.

Lemma calc_lcoe_annuitised_witness :
  exists s investment om fuel_cost,
    calc_sizing (mg_wind_call (3 / 10)) = Ok s
    /\ calc_investment (mg_wind_call (3 / 10)) s = Ok (investment, om)
    /\ calc_fuel_cost (mg_wind_call (3 / 10)) = Ok fuel_cost
    /\ calc_lcoe (mg_wind_call (3 / 10))
       = Ok (Fin (investment * capital_recovery_factor 20
                  / generation_per_year s
                  + om / generation_per_year s
                  + fuel_cost)).
Proof.
  apply (calc_lcoe_annuitised (mg_wind_call (3 / 10)));
    cbn; try lra; try lia; discriminate.
Defined.

Lemma grid_full_from_cap (cs : country_specs) (p : Z) (s : R) (d : Z) :
  valid_cell cs p s ->
  lcoe_val (grid_call p s (3 / 100) (spe_grid_losses cs)
                      (spe_base_to_peak cs) (spe_grid_price cs) d)
  = lcoe_val (grid_call p s 0 (spe_grid_losses cs) (spe_base_to_peak cs)
                        0 d)
    * (1 + 3 / 100 * annuity 30)
    + spe_grid_price cs.
Proof.
  intros (Hp & Hs & Htl & Hb).
  set (full := grid_call p s (3 / 100) _ _ _ d).
  set (cap := grid_call p s 0 _ _ 0 d).
  assert (Hvf : valid_args full) by (apply grid_call_valid; assumption).
  assert (Hvc : valid_args cap) by (apply grid_call_valid; assumption).
  destruct (calc_lcoe_ok full Hvf) as (sz & Hsz & Hok & _).
  assert (Hsz' : calc_sizing cap = Ok sz) by exact Hsz.
  rewrite (lcoe_val_dcf full sz Hvf Hsz), (lcoe_val_dcf cap sz Hvc Hsz').
  rewrite !dcf_ratio_eq.
  pose proof (so_generation_pos _ _ Hok) as Hg.
  assert (HA : 0 < annuity 30) by (apply annuity_pos; lia).
  unfold investment_of, om_of, fuel_of, td_investment_of, full, cap.
  cbn [grid diesel grid_call om_of_td_lines additional_mv_line_length
       connection_cost_per_hh grid_price system_life].
  change (Z.to_nat 30) with 30%nat.
  field. lra.
Qed.

(** X9: for a valid cell, at each of the 10 distances, the full grid LCOE is
    the capital-only grid LCOE times (1 + 0.03 * (1 - 1.08^-30) / 0.08),
    plus the grid price of the country. *)
Theorem grid_full_is_scaled_capital_plus_price (cs : country_specs) (p : Z)
                                               (s : R) :
  (0 < p)%Z -> 0 < s -> -1 < spe_grid_losses cs -> 0 < spe_base_to_peak cs ->
  exists d_cap d_full gc,
    run (get_lcoes cs p s true) = Ok d_cap
    /\ run (get_lcoes cs p s false) = Ok d_full
    /\ List.length gc = 10%nat
    /\ dict_get d_cap GRID = Some (Seq (map Fin gc))
    /\ dict_get d_full GRID
       = Some (Seq (map (fun c =>
                           Fin (c * (1 + 3 / 100
                                         * ((1 - / (1 + 8 / 100) ^ 30)
                                            / (8 / 100)))
                                + spe_grid_price cs))
                        gc)).
Proof.
  intros Hp Hs Htl Hb.
  assert (Hv : valid_cell cs p s) by (repeat split; assumption).
  destruct (get_lcoes_ok cs p s true Hv) as [_ Hcap].
  destruct (get_lcoes_ok cs p s false Hv) as [_ Hfull].
  do 3 eexists.
  split; [exact Hcap | split; [exact Hfull | ]].
  split; [ | split; [apply dict_get_grid | ]].
  - rewrite length_map. reflexivity.
  - rewrite dict_get_grid, !map_map. do 2 f_equal.
    apply map_ext. intros d. f_equal.
    rewrite <- annuity_closed_form.
    apply (grid_full_from_cap cs p s d Hv).
Qed.

Lemma grid_full_is_scaled_capital_plus_price_witness :
  exists d_cap d_full gc,
    run (get_lcoes fixture_country 1000 1000 true) = Ok d_cap
    /\ run (get_lcoes fixture_country 1000 1000 false) = Ok d_full
    /\ List.length gc = 10%nat
    /\ dict_get d_cap GRID = Some (Seq (map Fin gc))
    /\ dict_get d_full GRID
       = Some (Seq (map (fun c =>
                           Fin (c * (1 + 3 / 100
                                         * ((1 - / (1 + 8 / 100) ^ 30)
                                            / (8 / 100)))
                                + spe_grid_price fixture_country))
                        gc)).
Proof.
  apply (grid_full_is_scaled_capital_plus_price fixture_country 1000 1000);
    unfold fixture_country; cbn; try lra; lia.
Defined.

(** ** Dependence of the value of a call on its arguments *)

Lemma standalone_value (p : Z) (s om cf dl k omc b2p : R) (L : Z)
                       (eff dp : R) (dsl : bool) :
  (0 < p)%Z -> 0 < s -> -1 < dl -> 0 < b2p -> (1 <= L)%Z -> cf <> 0 ->
  (dsl = true -> eff <> 0) ->
  lcoe_val (tech_call p s om cf dl k omc b2p L 0 eff dp dsl true)
  = (100 / (s * (1 + dl)) + k / (cf * 8760 * b2p)) / annuity (Z.to_nat L)
    + (100 * om / (s * (1 + dl)) + k * omc / (cf * 8760 * b2p))
    + (if dsl then dp / eff else 0).
Proof.
  intros Hp Hs Hd Hb HL Hcf He.
  set (a := tech_call p s om cf dl k omc b2p L 0 eff dp dsl true).
  assert (Hv : valid_args a).
  { unfold valid_args, valid_load, a. cbn. repeat split; auto. }
  destruct (calc_lcoe_ok a Hv) as (sz & Hsz & Hok & _).
  rewrite (lcoe_val_dcf a sz Hv Hsz), dcf_ratio_eq.
  pose proof (so_generation a sz Hok) as Hgen.
  pose proof (so_peak a sz Hok) as Hpeak.
  pose proof (so_households_pos a sz Hok) as Hhh.
  assert (HA : 0 < annuity (Z.to_nat L)) by (apply annuity_pos; lia).
  unfold investment_of, om_of, fuel_of, td_investment_of, a,
    HOURS_PER_YEAR, mv_line_cost, lv_line_cost in *.
  cbn [grid diesel standalone mv_line_length connection_cost_per_hh
       capacity_factor capital_cost om_of_td_lines om_costs diesel_price
       efficiency scenario distribution_losses base_to_peak_load_ratio
       system_life tech_call] in *.
  set (A := annuity (Z.to_nat L)) in *.
  rewrite Hpeak, Hgen.
  destruct dsl.
  - specialize (He eq_refl). field. repeat split; lra.
  - field. repeat split; lra.
Qed.

(** X10: a stand-alone call with no MV line (the shape of the three
    stand-alone calls of the evaluator) returns the same value for every
    positive number of people: the LCOE of a stand-alone technology does not
    depend on the density. *)
Theorem standalone_lcoe_independent_of_people
        (p p' : Z) (s om cf dl k omc b2p : R) (L : Z) (eff dp : R)
        (dsl : bool) :
  (0 < p)%Z -> (0 < p')%Z -> 0 < s -> -1 < dl -> 0 < b2p -> (1 <= L)%Z ->
  cf <> 0 -> (dsl = true -> eff <> 0) ->
  (exists v,
     calc_lcoe (tech_call p s om cf dl k omc b2p L 0 eff dp dsl true)
     = Ok (Fin v))
  /\ calc_lcoe (tech_call p s om cf dl k omc b2p L 0 eff dp dsl true)
     = calc_lcoe (tech_call p' s om cf dl k omc b2p L 0 eff dp dsl true).
Proof.
  intros Hp Hp' Hs Hd Hb HL Hcf He.
  assert (Hv : forall q, (0 < q)%Z ->
            valid_args (tech_call q s om cf dl k omc b2p L 0 eff dp dsl true)).
  { intros q Hq. unfold valid_args, valid_load. cbn. repeat split; auto. }
  rewrite (lcoe_val_ok _ (Hv p Hp)), (lcoe_val_ok _ (Hv p' Hp')).
  split; [eexists; reflexivity | ].
  rewrite !standalone_value by assumption. reflexivity.
Qed.

Lemma standalone_lcoe_independent_of_people_witness :
  calc_lcoe (tech_call 10 1000 0 (7 / 10) 0 721 (1 / 10) (5 / 10) 15 0
                       (33 / 100) 1 true true)
  = calc_lcoe (tech_call 4000 1000 0 (7 / 10) 0 721 (1 / 10) (5 / 10) 15 0
                         (33 / 100) 1 true true).
Proof.
  apply (standalone_lcoe_independent_of_people 10 4000 1000 0 (7 / 10) 0 721
           (1 / 10) (5 / 10) 15 (33 / 100) 1 true);
    try lia; try lra; intros _; lra.
Defined.

Lemma tech_call_capacity_mono (p : Z) (s om cf cf' dl k omc b2p : R) (L : Z)
                              (mv eff dp : R) (dsl sa : bool) :
  (0 < p)%Z -> 0 < s -> -1 < dl -> 0 < b2p -> (1 <= L)%Z ->
  0 < cf <= cf' -> 0 <= k -> 0 <= omc -> (dsl = true -> eff <> 0) ->
  lcoe_val (tech_call p s om cf' dl k omc b2p L mv eff dp dsl sa)
  <= lcoe_val (tech_call p s om cf dl k omc b2p L mv eff dp dsl sa).
Proof.
  intros Hp Hs Hd Hb HL [Hcf Hle] Hk Homc He.
  apply lcoe_val_mono; try reflexivity.
  - unfold valid_args, valid_load. cbn. repeat split; auto. intros _. lra.
  - unfold valid_args, valid_load. cbn. repeat split; auto. intros _. lra.
  - intros sz Hok. pose proof (so_peak_pos _ _ Hok) as Hpk.
    assert (Hinst : peak_load sz / cf' <= peak_load sz / cf).
    { unfold Rdiv. apply Rmult_le_compat_l; [lra | ].
      apply Rinv_le_contravar; assumption. }
    unfold investment_of, om_of, td_investment_of.
    cbn [grid standalone mv_line_length connection_cost_per_hh
         capacity_factor capital_cost om_of_td_lines om_costs tech_call].
    split.
    + apply Rplus_le_compat_l. apply Rmult_le_compat_r; assumption.
    + apply Rplus_le_compat_l. apply Rmult_le_compat_l; [ | assumption].
      apply Rmult_le_pos; assumption.
Qed.

(** X11: for a valid cell, in either mode, the variants of a technology are
    ordered by their capacity factor: wind 0.4 is at most wind 0.3, which is
    at most wind 0.2, and PV at irradiation 2250 is at most PV at 1750, for
    the mini-grid and for the stand-alone system. *)
Theorem higher_capacity_factor_is_cheaper (cs : country_specs) (p : Z)
                                          (s : R) (cap : bool) :
  (0 < p)%Z -> 0 < s -> -1 < spe_grid_losses cs -> 0 < spe_base_to_peak cs ->
  exists d wl wm wh pl ph sl sh,
    run (get_lcoes cs p s cap) = Ok d
    /\ dict_get d MG_WIND_LOW = Some (Scalar (Fin wl))
    /\ dict_get d MG_WIND_MID = Some (Scalar (Fin wm))
    /\ dict_get d MG_WIND_HIGH = Some (Scalar (Fin wh))
    /\ dict_get d MG_PV_LOW = Some (Scalar (Fin pl))
    /\ dict_get d MG_PV_HIGH = Some (Scalar (Fin ph))
    /\ dict_get d SA_PV_LOW = Some (Scalar (Fin sl))
    /\ dict_get d SA_PV_HIGH = Some (Scalar (Fin sh))
    /\ wh <= wm <= wl /\ ph <= pl /\ sh <= sl.
Proof.
  intros Hp Hs Htl Hb.
  assert (Hv : valid_cell cs p s) by (repeat split; assumption).
  destruct (get_lcoes_ok cs p s cap Hv) as [_ Hrun].
  do 8 eexists.
  split; [exact Hrun | ].
  do 7 (split; [reflexivity | ]).
  unfold portfolio_tech_call, HOURS_PER_YEAR.
  destruct cap;
    cbn [snd tc_standalone tc_diesel tc_capacity_factor
         tc_distribution_losses tc_capital_cost tc_base_to_peak
         tc_system_life tc_mv_line_length tc_efficiency tc_om_ratio
         ci_om_of_td_lines ci_tech_om_ratio ci_diesel_price mode_inputs
         zeroed_cost_inputs full_cost_inputs];
    repeat split;
    apply tech_call_capacity_mono; try lra; try lia; discriminate.
Qed.

Lemma higher_capacity_factor_is_cheaper_witness :
  exists d wm wh,
    run (get_lcoes fixture_country 1000 1000 false) = Ok d
    /\ dict_get d MG_WIND_MID = Some (Scalar (Fin wm))
    /\ dict_get d MG_WIND_HIGH = Some (Scalar (Fin wh))
    /\ wh <= wm.
Proof.
  destruct (higher_capacity_factor_is_cheaper fixture_country 1000 1000 false)
    as (d & wl & wm & wh & pl & ph & sl & sh & Hrun & _ & Hm & Hh & _ & _ & _
        & _ & [Hle _] & _).
  - lia.
  - lra.
  - unfold fixture_country; cbn; lra.
  - unfold fixture_country; cbn; lra.
  - exists d, wm, wh. repeat split; assumption.
Defined.

(** ** What the evaluator reads of a country row *)

(** X12: in capital-only mode the evaluator reads only the grid losses and
    the base-to-peak ratio of the country row: two rows that agree on these
    two fields give the same calls and the same outcome, whatever their
    names and prices. *)
Theorem capital_only_ignores_prices (cs cs' : country_specs) (p : Z)
                                    (s : R) (log : list lcoe_args) :
  spe_grid_losses cs = spe_grid_losses cs' ->
  spe_base_to_peak cs = spe_base_to_peak cs' ->
  get_lcoes cs p s true log = get_lcoes cs' p s true log.
Proof.
  intros Hl Hb. rewrite !get_lcoes_portfolio_cap.
  unfold portfolio. rewrite Hl, Hb. reflexivity.
Qed.

Lemma capital_only_ignores_prices_witness :
  get_lcoes fixture_country 1000 1000 true []
  = get_lcoes negative_diesel_country 1000 1000 true [].
Proof.
  apply (capital_only_ignores_prices fixture_country negative_diesel_country
           1000 1000 []); reflexivity.
Defined.

Lemma non_diesel_constants (t : string) (c : tech_constants) :
  In (t, c) tech_table -> t <> MG_DIESEL -> t <> SA_DIESEL ->
  tc_diesel c = false.
Proof.
  unfold tech_table. intros Hin Hm Hs. cbn [In] in Hin.
  repeat (destruct Hin as [[= <- <-] | Hin];
          [first [reflexivity | now elim Hm | now elim Hs] | ]).
  destruct Hin.
Qed.

(** X13: for valid cells, in either mode, the value of every off-grid
    technology other than the two diesel ones is the same for all countries:
    it depends on the number of people and on the scenario only. *)
Theorem non_diesel_offgrid_is_country_independent
        (cs cs' : country_specs) (p : Z) (s : R) (cap : bool) (t : string) :
  (0 < p)%Z -> 0 < s ->
  -1 < spe_grid_losses cs -> 0 < spe_base_to_peak cs ->
  -1 < spe_grid_losses cs' -> 0 < spe_base_to_peak cs' ->
  In t techs -> t <> MG_DIESEL -> t <> SA_DIESEL ->
  exists d d' v,
    run (get_lcoes cs p s cap) = Ok d
    /\ run (get_lcoes cs' p s cap) = Ok d'
    /\ dict_get d t = Some (Scalar (Fin v))
    /\ dict_get d' t = Some (Scalar (Fin v)).
Proof.
  intros Hp Hs Hl Hb Hl' Hb' Ht Hm Hsa.
  assert (Hv : valid_cell cs p s) by (repeat split; assumption).
  assert (Hv' : valid_cell cs' p s) by (repeat split; assumption).
  destruct (get_lcoes_ok cs p s cap Hv) as [_ Hrun].
  destruct (get_lcoes_ok cs' p s cap Hv') as [_ Hrun'].
  destruct (dict_get_tech t Ht) as (c & Hin & Hget).
  pose proof (non_diesel_constants t c Hin Hm Hsa) as Hnd.
  do 3 eexists.
  split; [exact Hrun | split; [exact Hrun' | split; [apply Hget | ]]].
  rewrite Hget. do 3 f_equal.
  unfold portfolio_tech_call. rewrite Hnd.
  destruct cap; reflexivity.
Qed.

Lemma non_diesel_offgrid_is_country_independent_witness :
  exists d d' v,
    run (get_lcoes fixture_country 1000 1000 false) = Ok d
    /\ run (get_lcoes negative_diesel_country 1000 1000 false) = Ok d'
    /\ dict_get d MG_HYDRO = Some (Scalar (Fin v))
    /\ dict_get d' MG_HYDRO = Some (Scalar (Fin v)).
Proof.
  apply (non_diesel_offgrid_is_country_independent fixture_country
           negative_diesel_country 1000 1000 false MG_HYDRO);
    try lia; try (unfold fixture_country, negative_diesel_country; cbn; lra);
    try discriminate.
  left. reflexivity.
Defined.

(** ** The evaluator and exceptions *)

Lemma comprehension_stops {A B : Type} (f : A -> traced B)
                          (g : A -> lcoe_args) (h : A -> float64 -> B)
                          (l : list A) :
  (forall x log,
     f x log = (log ++ [g x],
                match calc_lcoe (g x) with
                | Ok v => Ok (h x v)
                | Raise e => Raise e
                end)) ->
  forall log,
    match comprehension f l log with
    | (log', Ok _) =>
        log' = log ++ map g l /\ Forall returns (map g l)
    | (log', Raise e) =>
        exists pre a post,
          map g l = pre ++ a :: post
          /\ log' = log ++ pre ++ [a]
          /\ Forall returns pre
          /\ calc_lcoe a = Raise e
    end.
Proof.
  intros Hf. induction l as [ | x l IH]; intros log.
  - cbn. rewrite app_nil_r. split; [reflexivity | apply Forall_nil].
  - cbn [comprehension map]. unfold tbind at 1. rewrite Hf.
    destruct (calc_lcoe (g x)) as [v | e] eqn:Hcall.
    + unfold tbind at 1. specialize (IH (log ++ [g x])).
      destruct (comprehension f l (log ++ [g x])) as [log' [vs | e]].
      * destruct IH as [-> Hall]. unfold tret.
        rewrite <- app_assoc. split; [reflexivity | ].
        apply Forall_cons; [exists v; exact Hcall | exact Hall].
      * destruct IH as (pre & a & post & Hsplit & -> & Hall & Ha).
        exists (g x :: pre), a, post.
        rewrite Hsplit, <- app_assoc.
        split; [reflexivity | split; [reflexivity | split]].
        -- apply Forall_cons; [exists v; exact Hcall | exact Hall].
        -- exact Ha.
    + exists [], (g x), (map g l).
      split; [reflexivity | split; [reflexivity | split]].
      * apply Forall_nil.
      * exact Hcall.
Qed.

Lemma portfolio_stops (ci : cost_inputs) (cs : country_specs) (p : Z)
                      (s : R) :
  match portfolio ci cs p s [] with
  | (log, Ok _) =>
      log = portfolio_calls ci cs p s
      /\ Forall returns (portfolio_calls ci cs p s)
  | (log, Raise e) =>
      exists pre a post,
        portfolio_calls ci cs p s = pre ++ a :: post
        /\ log = pre ++ [a]
        /\ Forall returns pre
        /\ calc_lcoe a = Raise e
  end.
Proof.
  unfold portfolio_calls, portfolio.
  set (g1 := grid_call p s (ci_om_of_td_lines ci) (spe_grid_losses cs)
                       (spe_base_to_peak cs) (ci_grid_price ci)).
  set (g2 := fun kc : string * tech_constants =>
               portfolio_tech_call ci p s (snd kc)).
  unfold tbind at 1.
  pose proof (comprehension_stops (fun d => call_calc_lcoe (g1 d)) g1
                (fun _ v => v) ELEC_DISTANCES) as H1.
  specialize (H1 ltac:(intros x log; unfold call_calc_lcoe;
                       destruct (calc_lcoe (g1 x)); reflexivity) []).
  destruct (comprehension _ ELEC_DISTANCES []) as [log1 [gv | e]].
  - destruct H1 as [-> Hall1]. cbn [app].
    unfold tbind at 1.
    pose proof (comprehension_stops
                  (fun kc => v <~ call_calc_lcoe (g2 kc) ;;
                             tret (fst kc, Scalar v))
                  g2 (fun kc v => (fst kc, Scalar v)) tech_table) as H2.
    specialize (H2 ltac:(intros x log; unfold tbind, call_calc_lcoe, tret;
                         destruct (calc_lcoe (g2 x)); reflexivity)
                   (map g1 ELEC_DISTANCES)).
    destruct (comprehension _ tech_table (map g1 ELEC_DISTANCES))
      as [log2 [tv | e]].
    + destruct H2 as [-> Hall2]. unfold tret.
      split; [reflexivity | apply Forall_app; split; assumption].
    + destruct H2 as (pre & a & post & Hsplit & -> & Hall2 & Ha).
      exists (map g1 ELEC_DISTANCES ++ pre), a, post.
      rewrite Hsplit, <- !app_assoc.
      split; [reflexivity | split; [reflexivity | split]].
      * apply Forall_app; split; assumption.
      * exact Ha.
  - destruct H1 as (pre & a & post & Hsplit & -> & Hall1 & Ha).
    cbn [app].
    exists pre, a, (post ++ map g2 tech_table).
    rewrite Hsplit, <- app_assoc.
    split; [reflexivity | split; [reflexivity | split; assumption]].
Qed.

(** X14: the evaluator stops at the first call that raises and propagates
    its exception.  When it returns a dictionary, it has made all 20 planned
    calls and each of them returned; when it raises [e], the calls made are
    the planned calls up to and including the first one that raises, and
    that call raises [e]. *)
Theorem get_lcoes_stops_at_first_raise (cs : country_specs) (p : Z) (s : R)
                                       (cap : bool) :
  let planned := portfolio_calls (mode_inputs cs cap) cs p s in
  List.length planned = 20%nat
  /\ match run (get_lcoes cs p s cap) with
     | Ok _ =>
         calls (get_lcoes cs p s cap) = planned /\ Forall returns planned
     | Raise e =>
         exists pre a post,
           planned = pre ++ a :: post
           /\ calls (get_lcoes cs p s cap) = pre ++ [a]
           /\ Forall returns pre
           /\ calc_lcoe a = Raise e
     end.
Proof.
  intros planned. split; [reflexivity | ].
  unfold run, calls, planned. rewrite get_lcoes_portfolio.
  pose proof (portfolio_stops (mode_inputs cs cap) cs p s) as H.
  destruct (portfolio (mode_inputs cs cap) cs p s []) as [log [d | e]];
    exact H.
Qed.

(** ** The sweep of make_tables *)

Lemma tbind_step {A B : Type} (m : traced A) (k : A -> traced B)
                 (log log' : list lcoe_args) (a : A) :
  m log = (log', Ok a) -> tbind m k log = k a log'.
Proof. intros H. unfold tbind. rewrite H. reflexivity. Qed.

Lemma get_lcoes_at (cs : country_specs) (p : Z) (s : R) (cap : bool)
                   (log : list lcoe_args) :
  valid_cell cs p s ->
  get_lcoes cs p s cap log
  = (log ++ portfolio_calls (mode_inputs cs cap) cs p s,
     Ok (portfolio_dict (mode_inputs cs cap) cs p s)).
Proof.
  intros Hv. rewrite get_lcoes_portfolio. apply portfolio_ok. exact Hv.
Qed.

Lemma set_column_cell {K : Type} (eqb : K -> K -> bool) (f : K -> float64)
                      (c : string) (people : Z) (keys : list K)
                      (p : panel K) (c' : string) (p' : Z) (k' : K) :
  (forall x y, eqb x y = true -> x = y) ->
  fold_left (fun q kv => panel_set eqb q c people (fst kv) (snd kv))
            (combine keys (map f keys)) p c' p' k'
  = if (String.eqb c' c && Z.eqb p' people && existsb (eqb k') keys)%bool
    then f k' else p c' p' k'.
Proof.
  intros Heqb. revert p.
  induction keys as [ | k keys IH]; intros p;
    cbn [map combine fold_left existsb].
  - rewrite andb_false_r. reflexivity.
  - rewrite IH. cbn [fst snd]. unfold panel_set.
    destruct (String.eqb c' c && Z.eqb p' people)%bool; cbn [andb];
      [ | reflexivity].
    destruct (eqb k' k) eqn:Hk; cbn [orb].
    + apply Heqb in Hk. subst k'.
      destruct (existsb (eqb k) keys); reflexivity.
    + reflexivity.
Qed.

Ltac key_case t k :=
  destruct (String.eqb_spec t k) as [-> | ?]; [reflexivity | ].

Lemma stored_techs_cell (cs : country_specs) (s : R) (cap : bool)
                        (old : panel string) (people : Z)
                        (c : string) (p : Z) (t : string) :
  let v k := tech_value cs s cap people k in
  panel_set String.eqb
    (panel_set String.eqb
       (panel_set String.eqb
          (panel_set String.eqb
             (panel_set String.eqb
                (panel_set String.eqb
                   (panel_set String.eqb
                      (panel_set String.eqb
                         (panel_set String.eqb
                            (panel_set String.eqb old (spe_country cs) people
                                       MG_HYDRO (v MG_HYDRO))
                            (spe_country cs) people MG_PV_LOW (v MG_PV_LOW))
                         (spe_country cs) people MG_PV_HIGH (v MG_PV_HIGH))
                      (spe_country cs) people MG_WIND_LOW (v MG_WIND_LOW))
                   (spe_country cs) people MG_WIND_MID (v MG_WIND_MID))
                (spe_country cs) people MG_WIND_HIGH (v MG_WIND_HIGH))
             (spe_country cs) people MG_DIESEL (v MG_DIESEL))
          (spe_country cs) people SA_DIESEL (v SA_DIESEL))
       (spe_country cs) people SA_PV_LOW (v SA_PV_LOW))
    (spe_country cs) people SA_PV_HIGH (v SA_PV_HIGH) c p t
  = if (String.eqb c (spe_country cs) && Z.eqb p people
        && existsb (String.eqb t) techs)%bool
    then tech_value cs s cap p t else old c p t.
Proof.
  intros v. unfold panel_set, v.
  destruct (String.eqb c (spe_country cs)); cbn [andb]; [ | reflexivity].
  destruct (Z.eqb_spec p people) as [-> | Hne]; cbn [andb]; [ | reflexivity].
  unfold techs. cbn [existsb].
  key_case t SA_PV_HIGH. key_case t SA_PV_LOW. key_case t SA_DIESEL.
  key_case t MG_DIESEL. key_case t MG_WIND_HIGH. key_case t MG_WIND_MID.
  key_case t MG_WIND_LOW. key_case t MG_PV_HIGH. key_case t MG_PV_LOW.
  key_case t MG_HYDRO. reflexivity.
Qed.

Ltac tstep tac := erewrite tbind_step; [ | tac]; cbv beta.

Lemma fill_cell_ok (s : R) (cs : country_specs) (P : panels) (people : Z)
                   (log : list lcoe_args) :
  valid_cell cs people s ->
  exists P',
    fill_cell s cs P people log
    = (log ++ portfolio_calls (mode_inputs cs false) cs people s
           ++ portfolio_calls (mode_inputs cs true) cs people s,
       Ok P')
    /\ cells_written P P' cs s (fun p => Z.eqb p people).
Proof.
  intros Hv. unfold fill_cell.
  tstep ltac:(apply get_lcoes_at; exact Hv).
  do 12 (tstep reflexivity).
  tstep ltac:(apply get_lcoes_at; exact Hv).
  do 12 (tstep reflexivity).
  eexists. split; [unfold tret; rewrite <- app_assoc; reflexivity | ].
  intros c p.
  cbn [grid_lcoes grid_cap tech_lcoes tech_cap].
  split; [ | split; [ | split]].
  - intros d. rewrite set_column_cell by (intros x y; apply Z.eqb_eq).
    destruct (Z.eqb_spec p people) as [-> | Hne]; [reflexivity | ].
    rewrite andb_false_r. reflexivity.
  - intros d. rewrite set_column_cell by (intros x y; apply Z.eqb_eq).
    destruct (Z.eqb_spec p people) as [-> | Hne]; [reflexivity | ].
    rewrite andb_false_r. reflexivity.
  - intros t. apply stored_techs_cell.
  - intros t. apply stored_techs_cell.
Qed.

Lemma cells_written_refl (P : panels) (cs : country_specs) (s : R) :
  cells_written P P cs s (fun _ => false).
Proof.
  intros c p. repeat split; intros k;
    rewrite andb_false_r; reflexivity.
Qed.

Lemma cells_written_trans (P P1 P2 : panels) (cs : country_specs) (s : R)
                          (f g : Z -> bool) :
  cells_written P P1 cs s f -> cells_written P1 P2 cs s g ->
  cells_written P P2 cs s (fun p => (f p || g p)%bool).
Proof.
  intros H1 H2 c p.
  destruct (H1 c p) as (A1 & B1 & C1 & D1).
  destruct (H2 c p) as (A2 & B2 & C2 & D2).
  repeat split; intros k.
  - rewrite A2, A1.
    destruct (String.eqb c (spe_country cs)), (f p), (g p),
      (existsb (Z.eqb k) ELEC_DISTANCES); reflexivity.
  - rewrite B2, B1.
    destruct (String.eqb c (spe_country cs)), (f p), (g p),
      (existsb (Z.eqb k) ELEC_DISTANCES); reflexivity.
  - rewrite C2, C1.
    destruct (String.eqb c (spe_country cs)), (f p), (g p),
      (existsb (String.eqb k) techs); reflexivity.
  - rewrite D2, D1.
    destruct (String.eqb c (spe_country cs)), (f p), (g p),
      (existsb (String.eqb k) techs); reflexivity.
Qed.

Lemma cells_written_untouched (P P' : panels) (cs : country_specs) (s : R)
                              (f : Z -> bool) (c : string) :
  cells_written P P' cs s f -> c <> spe_country cs ->
  country_untouched P P' c.
Proof.
  intros H Hc p. destruct (H c p) as (A & B & C & D).
  apply String.eqb_neq in Hc.
  repeat split; intros k; [rewrite A | rewrite B | rewrite C | rewrite D];
    rewrite Hc; reflexivity.
Qed.

Lemma portfolio_calls_length (ci : cost_inputs) (cs : country_specs) (p : Z)
                             (s : R) :
  List.length (portfolio_calls ci cs p s) = 20%nat.
Proof. reflexivity. Qed.

Lemma people_loop_ok (s : R) (cs : country_specs) (l : list Z) :
  0 < s -> valid_country cs -> Forall (fun p => (0 < p)%Z) l ->
  forall P log,
    exists P',
      for_each l (fill_cell s cs) P log
      = (log ++ flat_map (cell_calls cs s) l, Ok P')
      /\ cells_written P P' cs s (fun p => existsb (Z.eqb p) l).
Proof.
  intros Hs [Hl Hb] Hall. induction Hall as [ | x l Hx Hall IH]; intros P log.
  - exists P. cbn. rewrite app_nil_r.
    split; [reflexivity | apply cells_written_refl].
  - assert (Hv : valid_cell cs x s) by (repeat split; assumption).
    destruct (fill_cell_ok s cs P x log Hv) as (P1 & Hfill & Hw1).
    destruct (IH P1 (log ++ cell_calls cs s x)) as (P2 & Hloop & Hw2).
    exists P2. cbn [for_each flat_map].
    rewrite (tbind_step _ _ _ _ _ Hfill). fold (cell_calls cs s x).
    rewrite Hloop, <- app_assoc. split; [reflexivity | ].
    cbn [existsb]. apply (cells_written_trans P P1 P2); assumption.
Qed.

Lemma flat_map_length_const {A B : Type} (f : A -> list B) (n : nat)
                            (l : list A) :
  (forall x, List.length (f x) = n) ->
  List.length (flat_map f l) = (n * List.length l)%nat.
Proof.
  intros Hf. induction l as [ | x l IH]; cbn [flat_map List.length].
  - lia.
  - rewrite length_app, Hf, IH. lia.
Qed.

Lemma cell_calls_length (cs : country_specs) (s : R) (p : Z) :
  List.length (cell_calls cs s p) = 40%nat.
Proof. reflexivity. Qed.

Lemma people_arr_positive : Forall (fun p => (0 < p)%Z) people_arr.
Proof.
  apply Forall_forall. intros p Hp. apply people_arr_range in Hp. lia.
Qed.

Lemma sweep_calls_length (s : R) (specs : list country_specs) :
  List.length (sweep_calls s specs)
  = (40 * List.length people_arr * List.length specs)%nat.
Proof.
  unfold sweep_calls. apply flat_map_length_const. intros cs.
  apply flat_map_length_const. apply cell_calls_length.
Qed.

Lemma cells_written_country (P P' : panels) (cs : country_specs) (s : R) :
  cells_written P P' cs s (fun p => existsb (Z.eqb p) people_arr) ->
  country_written P P' cs s.
Proof.
  intros H p. destruct (H (spe_country cs) p) as (A & B & C & D).
  rewrite String.eqb_refl in A, B, C, D.
  repeat split; intros k; [apply A | apply B | apply C | apply D].
Qed.

Lemma country_untouched_trans (P P1 P2 : panels) (c : string) :
  country_untouched P P1 c -> country_untouched P1 P2 c ->
  country_untouched P P2 c.
Proof.
  intros H1 H2 p. destruct (H1 p) as (A1 & B1 & C1 & D1).
  destruct (H2 p) as (A2 & B2 & C2 & D2).
  repeat split; intros k;
    [rewrite A2, A1 | rewrite B2, B1 | rewrite C2, C1 | rewrite D2, D1];
    reflexivity.
Qed.

Lemma country_written_before (P P1 P2 : panels) (cs : country_specs)
                             (s : R) :
  country_untouched P P1 (spe_country cs) -> country_written P1 P2 cs s ->
  country_written P P2 cs s.
Proof.
  intros H1 H2 p. destruct (H1 p) as (A1 & B1 & C1 & D1).
  destruct (H2 p) as (A2 & B2 & C2 & D2).
  repeat split; intros k;
    [rewrite A2, A1 | rewrite B2, B1 | rewrite C2, C1 | rewrite D2, D1];
    reflexivity.
Qed.

Lemma country_written_after (P P1 P2 : panels) (cs : country_specs)
                            (s : R) :
  country_written P P1 cs s -> country_untouched P1 P2 (spe_country cs) ->
  country_written P P2 cs s.
Proof.
  intros H1 H2 p. destruct (H1 p) as (A1 & B1 & C1 & D1).
  destruct (H2 p) as (A2 & B2 & C2 & D2).
  repeat split; intros k;
    [rewrite A2, A1 | rewrite B2, B1 | rewrite C2, C1 | rewrite D2, D1];
    reflexivity.
Qed.

Lemma specs_loop_ok (s : R) (specs : list country_specs) :
  0 < s -> Forall valid_country specs -> NoDup (map spe_country specs) ->
  forall P log,
    exists P',
      for_each specs
        (fun p cs => for_each people_arr (fill_cell s cs) p) P log
      = (log ++ sweep_calls s specs, Ok P')
      /\ (forall cs, In cs specs -> country_written P P' cs s)
      /\ (forall c, ~ In c (map spe_country specs) ->
                    country_untouched P P' c).
Proof.
  intros Hs Hall. induction Hall as [ | cs1 rest H1 Hall IH];
    intros Hnd P log.
  - exists P. cbn. rewrite app_nil_r.
    split; [reflexivity | split; [intros cs [] | ]].
    intros c _ p. repeat split; reflexivity.
  - cbn [map] in Hnd. apply NoDup_cons_iff in Hnd. destruct Hnd as [Hn1 Hnd].
    destruct (people_loop_ok s cs1 people_arr Hs H1 people_arr_positive P log)
      as (P1 & Hloop1 & Hw1).
    destruct (IH Hnd P1 (log ++ flat_map (cell_calls cs1 s) people_arr))
      as (P2 & Hloop2 & Hw2 & Hu2).
    exists P2. cbn [for_each].
    rewrite (tbind_step _ _ _ _ _ Hloop1), Hloop2.
    unfold sweep_calls. cbn [flat_map]. rewrite <- app_assoc.
    split; [reflexivity | split].
    + intros cs [<- | Hin].
      * apply (country_written_after P P1 P2).
        -- apply cells_written_country. exact Hw1.
        -- apply Hu2. exact Hn1.
      * apply (country_written_before P P1 P2); [ | apply Hw2; exact Hin].
        apply (cells_written_untouched P P1 cs1 s _ _ Hw1).
        intros Heq. apply Hn1. rewrite <- Heq.
        apply in_map. exact Hin.
    + intros c Hc. cbn [map In] in Hc.
      apply (country_untouched_trans P P1 P2).
      * apply (cells_written_untouched P P1 cs1 s _ _ Hw1).
        intros Heq. apply Hc. left. symmetry. exact Heq.
      * apply Hu2. intros Hin. apply Hc. right. exact Hin.
Qed.

Lemma existsb_Zeqb_in (x : Z) (l : list Z) :
  In x l -> existsb (Z.eqb x) l = true.
Proof.
  intros Hin. apply existsb_exists. exists x.
  split; [exact Hin | apply Z.eqb_refl].
Qed.

Lemma existsb_streqb_in (x : string) (l : list string) :
  In x l -> existsb (String.eqb x) l = true.
Proof.
  intros Hin. apply existsb_exists. exists x.
  split; [exact Hin | apply String.eqb_refl].
Qed.

Lemma tech_value_get (cs : country_specs) (s : R) (cap : bool) (p : Z)
                     (t : string) :
  In t techs ->
  dict_get (portfolio_dict (mode_inputs cs cap) cs p s) t
  = Some (Scalar (tech_value cs s cap p t)).
Proof.
  intros Ht. destruct (dict_get_tech t Ht) as (c & _ & Hget).
  unfold tech_value. rewrite Hget. reflexivity.
Qed.

Lemma fill_panels_ok (s : R) (specs : list country_specs)
                     (log : list lcoe_args) :
  0 < s -> Forall valid_country specs -> NoDup (map spe_country specs) ->
  exists P,
    fill_panels s specs log = (log ++ sweep_calls s specs, Ok P)
    /\ (forall cs, In cs specs ->
          country_written zero_panels P cs s)
    /\ (forall c, ~ In c (map spe_country specs) ->
          country_untouched zero_panels P c).
Proof.
  intros Hs Hall Hnd. unfold fill_panels.
  apply (specs_loop_ok s specs Hs Hall Hnd zero_panels log).
Qed.

(** X15: for a positive scenario and country rows with distinct names, grid
    losses above -1 and a positive base-to-peak ratio, the sweep of
    make_tables returns after 40 calls of the cost model per country and
    sampled number of people, and every cell of the four panels holds what
    the evaluator returned for its country and number of people: the grid
    sequence along the distances, in full and capital-only mode, and the
    number of each off-grid technology. *)
Theorem fill_panels_holds_evaluator_results (s : R)
                                            (specs : list country_specs) :
  0 < s ->
  Forall (fun cs => -1 < spe_grid_losses cs /\ 0 < spe_base_to_peak cs)
         specs ->
  NoDup (map spe_country specs) ->
  exists P,
    run (fill_panels s specs) = Ok P
    /\ List.length (calls (fill_panels s specs))
       = (40 * List.length people_arr * List.length specs)%nat
    /\ (forall cs people,
          In cs specs -> In people people_arr ->
          exists d_full d_cap,
            run (get_lcoes cs people s false) = Ok d_full
            /\ run (get_lcoes cs people s true) = Ok d_cap
            /\ dict_get d_full GRID
               = Some (Seq (map (grid_lcoes P (spe_country cs) people)
                                ELEC_DISTANCES))
            /\ dict_get d_cap GRID
               = Some (Seq (map (grid_cap P (spe_country cs) people)
                                ELEC_DISTANCES))
            /\ forall t, In t techs ->
                 dict_get d_full t
                 = Some (Scalar (tech_lcoes P (spe_country cs) people t))
                 /\ dict_get d_cap t
                    = Some (Scalar (tech_cap P (spe_country cs) people t))).
Proof.
  intros Hs Hall Hnd.
  destruct (fill_panels_ok s specs [] Hs Hall Hnd) as (P & Hfill & Hw & Hu).
  exists P. unfold run, calls. rewrite Hfill. cbn [fst snd app].
  split; [reflexivity | split; [apply sweep_calls_length | ]].
  intros cs people Hcs Hpeople.
  assert (Hv : valid_cell cs people s).
  { rewrite Forall_forall in Hall. destruct (Hall cs Hcs) as [Hl Hb].
    apply people_arr_range in Hpeople. repeat split; try assumption. lia. }
  destruct (get_lcoes_ok cs people s false Hv) as [_ Hfull].
  destruct (get_lcoes_ok cs people s true Hv) as [_ Hcap].
  destruct (Hw cs Hcs people) as (A & B & C & D).
  pose proof (existsb_Zeqb_in people people_arr Hpeople) as Hin.
  do 2 eexists.
  split; [exact Hfull | split; [exact Hcap | split; [ | split]]].
  - rewrite dict_get_grid, map_map. do 2 f_equal.
    apply map_ext_in. intros d Hd. rewrite A, Hin.
    rewrite (existsb_Zeqb_in d _ Hd). reflexivity.
  - rewrite dict_get_grid, map_map. do 2 f_equal.
    apply map_ext_in. intros d Hd. rewrite B, Hin.
    rewrite (existsb_Zeqb_in d _ Hd). reflexivity.
  - intros t Ht. rewrite C, D, Hin, (existsb_streqb_in t _ Ht).
    cbn [andb]. split; apply tech_value_get; exact Ht.
Qed.

Lemma fill_panels_holds_evaluator_results_witness :
  exists P,
    run (fill_panels 1000 [fixture_country]) = Ok P
    /\ List.length (calls (fill_panels 1000 [fixture_country]))
       = (40 * List.length people_arr * 1)%nat.
Proof.
  destruct (fill_panels_holds_evaluator_results 1000 [fixture_country])
    as (P & Hrun & Hlen & _).
  - lra.
  - apply Forall_cons; [ | apply Forall_nil].
    unfold fixture_country; cbn; lra.
  - apply NoDup_cons; [intros [] | apply NoDup_nil].
  - exists P. split; assumption.
Defined.

(** ** A row that raises aborts the sweep *)

Lemma for_each_app {A S : Type} (body : S -> A -> traced S)
                   (l1 l2 : list A) (st : S) (log : list lcoe_args) :
  for_each (l1 ++ l2) body st log
  = match for_each l1 body st log with
    | (log', Ok st') => for_each l2 body st' log'
    | (log', Raise e) => (log', Raise e)
    end.
Proof.
  revert st log. induction l1 as [ | x l1 IH]; intros st log.
  - reflexivity.
  - cbn [for_each app]. unfold tbind.
    destruct (body st x log) as [log1 [st1 | e]]; [apply IH | reflexivity].
Qed.

Lemma specs_loop_returns (s : R) (specs : list country_specs) :
  0 < s -> Forall valid_country specs ->
  forall P log,
    exists P',
      for_each specs
        (fun p cs => for_each people_arr (fill_cell s cs) p) P log
      = (log ++ sweep_calls s specs, Ok P').
Proof.
  intros Hs Hall. induction Hall as [ | cs1 rest H1 Hall IH]; intros P log.
  - exists P. cbn. rewrite app_nil_r. reflexivity.
  - destruct (people_loop_ok s cs1 people_arr Hs H1 people_arr_positive P log)
      as (P1 & Hloop1 & _).
    destruct (IH P1 (log ++ flat_map (cell_calls cs1 s) people_arr))
      as (P2 & Hloop2).
    exists P2. cbn [for_each].
    rewrite (tbind_step _ _ _ _ _ Hloop1), Hloop2.
    unfold sweep_calls. cbn [flat_map]. rewrite <- app_assoc. reflexivity.
Qed.

Lemma calc_lcoe_zero_ratio (a : lcoe_args) :
  base_to_peak_load_ratio a = 0 -> calc_lcoe a = Raise ZeroDivisionError.
Proof.
  intros H. unfold calc_lcoe, calc_sizing. cbv zeta.
  rewrite H, truediv_zero. reflexivity.
Qed.

Lemma get_lcoes_zero_ratio (cs : country_specs) (p : Z) (s : R) (cap : bool)
                           (log : list lcoe_args) :
  spe_base_to_peak cs = 0 ->
  get_lcoes cs p s cap log
  = (log ++ [grid_call p s (ci_om_of_td_lines (mode_inputs cs cap))
                       (spe_grid_losses cs) (spe_base_to_peak cs)
                       (ci_grid_price (mode_inputs cs cap)) 5],
     Raise ZeroDivisionError).
Proof.
  intros Hb. rewrite get_lcoes_portfolio. unfold portfolio, ELEC_DISTANCES.
  cbn [seq map comprehension]. unfold tbind, call_calc_lcoe.
  rewrite calc_lcoe_zero_ratio by exact Hb. reflexivity.
Qed.

(** X16: a country row with a base-to-peak ratio of 0 aborts the whole run of
    make_tables: after the valid rows before it have been swept, its first
    call of the cost model raises ZeroDivisionError, make_tables raises it,
    and no table is returned for any country. *)
Theorem make_tables_aborts_on_zero_ratio
        (s : R) (before after : list country_specs) (bad : country_specs) :
  0 < s ->
  Forall (fun cs => -1 < spe_grid_losses cs /\ 0 < spe_base_to_peak cs)
         before ->
  spe_base_to_peak bad = 0 ->
  run (make_tables s (before ++ bad :: after)) = Raise ZeroDivisionError
  /\ List.length (calls (make_tables s (before ++ bad :: after)))
     = (40 * List.length people_arr * List.length before + 1)%nat.
Proof.
  intros Hs Hall Hbad.
  assert (H : make_tables s (before ++ bad :: after) []
              = (sweep_calls s before
                 ++ [grid_call 10 s (3 / 100) (spe_grid_losses bad)
                               (spe_base_to_peak bad) (spe_grid_price bad) 5],
                 Raise ZeroDivisionError)).
  { unfold make_tables, tbind at 1, fill_panels.
    rewrite for_each_app.
    destruct (specs_loop_returns s before Hs Hall zero_panels [])
      as (P1 & Hret).
    unfold zero_panels in Hret. rewrite Hret. cbn [app for_each].
    unfold tbind at 1. unfold people_arr at 1. cbn [seq map for_each].
    unfold tbind at 1. unfold fill_cell. unfold tbind at 1.
    rewrite (get_lcoes_zero_ratio bad _ s false _ Hbad). reflexivity. }
  unfold run, calls. rewrite H. cbn [fst snd].
  split; [reflexivity | ].
  rewrite length_app, sweep_calls_length. reflexivity.
Qed.

Lemma make_tables_aborts_on_zero_ratio_witness :
  run (make_tables 1000
         [{| spe_country := "Zero"; spe_grid_price := 15 / 100;
             spe_grid_losses := 8 / 100; spe_base_to_peak := 0;
             spe_diesel_price_low := 1 |}])
  = Raise ZeroDivisionError.
Proof.
  apply (make_tables_aborts_on_zero_ratio 1000 [] []
           {| spe_country := "Zero"; spe_grid_price := 15 / 100;
              spe_grid_losses := 8 / 100; spe_base_to_peak := 0;
              spe_diesel_price_low := 1 |}).
  - lra.
  - apply Forall_nil.
  - reflexivity.
Defined.

(** ** More on the viability table *)

Lemma float_lt_smaller (a1 a2 : R) (m : float64) :
  a1 <= a2 -> float_lt (Fin a2) m = true -> float_lt (Fin a1) m = true.
Proof.
  intros Hle. destruct m as [b | | | ]; cbn [float_lt]; try discriminate;
    [ | reflexivity].
  destruct (Rlt_dec a2 b); [ | discriminate]. intros _.
  destruct (Rlt_dec a1 b); [reflexivity | lra].
Qed.

Lemma cell_after_le (P : panels) (c : string) (d1 d2 : Z) :
  (forall people, In people people_arr ->
                  viable P c d2 people = true -> viable P c d1 people = true) ->
  cell_after P c d1 sentinel <= cell_after P c d2 sentinel.
Proof.
  intros Himp. unfold cell_after.
  destruct (find (viable P c d2) people_arr) as [x2 | ] eqn:H2.
  - destruct (find_first_sorted _ _ _ people_arr_sorted H2)
      as (Hin2 & Hv2 & _).
    destruct (find (viable P c d1) people_arr) as [x1 | ] eqn:H1.
    + destruct (find_first_sorted _ _ _ people_arr_sorted H1)
        as (_ & _ & Hmin1).
      apply IZR_le. destruct (Z_le_gt_dec x1 x2) as [Hle | Hgt];
        [exact Hle | ].
      pose proof (Himp x2 Hin2 Hv2) as Hv1.
      rewrite (Hmin1 x2 Hin2) in Hv1 by lia. discriminate.
    + pose proof (Himp x2 Hin2 Hv2) as Hv1.
      rewrite (find_none _ _ H1 x2 Hin2) in Hv1. discriminate.
  - destruct (find (viable P c d1) people_arr) as [x1 | ] eqn:H1; [ | lra].
    destruct (find_first_sorted _ _ _ people_arr_sorted H1) as (Hin1 & _).
    apply people_arr_range in Hin1. unfold sentinel. apply IZR_le. lia.
Qed.

(** X17: the viability table is monotone in the distance wherever the grid
    panel is: if, for a country, the grid LCOE at distance [d1] is a number
    at most the number at distance [d2] for every sampled number of people,
    then the threshold recorded at [d1] is at most the threshold recorded
    at [d2] (the sentinel counting as the largest threshold). *)
Theorem resolve_grid_monotone_in_distance
        (P : panels) (countries : list string) (c : string) (d1 d2 : Z) :
  In c countries -> In d1 ELEC_DISTANCES -> In d2 ELEC_DISTANCES ->
  (forall people, In people people_arr ->
     exists a1 a2,
       grid_lcoes P c people d1 = Fin a1
       /\ grid_lcoes P c people d2 = Fin a2 /\ a1 <= a2) ->
  resolve_grid P countries c d1 <= resolve_grid P countries c d2.
Proof.
  intros Hc Hd1 Hd2 Hgrid.
  rewrite !resolve_grid_cell by assumption.
  apply cell_after_le. intros people Hin. unfold viable.
  destruct (Hgrid people Hin) as (a1 & a2 & -> & -> & Hle).
  apply float_lt_smaller. exact Hle.
Qed.

Lemma resolve_grid_monotone_in_distance_witness :
  resolve_grid threshold_panels ["Fixture"%string] "Fixture"%string 5%Z = 60
  /\ resolve_grid threshold_panels ["Fixture"%string] "Fixture"%string 10%Z
     = 110
  /\ resolve_grid threshold_panels ["Fixture"%string] "Fixture"%string 5%Z
     <= resolve_grid threshold_panels ["Fixture"%string] "Fixture"%string
                     10%Z.
Proof.
  split; [ | split].
  - apply (resolve_threshold_panels _ _ 5%Z in_fixture
             in_ELEC_DISTANCES_5).
  - apply (resolve_threshold_panels _ _ 10%Z in_fixture
             in_ELEC_DISTANCES_10).
  - apply (resolve_grid_monotone_in_distance threshold_panels
             ["Fixture"%string] "Fixture"%string 5%Z 10%Z).
    + left. reflexivity.
    + apply in_ELEC_DISTANCES_5.
    + apply in_ELEC_DISTANCES_10.
    + intros people _. exists 5, 10.
      split; [reflexivity | split; [reflexivity | lra]].
Defined.

Lemma find_pointwise {A : Type} (f g : A -> bool) (l : list A) :
  (forall x, f x = g x) -> find f l = find g l.
Proof.
  intros H. induction l as [ | x l IH]; cbn [find]; [reflexivity | ].
  rewrite H, IH. reflexivity.
Qed.

(** X18: the viability table reads the grid panel of full LCOE and, of the
    technology panel, only mini-grid diesel, mini-grid wind 0.3, the two
    stand-alone PV entries and mini-grid hydro: two sets of panels that agree
    on these entries give the same table, whatever the capital-cost panels
    and the other five technologies hold. *)
Theorem resolve_grid_reads_five_technologies
        (P P' : panels) (countries : list string) (c : string) (d : Z) :
  (forall c p d, grid_lcoes P c p d = grid_lcoes P' c p d) ->
  (forall c p t,
     In t [MG_DIESEL; MG_WIND_MID; SA_PV_LOW; SA_PV_HIGH; MG_HYDRO] ->
     tech_lcoes P c p t = tech_lcoes P' c p t) ->
  resolve_grid P countries c d = resolve_grid P' countries c d.
Proof.
  intros Hg Ht. unfold resolve_grid. rewrite !countries_cell.
  assert (Hv : forall x, viable P c d x = viable P' c d x).
  { intros x. unfold viable, min_lcoe_techs.
    rewrite Hg, !Ht; [reflexivity | | | | | ]; cbn [In]; auto 10. }
  unfold cell_after. rewrite (find_pointwise _ _ _ Hv). reflexivity.
Qed.

Lemma resolve_grid_reads_five_technologies_witness :
  tech_lcoes threshold_panels_other "Fixture"%string 60%Z MG_PV_LOW = Fin 0
  /\ tech_lcoes threshold_panels "Fixture"%string 60%Z MG_PV_LOW = Fin (60 / 10)
  /\ resolve_grid threshold_panels_other ["Fixture"%string] "Fixture"%string
                  5%Z
     = resolve_grid threshold_panels ["Fixture"%string] "Fixture"%string 5%Z
  /\ resolve_grid threshold_panels ["Fixture"%string] "Fixture"%string 5%Z
     = 60.
Proof.
  split; [reflexivity | split; [reflexivity | split]].
  - apply (resolve_grid_reads_five_technologies threshold_panels_other
             threshold_panels ["Fixture"%string] "Fixture"%string 5%Z).
    + intros c p d. reflexivity.
    + intros c p t Ht. cbn [In] in Ht.
      destruct Ht as [<- | [<- | [<- | [<- | [<- | []]]]]]; reflexivity.
  - apply (resolve_threshold_panels _ _ 5%Z in_fixture
             in_ELEC_DISTANCES_5).
Defined.

(** X19: for a positive scenario and country rows with distinct names, grid
    losses above -1 and a positive base-to-peak ratio, make_tables returns
    its panels and its viability table, and in that table the threshold of
    every country is non-decreasing along the distances 5, 10, ..., 50. *)
Theorem make_tables_thresholds_nondecreasing (s : R)
                                             (specs : list country_specs) :
  0 < s ->
  Forall (fun cs => -1 < spe_grid_losses cs /\ 0 < spe_base_to_peak cs)
         specs ->
  NoDup (map spe_country specs) ->
  exists P df,
    run (make_tables s specs) = Ok (P, df)
    /\ forall cs d1 d2,
         In cs specs -> In d1 ELEC_DISTANCES -> In d2 ELEC_DISTANCES ->
         (d1 <= d2)%Z ->
         df (spe_country cs) d1 <= df (spe_country cs) d2.
Proof.
  intros Hs Hall Hnd.
  destruct (fill_panels_ok s specs [] Hs Hall Hnd) as (P & Hfill & Hw & _).
  exists P, (resolve_grid P (map spe_country specs)).
  split.
  - unfold run, make_tables, tbind. rewrite Hfill. reflexivity.
  - intros cs d1 d2 Hcs Hd1 Hd2 Hle.
    rewrite !resolve_grid_cell
      by (try assumption; apply in_map; exact Hcs).
    apply cell_after_le. intros people Hin. unfold viable.
    destruct (Hw cs Hcs people) as (A & _).
    rewrite !A, (existsb_Zeqb_in _ _ Hin), !existsb_Zeqb_in by assumption.
    cbn [andb]. unfold grid_value. apply float_lt_smaller.
    rewrite Forall_forall in Hall. destruct (Hall cs Hcs) as [Hl Hb].
    apply people_arr_range in Hin. apply ELEC_DISTANCES_range in Hd1.
    apply grid_mono_distance; try assumption; try lia.
    cbn. lra.
Qed.

Lemma make_tables_thresholds_nondecreasing_witness :
  exists P df, run (make_tables 1000 [fixture_country]) = Ok (P, df).
Proof.
  destruct (make_tables_thresholds_nondecreasing 1000 [fixture_country])
    as (P & df & Hrun & _).
  - lra.
  - apply Forall_cons; [ | apply Forall_nil].
    unfold fixture_country; cbn; lra.
  - apply NoDup_cons; [intros [] | apply NoDup_nil].
  - exists P, df. exact Hrun.
Defined.

(** ** Bounds on the sizing and on the value of a call *)

Lemma sqrt_grid_cell_area : sqrt grid_cell_area = 10.
Proof.
  unfold grid_cell_area. replace 100 with (10 * 10) by lra.
  apply sqrt_square. lra.
Qed.

Lemma round_half_even_upper (y : R) : IZR (round_half_even y) <= y + 1.
Proof.
  unfold round_half_even. destruct (Zfloor_bound y) as [Hlo Hhi].
  repeat match goal with
         | |- context [if ?c then _ else _] => destruct c
         end;
    rewrite ?plus_IZR; lra.
Qed.

Lemma round_ndigits_upper (x : R) : round_ndigits x 3 <= x + 1 / 1000.
Proof.
  unfold round_ndigits.
  replace (10 ^ 3) with 1000 by (cbn [pow]; lra).
  pose proof (round_half_even_upper (x * 1000)). lra.
Qed.

(** Upper bounds on the lines and transformers of a sizing, in terms of the
    number of MV lines and of households. *)
Lemma sizing_upper_bounds (a : lcoe_args) (s : sizing) :
  sizing_detail a s -> 100 <= households s ->
  let N := IZR (no_mv_lines s) in
  1 <= N < peak_load s / 50 + 1
  /\ total_lv_lines_length s <= 1333 / 1000 * households s
  /\ total_length_of_lines s <= 50 * N
  /\ hv_lines_total_length s <= 5 * N
  /\ IZR (num_transformers s) <= 11 / 10 * N + N * (households s + 1) + 1.
Proof.
  intros [_ Hhhpos Hpk Hnmv Hnlv [Hmv Hmvlv] [Hact1 Hact] Hlv Hreach Hmvlen
          Hhvlen Htr] Hhh N.
  pose proof (IZR_ge_1 _ Hmv) as HN. fold N in HN.
  assert (HL : 1 <= IZR (no_lv_lines s)).
  { apply IZR_ge_1. lia. }
  set (L := IZR (no_lv_lines s)) in *.
  assert (HNub : N < peak_load s / 50 + 1).
  { unfold N. rewrite Hnmv. unfold mv_line_capacity.
    destruct (Zceil_bound (peak_load s / 50)) as [Hlo _]. lra. }
  (* the LV lines *)
  assert (Hlvb : total_lv_lines_length s <= 1333 / 1000 * households s).
  { rewrite Hlv.
    assert (Hx : 0 <= grid_cell_area / households s <= 1).
    { unfold grid_cell_area. split.
      - left. apply Rdiv_lt_0_compat; lra.
      - apply Rmult_le_reg_r with (households s); [lra | ].
        field_simplify; lra. }
    assert (Hs1 : sqrt (grid_cell_area / households s) <= 1).
    { rewrite <- sqrt_1. apply sqrt_le_1_alt. lra. }
    pose proof (sqrt_pos (grid_cell_area / households s)) as Hs0.
    assert (Hs2 : sqrt 2 <= 2) by (apply sqrt_le_self; lra).
    pose proof (sqrt_pos 2) as Hs20.
    assert (Hprod : sqrt (grid_cell_area / households s) * sqrt 2 <= 1 * 2).
    { apply Rmult_le_compat; assumption. }
    assert (Hfac : sqrt (grid_cell_area / households s) * sqrt 2 / 2 <= 1)
      by lra.
    rewrite <- (Rmult_1_r (1333 / 1000 * households s)) at 2.
    apply Rmult_le_compat_l; [ | exact Hfac].
    apply Rmult_le_pos; lra. }
  (* the reach of an MV line *)
  assert (HxL : 0 < grid_cell_area / L <= grid_cell_area).
  { unfold grid_cell_area. split.
    - apply Rdiv_lt_0_compat; lra.
    - apply Rmult_le_reg_r with L; [lra | ]. field_simplify; nra. }
  assert (HrL : 0 < sqrt (grid_cell_area / L) <= 10).
  { split; [apply sqrt_lt_R0; lra | ].
    rewrite <- sqrt_grid_cell_area. apply sqrt_le_1_alt. lra. }
  set (r := sqrt (grid_cell_area / L)) in *.
  assert (Hreachlb : 5 / N <= line_reach_of s).
  { unfold line_reach_of. fold N L r. unfold grid_cell_area.
    apply Rmult_le_reg_r with (2 * r * N); [nra | ].
    replace (5 / N * (2 * r * N)) with (10 * r) by (field; lra).
    replace (100 / N / (2 * r) * (2 * r * N)) with 100 by (field; lra).
    lra. }
  assert (H5N : 0 < 5 / N <= 5).
  { split; [apply Rdiv_lt_0_compat; lra | ].
    apply Rmult_le_reg_r with N; [lra | ]. field_simplify; lra. }
  set (m := Rmin (line_reach_of s) mv_line_max_length) in *.
  assert (Hm : 5 / N <= m).
  { unfold m. apply Rmin_glb; [exact Hreachlb | ].
    unfold mv_line_max_length. lra. }
  assert (Hm50 : m <= 50).
  { unfold m. apply Rle_trans with mv_line_max_length; [apply Rmin_r | ].
    unfold mv_line_max_length. lra. }
  (* the additional HV lines *)
  assert (Hadd : 0 <= additional_hv_lines_of s <= N / 10).
  { unfold additional_hv_lines_of. fold m. split; [apply Rmax_l | ].
    apply Rmax_lub; [lra | ].
    assert (Hx : sqrt grid_cell_area / (2 * m) / 10 <= N / 10).
    { rewrite sqrt_grid_cell_area.
      apply Rmult_le_reg_r with (2 * m * 10); [lra | ].
      replace (10 / (2 * m) / 10 * (2 * m * 10)) with 10 by (field; lra).
      replace (N / 10 * (2 * m * 10)) with (2 * (N * m)) by field.
      assert (5 <= N * m).
      { replace 5 with (N * (5 / N)) by (field; lra).
        apply Rmult_le_compat_l; lra. }
      lra. }
    pose proof (round_ndigits_upper (sqrt grid_cell_area / (2 * m) / 10)).
    lra. }
  set (h := additional_hv_lines_of s) in *.
  split; [split; assumption | ].
  split; [exact Hlvb | ].
  split.
  { rewrite Hmvlen. fold N. apply Rmult_le_compat_r; lra. }
  split.
  { rewrite Hhvlen, sqrt_grid_cell_area. fold h. lra. }
  rewrite Htr. fold h N.
  destruct (Zceil_bound
              (h + N + IZR (no_mv_lines s * actual_lv_lines s))) as [Hlo _].
  rewrite mult_IZR in *. fold N in Hlo |- *.
  assert (Ha : 0 <= IZR (actual_lv_lines s) <= households s + 1).
  { split; [apply IZR_le; lia | ].
    apply IZR_le in Hact.
    destruct (Zceil_bound (households s)) as [Hc _]. lra. }
  assert (HNa : N * IZR (actual_lv_lines s) <= N * (households s + 1)).
  { apply Rmult_le_compat_l; lra. }
  lra.
Qed.

Lemma lcoe_val_split (a : lcoe_args) (s : sizing) :
  valid_args a -> calc_sizing a = Ok s ->
  lcoe_val a
  = investment_of a s / generation_per_year s
    * / annuity (Z.to_nat (system_life a))
    + om_of a s / generation_per_year s + fuel_of a.
Proof.
  intros Hv Hs. rewrite (lcoe_val_dcf a s Hv Hs), dcf_ratio_eq.
  destruct (calc_sizing_ok a (proj1 Hv)) as (s' & Hs' & Hok).
  rewrite Hs in Hs'. injection Hs' as <-.
  pose proof (so_generation_pos a s Hok) as Hgen.
  assert (HA : 0 < annuity (Z.to_nat (system_life a))).
  { apply annuity_pos. destruct Hv as (_ & _ & _ & HL). lia. }
  field. lra.
Qed.

Lemma annuity_inv_bound (m : nat) :
  (1 <= m)%nat -> 0 < / annuity m <= 1 + 8 / 100.
Proof.
  intros Hm. pose proof (annuity_lower_bound m Hm) as Hlb.
  pose proof (annuity_pos m Hm) as Hpos.
  split; [apply Rinv_0_lt_compat; exact Hpos | ].
  replace (1 + 8 / 100) with (/ / (1 + 8 / 100)) by (field; lra).
  apply Rinv_le_contravar; [ | exact Hlb].
  apply Rinv_0_lt_compat. lra.
Qed.

(** The value of a call from bounds on its costs per unit of generation. *)
Lemma lcoe_val_upper (a : lcoe_args) (s : sizing) (C D F : R) :
  valid_args a -> calc_sizing a = Ok s ->
  0 <= investment_of a s <= C * generation_per_year s ->
  om_of a s <= D * generation_per_year s ->
  fuel_of a <= F ->
  lcoe_val a <= C * (1 + 8 / 100) + D + F.
Proof.
  intros Hv Hs [Hinv0 Hinv] Hom Hfuel.
  rewrite (lcoe_val_split a s Hv Hs).
  destruct (calc_sizing_ok a (proj1 Hv)) as (s' & Hs' & Hok).
  rewrite Hs in Hs'. injection Hs' as <-.
  pose proof (so_generation_pos a s Hok) as Hgen.
  set (G := generation_per_year s) in *.
  assert (HA : 0 < / annuity (Z.to_nat (system_life a)) <= 1 + 8 / 100).
  { apply annuity_inv_bound. destruct Hv as (_ & _ & _ & HL). lia. }
  set (iA := / annuity (Z.to_nat (system_life a))) in *.
  assert (Hi : 0 <= investment_of a s / G <= C).
  { split.
    - apply Rmult_le_pos; [exact Hinv0 | left; apply Rinv_0_lt_compat; lra].
    - apply Rmult_le_reg_r with G; [lra | ]. field_simplify; lra. }
  assert (Ho : om_of a s / G <= D).
  { apply Rmult_le_reg_r with G; [lra | ]. field_simplify; lra. }
  assert (Hprod : investment_of a s / G * iA <= C * (1 + 8 / 100)).
  { apply Rmult_le_compat; lra. }
  lra.
Qed.

Lemma tech_table_bounded :
  Forall (fun kc => bounded_constants (snd kc)) tech_table.
Proof.
  unfold tech_table.
  repeat (apply Forall_cons; [ | ]); try apply Forall_nil;
    unfold bounded_constants, HOURS_PER_YEAR; cbn; repeat split; try lra; lia.
Qed.

Lemma bounded_constants_good (c : tech_constants) :
  bounded_constants c -> good_constants c.
Proof.
  intros (Hcf & Hdl & Hk & Hom & Hb & Hl & Hm & He).
  unfold good_constants. repeat split; try lra; lia.
Qed.

Lemma annuity_upper (m : nat) : annuity m <= 25 / 2.
Proof.
  rewrite annuity_closed_form.
  pose proof (Rinv_0_lt_compat _ (discount_pow_pos m)) as Hq.
  unfold discount_rate in Hq. lra.
Qed.

Lemma dcf_denominator_eq (gen : R) (L : Z) :
  sum_f_R0 (fun y => dcf_generation gen y / (1 + 8 / 100) ^ y) (Z.to_nat L)
  = gen * annuity (Z.to_nat L).
Proof.
  rewrite sum_f_R0_seq. cbn [seq map].
  rewrite np_sum_cons, dcf_generation_tail.
  unfold annuity. cbn [dcf_generation]. simpl. lra.
Qed.

Lemma dcf_denominator_bounds (gen : R) (L : Z) :
  (1 <= L)%Z -> 200 <= gen <= 16000000000 ->
  185 <= sum_f_R0 (fun y => dcf_generation gen y / (1 + 8 / 100) ^ y)
                  (Z.to_nat L)
      <= 200000000000.
Proof.
  intros HL [Hlo Hhi]. rewrite dcf_denominator_eq.
  assert (Hm : (1 <= Z.to_nat L)%nat) by lia.
  pose proof (annuity_lower_bound _ Hm) as Hlb.
  pose proof (annuity_upper (Z.to_nat L)) as Hub.
  set (A := annuity (Z.to_nat L)) in *.
  assert (H1 : / (1 + 8 / 100) = 100 / 108) by (field; lra).
  rewrite H1 in Hlb.
  split.
  - apply Rle_trans with (200 * (100 / 108)); [lra | ].
    apply Rmult_le_compat; lra.
  - apply Rle_trans with (16000000000 * (25 / 2)); [ | lra].
    apply Rmult_le_compat; lra.
Qed.

Lemma extension_cost_upper (d : Z) :
  (0 <= d <= 50)%Z -> extension_cost (IZR d) <= 1100000.
Proof.
  intros [Hd0 Hd50].
  apply Rle_trans with (extension_cost 50).
  - apply extension_cost_mono. split; apply IZR_le; assumption.
  - unfold extension_cost, mv_line_cost, mv_increase_rate.
    replace (50 / 5 - 1) with (INR 9) by (simpl; lra).
    rewrite Rpower_pow by lra. cbn [pow]. lra.
Qed.

(** The generation of a sampled number of people, for a scenario between 1
    and 100000 and losses between 0 and 1. *)
Lemma generation_bounds (a : lcoe_args) (s : sizing) :
  sizing_ok a s -> (10 <= people a <= 4000)%Z ->
  1 <= scenario a <= 100000 -> 0 <= distribution_losses a < 1 ->
  200 <= households s <= 80000
  /\ households s <= generation_per_year s
  /\ generation_per_year s <= 16000000000.
Proof.
  intros Hok [Hp1 Hp2] [Hs1 Hs2] [Hd1 Hd2].
  assert (Hhh : 200 <= households s <= 80000).
  { rewrite (so_households a s Hok). unfold NUM_PEOPLE_PER_HH.
    rewrite mult_IZR. apply IZR_le in Hp1, Hp2. lra. }
  split; [exact Hhh | ].
  rewrite (so_generation a s Hok).
  set (H := households s) in *.
  assert (H1 : H <= H * scenario a).
  { rewrite <- (Rmult_1_r H) at 1. apply Rmult_le_compat_l; lra. }
  assert (H2 : H * scenario a <= 80000 * 100000).
  { apply Rmult_le_compat; lra. }
  split.
  - rewrite <- (Rmult_1_r H) at 1.
    apply Rmult_le_compat; lra.
  - apply Rle_trans with (80000 * 100000 * 2); [ | lra].
    apply Rmult_le_compat; lra.
Qed.

Lemma sizing_of_valid (a : lcoe_args) :
  valid_args a ->
  exists s, calc_sizing a = Ok s /\ sizing_ok a s /\ sizing_detail a s.
Proof.
  intros Hv.
  destruct (calc_sizing_ok a (proj1 Hv)) as (s & Hs & Hok).
  destruct (calc_sizing_detail a (proj1 Hv)) as (s' & Hs' & Hd).
  rewrite Hs in Hs'. injection Hs' as <-.
  exists s. split; [exact Hs | split; assumption].
Qed.

(** A grid call of the evaluator within the ranges. *)
Lemma grid_call_bounded (p : Z) (s om tl b2p gp : R) (d : Z) :
  (10 <= p <= 4000)%Z -> 1 <= s <= 100000 -> 0 <= tl < 1 ->
  1 / 100 <= b2p -> 0 <= om <= 3 / 100 -> 0 <= gp <= 1000 ->
  (0 <= d <= 50)%Z ->
  exists sz,
    calc_sizing (grid_call p s om tl b2p gp d) = Ok sz
    /\ 200 <= generation_per_year sz <= 16000000000
    /\ lcoe_val (grid_call p s om tl b2p gp d) <= 1000000.
Proof.
  intros Hp Hs Htl Hb Hom Hgp Hd.
  set (a := grid_call p s om tl b2p gp d).
  assert (Hv : valid_args a).
  { apply grid_call_valid; try lra; lia. }
  destruct (sizing_of_valid a Hv) as (sz & Hsz & Hok & Hdet).
  destruct (generation_bounds a sz Hok Hp Hs Htl) as (Hhh & HhG & HG).
  exists sz. split; [exact Hsz | ]. split; [lra | ].
  destruct (sizing_upper_bounds a sz Hdet ltac:(lra))
    as ([HN1 HN] & Hlv & Hmv & Hhv & Htr).
  pose proof (so_peak a sz Hok) as Hpeak.
  pose proof (so_generation_pos a sz Hok) as HGpos.
  pose proof (so_lv_length_pos a sz Hok) as Hlv0.
  pose proof (so_mv_length_pos a sz Hok) as Hmv0.
  pose proof (so_hv_length_pos a sz Hok) as Hhv0.
  pose proof (IZR_le _ _ (so_transformers_pos a sz Hok)) as Htr0.
  pose proof (extension_cost_upper d Hd) as Hext.
  assert (Hext0 : 0 <= extension_cost (IZR d)).
  { apply extension_cost_nonneg. apply IZR_le. lia. }
  unfold HOURS_PER_YEAR in Hpeak.
  cbn [a grid_call base_to_peak_load_ratio] in Hpeak.
  set (G := generation_per_year sz) in *.
  set (H := households sz) in *.
  set (N := IZR (no_mv_lines sz)) in *.
  assert (Hpk : peak_load sz <= G / 8760 * 100).
  { rewrite Hpeak. unfold Rdiv at 1. apply Rmult_le_compat_l.
    - apply Rmult_le_pos; lra.
    - replace 100 with (/ (1 / 100)) by (field; lra).
      apply Rinv_le_contravar; lra. }
  assert (HNG : N <= G / 4380 + 1) by lra.
  assert (HP : N * (H + 1) <= G * 80001 / 4380 + H + 1).
  { apply Rle_trans with ((G / 4380 + 1) * (H + 1)).
    - apply Rmult_le_compat_r; lra.
    - assert (G / 4380 * (H + 1) <= G / 4380 * 80001).
      { apply Rmult_le_compat_l; lra. }
      lra. }
  set (P := N * (H + 1)) in *.
  assert (Htd : 0 <= td_investment_of a sz <= 120000 * G).
  { unfold extension_cost in *.
    unfold td_investment_of, a, hv_line_cost, mv_line_cost, lv_line_cost,
      hv_lv_transformer_cost in *.
    cbn [grid grid_call connection_cost_per_hh additional_mv_line_length].
    fold H. lra. }
  apply Rle_trans with (120000 * (1 + 8 / 100) + 3600 + 1000); [ | lra].
  apply (lcoe_val_upper a sz 120000 3600 1000 Hv Hsz).
  - unfold investment_of. cbn [a grid grid_call]. exact Htd.
  - unfold om_of. cbn [a grid grid_call om_of_td_lines].
    fold a G. apply Rle_trans with (120000 * G * (3 / 100)); [ | lra].
    apply Rmult_le_compat; lra.
  - unfold fuel_of. cbn [a diesel grid grid_call grid_price]. lra.
Qed.

(** An off-grid call of the evaluator within the ranges. *)
Lemma tech_call_bounded (ci : cost_inputs) (p : Z) (s : R)
                        (c : tech_constants) :
  (10 <= p <= 4000)%Z -> 1 <= s <= 100000 -> bounded_constants c ->
  0 <= ci_om_of_td_lines ci <= 3 / 100 ->
  0 <= ci_tech_om_ratio ci c <= 1 / 10 ->
  0 <= ci_diesel_price ci <= 101 ->
  exists sz,
    calc_sizing (portfolio_tech_call ci p s c) = Ok sz
    /\ 200 <= generation_per_year sz <= 16000000000
    /\ lcoe_val (portfolio_tech_call ci p s c) <= 1000000.
Proof.
  intros Hp Hs Hbc Homtd Homc Hdp.
  pose proof Hbc as (Hcf & Hdl & Hk & _ & Hb & Hl & Hm & He).
  set (a := portfolio_tech_call ci p s c).
  assert (Hv : valid_args a).
  { apply portfolio_tech_call_valid; try lra; try lia.
    apply bounded_constants_good. exact Hbc. }
  destruct (sizing_of_valid a Hv) as (sz & Hsz & Hok & Hdet).
  destruct (generation_bounds a sz Hok Hp Hs) as (Hhh & HhG & HG).
  { cbn. lra. }
  exists sz. split; [exact Hsz | ]. split; [lra | ].
  destruct (sizing_upper_bounds a sz Hdet ltac:(lra))
    as (_ & Hlv & _ & _ & _).
  pose proof (so_peak a sz Hok) as Hpeak.
  pose proof (so_peak_pos a sz Hok) as Hpk0.
  pose proof (so_generation_pos a sz Hok) as HGpos.
  pose proof (so_lv_length_pos a sz Hok) as Hlv0.
  unfold HOURS_PER_YEAR in Hpeak.
  cbn [a portfolio_tech_call tech_call base_to_peak_load_ratio] in Hpeak.
  set (G := generation_per_year sz) in *.
  set (H := households sz) in *.
  set (lv := total_lv_lines_length sz) in *.
  assert (Hpk : peak_load sz <= G / 8760 * 2).
  { rewrite Hpeak. unfold Rdiv at 1. apply Rmult_le_compat_l.
    - apply Rmult_le_pos; lra.
    - replace 2 with (/ (1 / 2)) by (field; lra).
      apply Rinv_le_contravar; lra. }
  set (Q := peak_load sz / tc_capacity_factor c).
  assert (HQ : 0 <= Q <= G / 8760 * 2 * (100 / 19)).
  { unfold Q, Rdiv at 1. split.
    - apply Rmult_le_pos; [lra | ].
      left. apply Rinv_0_lt_compat. lra.
    - apply Rmult_le_compat; try lra.
      + left. apply Rinv_0_lt_compat. lra.
      + replace (100 / 19) with (/ (19 / 100)) by (field; lra).
        apply Rinv_le_contravar; lra. }
  assert (HkQ : 0 <= Q * tc_capital_cost c <= 7 * G).
  { split; [apply Rmult_le_pos; lra | ].
    apply Rle_trans with (G / 8760 * 2 * (100 / 19) * 5000); [ | lra].
    apply Rmult_le_compat; lra. }
  set (f := if tc_standalone c then 0 else 75 / 100).
  assert (Hf : 0 <= f <= 1) by (unfold f; destruct (tc_standalone c); lra).
  assert (Hlvf : 0 <= lv * f <= lv).
  { split; [apply Rmult_le_pos; lra | ].
    rewrite <- (Rmult_1_r lv) at 2. apply Rmult_le_compat_l; lra. }
  assert (Htd : 0 <= td_investment_of a sz <= 7000 * G).
  { unfold td_investment_of, a, mv_line_cost, lv_line_cost.
    cbn [grid portfolio_tech_call tech_call standalone mv_line_length
         connection_cost_per_hh].
    fold H lv f. lra. }
  apply Rle_trans with (7100 * (1 + 8 / 100) + 300 + 400); [ | lra].
  apply (lcoe_val_upper a sz 7100 300 400 Hv Hsz).
  - unfold investment_of.
    cbn [a grid portfolio_tech_call tech_call capacity_factor capital_cost].
    fold a Q G. lra.
  - unfold om_of.
    cbn [a grid portfolio_tech_call tech_call capacity_factor capital_cost
         om_of_td_lines om_costs].
    fold a Q G.
    set (omtd := if tc_standalone c then 0 else ci_om_of_td_lines ci).
    assert (Homtd' : 0 <= omtd <= 3 / 100)
      by (unfold omtd; destruct (tc_standalone c); lra).
    assert (H1 : td_investment_of a sz * omtd <= 7000 * G * (3 / 100)).
    { apply Rmult_le_compat; lra. }
    assert (H2 : tc_capital_cost c * ci_tech_om_ratio ci c * Q
                 <= 7 * G * (1 / 10)).
    { replace (tc_capital_cost c * ci_tech_om_ratio ci c * Q)
        with (Q * tc_capital_cost c * ci_tech_om_ratio ci c) by ring.
      apply Rmult_le_compat; lra. }
    lra.
  - unfold fuel_of.
    cbn [a diesel grid portfolio_tech_call tech_call diesel_price
         efficiency].
    destruct (tc_diesel c); [ | lra].
    apply Rle_trans with (101 * (100 / 33)); [ | lra].
    unfold Rdiv at 1. apply Rmult_le_compat; try lra.
    + left. apply Rinv_0_lt_compat. lra.
    + replace (100 / 33) with (/ (33 / 100)) by (field; lra).
      apply Rinv_le_contravar; lra.
Qed.

Lemma mode_inputs_bounded (cs : country_specs) (cap : bool) :
  0 <= spe_grid_price cs <= 1000 -> 0 <= spe_diesel_price_low cs <= 1000 ->
  0 <= ci_om_of_td_lines (mode_inputs cs cap) <= 3 / 100
  /\ 0 <= ci_grid_price (mode_inputs cs cap) <= 1000
  /\ 0 <= ci_diesel_price (mode_inputs cs cap) <= 101
  /\ forall c, bounded_constants c ->
               0 <= ci_tech_om_ratio (mode_inputs cs cap) c <= 1 / 10.
Proof.
  intros Hgp Hdp. destruct cap; cbn.
  - repeat split; try lra; intros c _; lra.
  - assert (Hd : 0 <= spe_diesel_price_low cs / LHV_DIESEL <= 101).
    { unfold LHV_DIESEL. split.
      - apply Rmult_le_pos; [lra | ]. left. apply Rinv_0_lt_compat. lra.
      - apply Rmult_le_reg_r with (99445485 / 10000000); [lra | ].
        field_simplify; lra. }
    split; [lra | split; [lra | split; [exact Hd | ]]].
    intros c (_ & _ & _ & Hom & _). exact Hom.
Qed.

(** ** The value of a call within the ranges: claim C7 *)

(** C7, amended: for every sampled number of people, every scenario between
    1 and 100000 kWh per household and year, and every country with a
    base-to-peak ratio in [0.01, 1], grid losses in [0,1) and grid and
    diesel prices in [0, 1000], in either mode, each of the 20 calls of the
    evaluator (10 grid distances, 10 off-grid technologies) is well
    defined: the sizing raises nothing, the sum of the discounted
    generation lies between 185 and 2e11, so that it is strictly positive,
    and the call returns a real number between 0 and 1e6; the dictionary
    returned holds these 20 numbers. *)
Theorem lcoe_well_defined (cs : country_specs) (p : Z) (s : R) (cap : bool) :
  In p people_arr -> 1 <= s <= 100000 ->
  1 / 100 <= spe_base_to_peak cs <= 1 -> 0 <= spe_grid_losses cs < 1 ->
  0 <= spe_grid_price cs <= 1000 -> 0 <= spe_diesel_price_low cs <= 1000 ->
  List.length (calls (get_lcoes cs p s cap)) = 20%nat
  /\ (exists gv tv,
        run (get_lcoes cs p s cap)
        = Ok ((GRID, Seq (map Fin gv))
              :: combine techs (map (fun v => Scalar (Fin v)) tv))
        /\ List.length gv = 10%nat /\ List.length tv = 10%nat
        /\ Forall (fun v => 0 <= v <= 1000000) gv
        /\ Forall (fun v => 0 <= v <= 1000000) tv)
  /\ Forall
       (fun a =>
          exists sz v,
            calc_sizing a = Ok sz
            /\ 185 <= sum_f_R0
                        (fun y => dcf_generation (generation_per_year sz) y
                                  / (1 + 8 / 100) ^ y)
                        (Z.to_nat (system_life a))
                   <= 200000000000
            /\ calc_lcoe a = Ok (Fin v)
            /\ 0 <= v <= 1000000)
       (calls (get_lcoes cs p s cap)).
Proof.
  intros Hin Hs Hb Htl Hgp Hdp. apply people_arr_range in Hin.
  assert (Hp : (0 < p)%Z) by lia.
  assert (Hv : valid_cell cs p s) by (repeat split; try lra; lia).
  destruct (get_lcoes_ok cs p s cap Hv) as [Hcalls Hrun].
  destruct (mode_inputs_bounded cs cap Hgp Hdp)
    as (Hom & Hgp' & Hdp' & Hr).
  assert (Hgrid : forall d, In d ELEC_DISTANCES ->
            let a := grid_call p s (ci_om_of_td_lines (mode_inputs cs cap))
                               (spe_grid_losses cs) (spe_base_to_peak cs)
                               (ci_grid_price (mode_inputs cs cap)) d in
            valid_args a
            /\ 0 <= lcoe_val a <= 1000000
            /\ exists sz, calc_sizing a = Ok sz
                          /\ 200 <= generation_per_year sz <= 16000000000).
  { intros d Hd a. apply ELEC_DISTANCES_range in Hd.
    destruct (grid_call_bounded p s (ci_om_of_td_lines (mode_inputs cs cap))
                (spe_grid_losses cs) (spe_base_to_peak cs)
                (ci_grid_price (mode_inputs cs cap)) d)
      as (sz & Hsz & Hgen & Hub); try lra; try lia.
    split; [apply grid_call_valid; try lra; lia | ].
    split; [split; [ | exact Hub] | exists sz; split; assumption].
    apply grid_call_nonneg; try lra; lia. }
  assert (Htech : forall kc, In kc tech_table ->
            let a := portfolio_tech_call (mode_inputs cs cap) p s (snd kc) in
            valid_args a
            /\ 0 <= lcoe_val a <= 1000000
            /\ exists sz, calc_sizing a = Ok sz
                          /\ 200 <= generation_per_year sz <= 16000000000).
  { intros kc Hkc a.
    pose proof tech_table_bounded as Hbd.
    rewrite Forall_forall in Hbd. specialize (Hbd kc Hkc).
    pose proof (bounded_constants_good _ Hbd) as Hgood.
    destruct (tech_call_bounded (mode_inputs cs cap) p s (snd kc))
      as (sz & Hsz & Hgen & Hub); try lra; try lia; try assumption.
    { apply Hr. exact Hbd. }
    split; [apply portfolio_tech_call_valid; try lra; assumption | ].
    split; [split; [ | exact Hub] | exists sz; split; assumption].
    apply tech_call_nonneg; try lra; try assumption.
    apply (Hr _ Hbd). }
  split; [rewrite Hcalls; reflexivity | ].
  split.
  { exists (map (fun d =>
                   lcoe_val
                     (grid_call p s (ci_om_of_td_lines (mode_inputs cs cap))
                                (spe_grid_losses cs) (spe_base_to_peak cs)
                                (ci_grid_price (mode_inputs cs cap)) d))
                ELEC_DISTANCES),
           (map (fun kc =>
                   lcoe_val
                     (portfolio_tech_call (mode_inputs cs cap) p s (snd kc)))
                tech_table).
    split; [rewrite Hrun; unfold portfolio_dict; rewrite !map_map;
            reflexivity | ].
    split; [reflexivity | split; [reflexivity | split]].
    - apply Forall_map. apply Forall_forall. intros d Hd.
      apply (Hgrid d Hd).
    - apply Forall_map. apply Forall_forall. intros kc Hkc.
      apply (Htech kc Hkc). }
  assert (Hcall : forall a,
            valid_args a -> 0 <= lcoe_val a <= 1000000 ->
            (exists sz, calc_sizing a = Ok sz
                        /\ 200 <= generation_per_year sz <= 16000000000) ->
            exists sz v,
              calc_sizing a = Ok sz
              /\ 185 <= sum_f_R0
                          (fun y => dcf_generation (generation_per_year sz) y
                                    / (1 + 8 / 100) ^ y)
                          (Z.to_nat (system_life a))
                     <= 200000000000
              /\ calc_lcoe a = Ok (Fin v)
              /\ 0 <= v <= 1000000).
  { intros a Ha Hval (sz & Hsz & Hgen).
    exists sz, (lcoe_val a).
    split; [exact Hsz | split; [ | split; [apply lcoe_val_ok | ]]];
      try assumption.
    apply dcf_denominator_bounds; [ | exact Hgen].
    apply (proj2 (proj2 (proj2 Ha))). }
  rewrite Hcalls. unfold portfolio_calls. apply Forall_app. split.
  - apply Forall_map. apply Forall_forall. intros d Hd.
    destruct (Hgrid d Hd) as (H1 & H2 & H3). apply Hcall; assumption.
  - apply Forall_map. apply Forall_forall. intros kc Hkc.
    destruct (Htech kc Hkc) as (H1 & H2 & H3). apply Hcall; assumption.
Qed.

Lemma lcoe_well_defined_witness :
  exists gv tv,
    run (get_lcoes fixture_country 1000 1000 false)
    = Ok ((GRID, Seq (map Fin gv))
          :: combine techs (map (fun v => Scalar (Fin v)) tv))
    /\ Forall (fun v => 0 <= v <= 1000000) gv
    /\ Forall (fun v => 0 <= v <= 1000000) tv.
Proof.
  destruct (lcoe_well_defined fixture_country 1000 1000 false)
    as (_ & (gv & tv & Hrun & _ & _ & Hgv & Htv) & _).
  - apply in_people_arr_1000.
  - lra.
  - unfold fixture_country; cbn; lra.
  - unfold fixture_country; cbn; lra.
  - unfold fixture_country; cbn; lra.
  - unfold fixture_country; cbn; lra.
  - exists gv, tv. split; [exact Hrun | split; assumption].
Defined.

(** ** Margins: the grid along the distances, stand-alone against mini-grid *)

Lemma bounded_cell_valid (cs : country_specs) (p : Z) (s : R) :
  bounded_cell cs p s -> valid_cell cs p s.
Proof.
  intros (Hin & Hs & Hb & Htl & _). apply people_arr_range in Hin.
  repeat split; try lra; lia.
Qed.

Lemma grid_value_bounded (cs : country_specs) (p : Z) (s : R) (cap : bool)
                         (d : Z) :
  bounded_cell cs p s -> In d ELEC_DISTANCES ->
  0 <= lcoe_val (grid_call p s (ci_om_of_td_lines (mode_inputs cs cap))
                           (spe_grid_losses cs) (spe_base_to_peak cs)
                           (ci_grid_price (mode_inputs cs cap)) d)
    <= 1000000.
Proof.
  intros (Hin & Hs & Hb & Htl & Hgp & Hdp) Hd.
  apply people_arr_range in Hin. apply ELEC_DISTANCES_range in Hd.
  destruct (mode_inputs_bounded cs cap Hgp Hdp) as (Hom & Hgp' & _ & _).
  split.
  - apply grid_call_nonneg; try lra; lia.
  - destruct (grid_call_bounded p s (ci_om_of_td_lines (mode_inputs cs cap))
                (spe_grid_losses cs) (spe_base_to_peak cs)
                (ci_grid_price (mode_inputs cs cap)) d)
      as (_ & _ & _ & Hub); try lra; try lia.
Qed.

Lemma tech_value_bounded (cs : country_specs) (p : Z) (s : R) (cap : bool)
                         (c : tech_constants) :
  bounded_cell cs p s -> bounded_constants c ->
  0 <= lcoe_val (portfolio_tech_call (mode_inputs cs cap) p s c) <= 1000000.
Proof.
  intros (Hin & Hs & Hb & Htl & Hgp & Hdp) Hbd.
  apply people_arr_range in Hin.
  destruct (mode_inputs_bounded cs cap Hgp Hdp) as (Hom & _ & Hdp' & Hr).
  pose proof (bounded_constants_good _ Hbd) as Hgood.
  split.
  - apply tech_call_nonneg; try lra; try lia; try assumption.
    apply (Hr _ Hbd).
  - destruct (tech_call_bounded (mode_inputs cs cap) p s c)
      as (_ & _ & _ & Hub); try lra; try lia; try assumption.
    apply (Hr _ Hbd).
Qed.

Lemma Rpower_ge_1 (x y : R) : 1 <= x -> 0 <= y -> 1 <= Rpower x y.
Proof.
  intros Hx Hy. rewrite <- (Rpower_O x) by lra.
  apply Rle_Rpower; lra.
Qed.

Lemma extension_cost_gap (d d' : Z) :
  (5 <= d)%Z -> (d + 5 <= d')%Z ->
  extension_cost (IZR d) + 45000 <= extension_cost (IZR d').
Proof.
  intros Hd Hdd'. unfold extension_cost, mv_line_cost, mv_increase_rate.
  assert (H5 : 5 <= IZR d) by (apply IZR_le; exact Hd).
  assert (Hdd : IZR d + 5 <= IZR d').
  { apply IZR_le in Hdd'. rewrite plus_IZR in Hdd'. exact Hdd'. }
  assert (Hpow : Rpower (1 + 1 / 10) (IZR d / 5 - 1)
                 <= Rpower (1 + 1 / 10) (IZR d' / 5 - 1)).
  { apply Rle_Rpower; lra. }
  assert (H1 : 1 <= Rpower (1 + 1 / 10) (IZR d' / 5 - 1)).
  { apply Rpower_ge_1; lra. }
  pose proof (Rpower_pos (1 + 1 / 10) (IZR d / 5 - 1)) as Hpos.
  set (r := Rpower (1 + 1 / 10) (IZR d / 5 - 1)) in *.
  set (r' := Rpower (1 + 1 / 10) (IZR d' / 5 - 1)) in *.
  assert (Ha : IZR d * r <= IZR d * r').
  { apply Rmult_le_compat_l; lra. }
  assert (Hb : (IZR d + 5) * r' <= IZR d' * r').
  { apply Rmult_le_compat_r; lra. }
  lra.
Qed.

Lemma annuity_inv_lower (m : nat) : (1 <= m)%nat -> 8 / 100 <= / annuity m.
Proof.
  intros Hm. pose proof (annuity_pos m Hm) as Hpos.
  pose proof (annuity_upper m) as Hub.
  replace (8 / 100) with (/ (25 / 2)) by (field; lra).
  apply Rinv_le_contravar; assumption.
Qed.

(** The grid call at two distances of the grid that are at least 5 km
    apart. *)
Lemma grid_gap_distance (p : Z) (s om tl b2p gp : R) (d d' : Z) :
  (10 <= p <= 4000)%Z -> 1 <= s <= 100000 -> 0 <= tl < 1 -> 0 < b2p ->
  0 <= om -> (5 <= d)%Z -> (d + 5 <= d')%Z ->
  lcoe_val (grid_call p s om tl b2p gp d) + grid_margin
  <= lcoe_val (grid_call p s om tl b2p gp d').
Proof.
  intros Hp Hs Htl Hb Hom Hd Hdd'.
  assert (Hv : valid_args (grid_call p s om tl b2p gp d)).
  { apply grid_call_valid; try lra; lia. }
  assert (Hv' : valid_args (grid_call p s om tl b2p gp d')).
  { apply grid_call_valid; try lra; lia. }
  destruct (calc_lcoe_ok _ Hv) as (sz & Hsz & Hok & _).
  assert (Hsz' : calc_sizing (grid_call p s om tl b2p gp d') = Ok sz)
    by exact Hsz.
  rewrite (lcoe_val_split _ sz Hv Hsz), (lcoe_val_split _ sz Hv' Hsz').
  destruct (generation_bounds _ sz Hok Hp Hs Htl) as (Hhh & HhG & HG).
  pose proof (so_generation_pos _ _ Hok) as HGpos.
  pose proof (extension_cost_gap d d' Hd Hdd') as Hgap.
  assert (HA : 8 / 100 <= / annuity (Z.to_nat 30)).
  { apply annuity_inv_lower. lia. }
  unfold fuel_of, investment_of, om_of, td_investment_of, extension_cost,
    grid_margin in *.
  cbn [diesel grid grid_price system_life grid_call om_of_td_lines
       additional_mv_line_length connection_cost_per_hh] in *.
  set (iA := / annuity (Z.to_nat 30)) in *.
  set (G := generation_per_year sz) in *.
  set (base := hv_lines_total_length sz * hv_line_cost
               + total_length_of_lines sz * mv_line_cost
               + total_lv_lines_length sz * lv_line_cost
               + IZR (num_transformers sz) * hv_lv_transformer_cost
               + households sz * 125).
  set (e := IZR d * (mv_line_cost
                     * Rpower (1 + mv_increase_rate) (IZR d / 5 - 1))) in *.
  set (e' := IZR d' * (mv_line_cost
                       * Rpower (1 + mv_increase_rate) (IZR d' / 5 - 1)))
    in *.
  assert (HiG : 45000 / 16000000000 <= 45000 / G).
  { unfold Rdiv. apply Rmult_le_compat_l; [lra | ].
    apply Rinv_le_contravar; lra. }
  assert (Hi : (base + e) / G + 45000 / G <= (base + e') / G).
  { replace ((base + e) / G + 45000 / G) with ((base + e + 45000) / G)
      by (field; lra).
    unfold Rdiv. apply Rmult_le_compat_r; [ | lra].
    left. apply Rinv_0_lt_compat. lra. }
  assert (Ho : (base + e) * om / G <= (base + e') * om / G).
  { unfold Rdiv. apply Rmult_le_compat_r.
    - left. apply Rinv_0_lt_compat. lra.
    - apply Rmult_le_compat_r; lra. }
  assert (Hprod : ((base + e) / G + 45000 / G) * iA
                  <= (base + e') / G * iA).
  { apply Rmult_le_compat_r; lra. }
  assert (Hm : 45000 / 16000000000 * (8 / 100) <= 45000 / G * iA).
  { apply Rmult_le_compat; lra. }
  lra.
Qed.

Lemma ELEC_DISTANCES_step (d d' : Z) :
  In d ELEC_DISTANCES -> In d' ELEC_DISTANCES -> (d < d')%Z ->
  (5 <= d)%Z /\ (d + 5 <= d')%Z.
Proof.
  unfold ELEC_DISTANCES. intros Hd Hd' Hlt.
  apply in_map_iff in Hd, Hd'.
  destruct Hd as (x & <- & Hx). destruct Hd' as (x' & <- & Hx').
  apply in_seq in Hx. lia.
Qed.

Lemma ELEC_DISTANCES_increasing : StronglySorted Z.lt ELEC_DISTANCES.
Proof.
  unfold ELEC_DISTANCES. cbn.
  repeat (constructor; [ | repeat (constructor; try lia)]).
  constructor.
Qed.

(** X20: within the ranges (a sampled number of people, a scenario between
    1 and 100000, a base-to-peak ratio in [0.01, 1], grid losses in [0, 1),
    prices in [0, 1000]), in either mode, the 10 grid values of the
    evaluator lie between 0 and 1e6 and increase with the distance by at
    least [grid_margin] = 2e-7 from one distance to the next: no two
    distances share a value. *)
Theorem grid_lcoe_strictly_increasing_in_distance
        (cs : country_specs) (p : Z) (s : R) (cap : bool) :
  bounded_cell cs p s ->
  exists d vs,
    run (get_lcoes cs p s cap) = Ok d
    /\ dict_get d GRID = Some (Seq (map Fin vs))
    /\ List.length vs = 10%nat
    /\ Forall (fun v => 0 <= v <= 1000000) vs
    /\ StronglySorted (fun x y => x + grid_margin <= y) vs.
Proof.
  intros Hbc.
  pose proof (bounded_cell_valid cs p s Hbc) as Hv.
  destruct (get_lcoes_ok cs p s cap Hv) as [_ Hrun].
  do 2 eexists.
  split; [exact Hrun | split; [apply dict_get_grid | split; [ | split]]].
  - rewrite length_map. reflexivity.
  - apply Forall_map. apply Forall_forall. intros d Hd.
    apply grid_value_bounded; assumption.
  - apply (StronglySorted_map_mono Z.lt); [ | apply ELEC_DISTANCES_increasing].
    intros d d' Hd Hd' Hlt.
    destruct (ELEC_DISTANCES_step d d' Hd Hd' Hlt) as [H5 Hstep].
    destruct Hbc as (Hin & Hs & Hb & Htl & Hgp & Hdp).
    apply people_arr_range in Hin.
    apply grid_gap_distance; try assumption; try lra.
    destruct cap; cbn; lra.
Qed.

Lemma grid_lcoe_strictly_increasing_in_distance_witness :
  exists d vs,
    run (get_lcoes fixture_country 1000 1000 true) = Ok d
    /\ dict_get d GRID = Some (Seq (map Fin vs))
    /\ List.length vs = 10%nat
    /\ Forall (fun v => 0 <= v <= 1000000) vs
    /\ StronglySorted (fun x y => x + grid_margin <= y) vs.
Proof.
  apply (grid_lcoe_strictly_increasing_in_distance fixture_country 1000 1000
           true).
  unfold bounded_cell, fixture_country. cbn.
  split; [apply in_people_arr_1000 | repeat split; lra].
Defined.

Lemma annuity_at_least_3_years (m : nat) : (3 <= m)%nat -> 5 / 2 <= annuity m.
Proof.
  intros Hm. destruct m as [ | [ | [ | m]]]; try lia.
  unfold annuity. rewrite !annuity_from_S.
  pose proof (annuity_from_nonneg 4 m) as H4.
  unfold discount_rate in *. cbn [pow].
  assert (H1 : / ((1 + 8 / 100) * 1) = 100 / 108) by (field; lra).
  assert (H2 : / ((1 + 8 / 100) * ((1 + 8 / 100) * 1)) = 10000 / 11664)
    by (field; lra).
  assert (H3 : / ((1 + 8 / 100) * ((1 + 8 / 100) * ((1 + 8 / 100) * 1)))
               = 1000000 / 1259712) by (field; lra).
  rewrite H1, H2, H3. lra.
Qed.

(** The value of a mini-grid call with no MV line, in terms of the LV line
    length of its sizing. *)
Lemma minigrid_value (p : Z) (s om cf dl k omc b2p : R) (L : Z)
                     (eff dp : R) (dsl : bool) :
  (0 < p)%Z -> 0 < s -> -1 < dl -> 0 < b2p -> (1 <= L)%Z -> cf <> 0 ->
  (dsl = true -> eff <> 0) ->
  exists x : R,
    0 < x
    /\ lcoe_val (tech_call p s om cf dl k omc b2p L 0 eff dp dsl false)
       = (x + 100 / (s * (1 + dl)) + k / (cf * 8760 * b2p))
         / annuity (Z.to_nat L)
         + ((x + 100 / (s * (1 + dl))) * om + k * omc / (cf * 8760 * b2p))
         + (if dsl then dp / eff else 0).
Proof.
  intros Hp Hs Hd Hb HL Hcf He.
  set (a := tech_call p s om cf dl k omc b2p L 0 eff dp dsl false).
  assert (Hv : valid_args a).
  { unfold valid_args, valid_load, a. cbn. repeat split; auto. }
  destruct (calc_lcoe_ok a Hv) as (sz & Hsz & Hok & _).
  pose proof (so_generation a sz Hok) as Hgen.
  pose proof (so_generation_pos a sz Hok) as Hgpos.
  pose proof (so_peak a sz Hok) as Hpeak.
  pose proof (so_households_pos a sz Hok) as Hhh.
  pose proof (so_lv_length_pos a sz Hok) as Hlv.
  exists (5000 * (total_lv_lines_length sz * (75 / 100))
          / generation_per_year sz).
  split.
  { apply Rdiv_lt_0_compat; lra. }
  rewrite (lcoe_val_dcf a sz Hv Hsz), dcf_ratio_eq.
  assert (HA : 0 < annuity (Z.to_nat L)) by (apply annuity_pos; lia).
  unfold investment_of, om_of, fuel_of, td_investment_of, a,
    HOURS_PER_YEAR, mv_line_cost, lv_line_cost in *.
  cbn [grid diesel standalone mv_line_length connection_cost_per_hh
       capacity_factor capital_cost om_of_td_lines om_costs diesel_price
       efficiency scenario distribution_losses base_to_peak_load_ratio
       system_life tech_call] in *.
  set (A := annuity (Z.to_nat L)) in *.
  set (len := total_lv_lines_length sz) in *.
  rewrite Hpeak, Hgen.
  destruct dsl.
  - specialize (He eq_refl). field. repeat split; lra.
  - field. repeat split; lra.
Qed.

(** A mini-grid call of the evaluator against the stand-alone call with the
    same generator, in full-cost mode. *)
Lemma minigrid_above_standalone_margin (p : Z) (s cf k omc b2p : R) (L : Z)
                                       (eff dp : R) (dsl : bool) :
  (0 < p)%Z -> 0 < s <= 100000 -> 0 < b2p -> (3 <= L)%Z -> cf <> 0 ->
  (dsl = true -> eff <> 0) ->
  lcoe_val (tech_call p s 0 cf 0 k omc b2p L 0 eff dp dsl true)
  + standalone_margin
  <= lcoe_val (tech_call p s (3 / 100) cf (5 / 100) k omc b2p L 0 eff dp dsl
                         false).
Proof.
  intros Hp [Hs Hs5] Hb HL Hcf He.
  destruct (minigrid_value p s (3 / 100) cf (5 / 100) k omc b2p L eff dp dsl)
    as (x & Hx & ->); try assumption; try lra; try lia.
  rewrite standalone_value; try assumption; try lra; try lia.
  assert (HA : 5 / 2 <= annuity (Z.to_nat L))
    by (apply annuity_at_least_3_years; lia).
  set (A := annuity (Z.to_nat L)) in *.
  set (K := k / (cf * 8760 * b2p)).
  set (F := if dsl then dp / eff else 0).
  set (K' := k * omc / (cf * 8760 * b2p)).
  assert (Hinv : 0 < / A) by (apply Rinv_0_lt_compat; lra).
  assert (HinvA : / A <= 2 / 5).
  { replace (2 / 5) with (/ (5 / 2)) by field.
    apply Rinv_le_contravar; lra. }
  assert (Hu : 1 / 1000 <= 100 / s).
  { apply Rmult_le_reg_r with s; [lra | ]. field_simplify; lra. }
  replace (100 / (s * (1 + 0))) with (100 / s) by (field; lra).
  replace (100 / (s * (1 + 5 / 100))) with (100 / s * (100 / 105))
    by (field; lra).
  set (u := 100 / s) in *.
  unfold Rdiv at 1 5. unfold standalone_margin.
  assert (Hxa : 0 < x * / A) by (apply Rmult_lt_0_compat; assumption).
  assert (Hua : u * / A <= u * (2 / 5))
    by (apply Rmult_le_compat_l; lra).
  nra.
Qed.

(** X21: within the ranges, in full-cost mode, each stand-alone technology
    is cheaper than the mini-grid with the same generator, by at least
    [standalone_margin] = 5e-6: stand-alone diesel below mini-grid diesel,
    and stand-alone PV below mini-grid PV at both irradiations; the six
    values lie between 0 and 1e6. *)
Theorem standalone_cheaper_than_minigrid (cs : country_specs) (p : Z)
                                         (s : R) :
  bounded_cell cs p s ->
  exists d sd md sl ml sh mh,
    run (get_lcoes cs p s false) = Ok d
    /\ dict_get d SA_DIESEL = Some (Scalar (Fin sd))
    /\ dict_get d MG_DIESEL = Some (Scalar (Fin md))
    /\ dict_get d SA_PV_LOW = Some (Scalar (Fin sl))
    /\ dict_get d MG_PV_LOW = Some (Scalar (Fin ml))
    /\ dict_get d SA_PV_HIGH = Some (Scalar (Fin sh))
    /\ dict_get d MG_PV_HIGH = Some (Scalar (Fin mh))
    /\ Forall (fun v => 0 <= v <= 1000000) [sd; md; sl; ml; sh; mh]
    /\ sd + standalone_margin <= md
    /\ sl + standalone_margin <= ml
    /\ sh + standalone_margin <= mh.
Proof.
  intros Hbc.
  pose proof (bounded_cell_valid cs p s Hbc) as Hv.
  destruct (get_lcoes_ok cs p s false Hv) as [_ Hrun].
  do 7 eexists.
  split; [exact Hrun | ].
  do 6 (split; [reflexivity | ]).
  split.
  - pose proof tech_table_bounded as Hbd. rewrite Forall_forall in Hbd.
    repeat (apply Forall_cons;
            [apply (tech_value_bounded cs p s false _ Hbc);
             apply (Hbd (_, _)); unfold tech_table; cbn [In];
             repeat (first [left; reflexivity | right]) | ]).
    apply Forall_nil.
  - destruct Hbc as (Hin & Hs & _). apply people_arr_range in Hin.
    unfold portfolio_tech_call, HOURS_PER_YEAR.
    cbn [snd tc_standalone tc_diesel tc_capacity_factor
         tc_distribution_losses tc_capital_cost tc_base_to_peak
         tc_system_life tc_mv_line_length tc_efficiency tc_om_ratio
         ci_om_of_td_lines ci_tech_om_ratio ci_diesel_price mode_inputs
         zeroed_cost_inputs full_cost_inputs].
    repeat split;
      apply minigrid_above_standalone_margin; try lra; try lia;
      try discriminate; intros _; lra.
Qed.

Lemma standalone_cheaper_than_minigrid_witness :
  exists d sd md,
    run (get_lcoes fixture_country 1000 1000 false) = Ok d
    /\ dict_get d SA_DIESEL = Some (Scalar (Fin sd))
    /\ dict_get d MG_DIESEL = Some (Scalar (Fin md))
    /\ sd + standalone_margin <= md.
Proof.
  destruct (standalone_cheaper_than_minigrid fixture_country 1000 1000)
    as (d & sd & md & sl & ml & sh & mh & Hrun & Hsd & Hmd & _ & _ & _ & _
        & _ & Hlt & _).
  - unfold bounded_cell, fixture_country. cbn.
    split; [apply in_people_arr_1000 | repeat split; lra].
  - exists d, sd, md. repeat split; assumption.
Defined.

(** ** Output paths and scenarios *)

Local Open Scope string_scope.

Lemma append_assoc (a b c : string) : (a ++ b) ++ c = a ++ (b ++ c).
Proof. induction a as [ | ch a IH]; cbn; [reflexivity | now rewrite IH]. Qed.

Lemma length_append (a b : string) :
  String.length (a ++ b) = (String.length a + String.length b)%nat.
Proof. induction a as [ | ch a IH]; cbn; [reflexivity | now rewrite IH]. Qed.

Lemma append_inj_l (a x y : string) : a ++ x = a ++ y -> x = y.
Proof.
  induction a as [ | ch a IH]; cbn; [trivial | ].
  intros [= H]. apply IH. exact H.
Qed.

Lemma append_same_length (x y r r' : string) :
  String.length x = String.length y -> x ++ r = y ++ r' -> x = y.
Proof.
  revert y. induction x as [ | c x IH]; intros [ | c' y]; cbn;
    try discriminate; [reflexivity | ].
  intros [= Hlen] [= -> H]. f_equal. apply (IH y Hlen H).
Qed.

Lemma ends_with_sep_append (a b : string) :
  b <> "" -> ends_with_sep (a ++ b) = ends_with_sep b.
Proof.
  intros Hb. induction a as [ | c a IH]; [reflexivity | ].
  cbn [append ends_with_sep]. rewrite IH.
  destruct (a ++ b) eqn:Hab; [ | reflexivity].
  destruct a; cbn in Hab; [contradiction | discriminate].
Qed.

Lemma output_dir_plain (x : string) :
  plain x -> output_dir x = "db/lcoes/" ++ x.
Proof.
  intros (_ & Hs & _). unfold output_dir, os_path_join. cbn [fold_left].
  unfold path_join at 1. rewrite Hs. reflexivity.
Qed.

Lemma output_file_plain (x prefix : string) :
  plain x -> starts_with_sep (prefix ++ x ++ ".csv") = false ->
  os_path_join FF_LCOES [x; prefix ++ x ++ ".csv"]
  = output_dir x ++ "/" ++ prefix ++ x ++ ".csv".
Proof.
  intros Hp Hpre. pose proof Hp as (Hne & Hs & He).
  change (os_path_join FF_LCOES [x; prefix ++ x ++ ".csv"])
    with (path_join (output_dir x) (prefix ++ x ++ ".csv")).
  rewrite (output_dir_plain x Hp). unfold path_join. rewrite Hpre.
  rewrite (ends_with_sep_append "db/lcoes/" x Hne), He.
  reflexivity.
Qed.

(** X22: for a plain scenario text, the five output files of make_tables lie
    in the directory [db/lcoes/<scenario>] that make_tables creates, under
    the names grid_lcoes_, grid_cap_, tech_lcoes_, tech_cap_ and num_people_
    followed by the scenario and [.csv]; the five paths are pairwise
    distinct. *)
Theorem output_files_in_scenario_directory (x : string) :
  plain x ->
  output_dir x = "db/lcoes/" ++ x
  /\ FF_GRID_LCOES x = output_dir x ++ "/grid_lcoes_" ++ x ++ ".csv"
  /\ FF_GRID_CAP x = output_dir x ++ "/grid_cap_" ++ x ++ ".csv"
  /\ FF_TECH_LCOES x = output_dir x ++ "/tech_lcoes_" ++ x ++ ".csv"
  /\ FF_TECH_CAP x = output_dir x ++ "/tech_cap_" ++ x ++ ".csv"
  /\ FF_NUM_PEOPLE x = output_dir x ++ "/num_people_" ++ x ++ ".csv"
  /\ NoDup [FF_GRID_LCOES x; FF_GRID_CAP x; FF_TECH_LCOES x; FF_TECH_CAP x;
            FF_NUM_PEOPLE x].
Proof.
  intros Hp.
  assert (H1 : FF_GRID_LCOES x = output_dir x ++ "/grid_lcoes_" ++ x ++ ".csv")
    by (apply (output_file_plain x "grid_lcoes_" Hp); reflexivity).
  assert (H2 : FF_GRID_CAP x = output_dir x ++ "/grid_cap_" ++ x ++ ".csv")
    by (apply (output_file_plain x "grid_cap_" Hp); reflexivity).
  assert (H3 : FF_TECH_LCOES x = output_dir x ++ "/tech_lcoes_" ++ x ++ ".csv")
    by (apply (output_file_plain x "tech_lcoes_" Hp); reflexivity).
  assert (H4 : FF_TECH_CAP x = output_dir x ++ "/tech_cap_" ++ x ++ ".csv")
    by (apply (output_file_plain x "tech_cap_" Hp); reflexivity).
  assert (H5 : FF_NUM_PEOPLE x = output_dir x ++ "/num_people_" ++ x ++ ".csv")
    by (apply (output_file_plain x "num_people_" Hp); reflexivity).
  split; [apply output_dir_plain; exact Hp | ].
  do 5 (split; [assumption | ]).
  rewrite H1, H2, H3, H4, H5.
  repeat (apply NoDup_cons;
          [cbn [In]; intros Hin;
           repeat (destruct Hin as [Hin | Hin];
                   [apply append_inj_l in Hin; cbn in Hin; discriminate | ]);
           exact Hin | ]).
  apply NoDup_nil.
Qed.

Lemma plain_1000 : plain "1000".
Proof. unfold plain. split; [discriminate | split; reflexivity]. Qed.

Lemma output_files_in_scenario_directory_witness :
  FF_GRID_LCOES "1000" = "db/lcoes/1000/grid_lcoes_1000.csv".
Proof.
  destruct (output_files_in_scenario_directory "1000" plain_1000)
    as (_ & H & _).
  rewrite H. reflexivity.
Defined.

Lemma output_file_injective (prefix x y : string) :
  plain x -> plain y ->
  output_dir x ++ "/" ++ prefix ++ x ++ ".csv"
  = output_dir y ++ "/" ++ prefix ++ y ++ ".csv" ->
  x = y.
Proof.
  intros Hx Hy. rewrite (output_dir_plain x Hx), (output_dir_plain y Hy).
  rewrite !append_assoc. intros H. apply append_inj_l in H.
  assert (Hlen : String.length x = String.length y).
  { apply (f_equal String.length) in H.
    rewrite !length_append in H. cbn [String.length] in H. lia. }
  exact (append_same_length x y _ _ Hlen H).
Qed.

Lemma output_paths_injective (x y : string) :
  plain x -> plain y ->
  (output_dir x = output_dir y \/ FF_GRID_LCOES x = FF_GRID_LCOES y
   \/ FF_GRID_CAP x = FF_GRID_CAP y \/ FF_TECH_LCOES x = FF_TECH_LCOES y
   \/ FF_TECH_CAP x = FF_TECH_CAP y \/ FF_NUM_PEOPLE x = FF_NUM_PEOPLE y) ->
  x = y.
Proof.
  intros Hx Hy H.
  destruct H as [H | [H | [H | [H | [H | H]]]]].
  - rewrite (output_dir_plain x Hx), (output_dir_plain y Hy) in H.
    apply append_inj_l in H. exact H.
  - unfold FF_GRID_LCOES in H.
    rewrite !output_file_plain in H by (assumption || reflexivity).
    apply (output_file_injective _ x y Hx Hy H).
  - unfold FF_GRID_CAP in H.
    rewrite !output_file_plain in H by (assumption || reflexivity).
    apply (output_file_injective _ x y Hx Hy H).
  - unfold FF_TECH_LCOES in H.
    rewrite !output_file_plain in H by (assumption || reflexivity).
    apply (output_file_injective _ x y Hx Hy H).
  - unfold FF_TECH_CAP in H.
    rewrite !output_file_plain in H by (assumption || reflexivity).
    apply (output_file_injective _ x y Hx Hy H).
  - unfold FF_NUM_PEOPLE in H.
    rewrite !output_file_plain in H by (assumption || reflexivity).
    apply (output_file_injective _ x y Hx Hy H).
Qed.

(** X23: two plain scenario texts that differ never share an output: the
    directories differ, and so does each of the five files. *)
Theorem output_paths_isolate_scenarios (x y : string) :
  plain x -> plain y -> x <> y ->
  output_dir x <> output_dir y
  /\ FF_GRID_LCOES x <> FF_GRID_LCOES y
  /\ FF_GRID_CAP x <> FF_GRID_CAP y
  /\ FF_TECH_LCOES x <> FF_TECH_LCOES y
  /\ FF_TECH_CAP x <> FF_TECH_CAP y
  /\ FF_NUM_PEOPLE x <> FF_NUM_PEOPLE y.
Proof.
  intros Hx Hy Hne.
  repeat split; intros H; apply Hne;
    apply (output_paths_injective x y Hx Hy); tauto.
Qed.

Lemma plain_2000 : plain "2000".
Proof. unfold plain. split; [discriminate | split; reflexivity]. Qed.

Lemma output_paths_isolate_scenarios_witness :
  FF_GRID_LCOES "1000" <> FF_GRID_LCOES "2000".
Proof.
  destruct (output_paths_isolate_scenarios "1000" "2000" plain_1000
              plain_2000) as (_ & H & _).
  - discriminate.
  - exact H.
Defined.

Local Close Scope string_scope.
